(** * STAP-liver: the hard-sample-mining training loop ([lss_train.py])
      and the [Patient] container ([lic_patient.py])

    A shallow embedding of the two Python sources and the properties the
    specification states about them.

    - [Py]: the fragment of Python the sources rely on: exceptions, binary64
      floats with [int()] and [float()], [random.sample].
    - [Sklearn]: the per-class precision and recall of
      [precision_recall_fscore_support].
    - [LssTrain]: the module-level script of [lss_train.py], from the
      assembly of [X] and [y] to [joblib.dump].
    - [Demo]: small instances of the external primitives and concrete runs.
    - [LicPatient]: the [Patient] class with its shared default dictionaries.
    - [LicLoad]: the loaders of [lic_patient.py] and [Patient.total_volume].
    - [LoadDemo]: a small file system and the loaders on it. *)

From Stdlib Require Import ZArith Lia Bool.
From Stdlib Require Import SpecFloat.
From stdpp Require Import base list sorting gmap strings.
From Equations Require Import Equations.

(* ===================================================================== *)
(** * Python values and library primitives                                *)
(* ===================================================================== *)

Module Py.

(** Exceptions the script can die of. None is ever caught: the first one
    raised ends the run. [LibraryError] stands for a failure inside one of
    the external fit/transform/predict primitives. *)
Inductive exn : Type :=
  | ValueError
  | IndexError
  | OverflowError
  | NameError (name : string)
  | LibraryError.

Inductive result (A : Type) : Type :=
  | Ok (a : A)
  | Raise (e : exn).
Arguments Ok {A} a.
Arguments Raise {A} e.

#[export] Instance result_ret : MRet result := fun _ a => Ok a.
#[export] Instance result_bind : MBind result := fun _ _ f m =>
  match m with Ok a => f a | Raise e => Raise e end.
#[export] Instance result_fmap : FMap result := fun _ _ f m =>
  match m with Ok a => Ok (f a) | Raise e => Raise e end.

(** ** binary64 floats

    Python's [float] and numpy's [float64] are IEEE 754 binary64. They are
    modelled by the Standard Library's specification floats at precision 53
    and maximal exponent 1024, the format the kernel's primitive floats are
    specified against. *)
Definition float : Type := spec_float.
Definition prec : Z := 53.
Definition emax : Z := 1024.

Definition fmul (a b : float) : float := SFmul prec emax a b.
Definition fdiv (a b : float) : float := SFdiv prec emax a b.
(** [a > b] *)
Definition fgt (a b : float) : bool := SFltb b a.
(** [a <= b] *)
Definition fle (a b : float) : bool := SFleb a b.
(** Neither an infinity nor a NaN. *)
Definition is_finite (f : float) : bool :=
  match f with
  | S754_zero _ | S754_finite _ _ _ => true
  | S754_infinity _ | S754_nan => false
  end.

Definition f0 : float := S754_zero false.
Definition f1 : float := S754_finite false 4503599627370496 (-52).
Definition f2 : float := S754_finite false 4503599627370496 (-51).
(** [0.5], [0.1] and [0.95], the last two rounded to nearest as the parser
    of float literals does. *)
Definition f0_5 : float := S754_finite false 4503599627370496 (-53).
Definition f0_1 : float := S754_finite false 7205759403792794 (-56).
Definition f0_95 : float := S754_finite false 8556839292003942 (-53).

(** [float(n)] for an integer [n], as the mixed product [x * n] converts its
    integer operand: correctly rounded, [OverflowError] beyond the range. *)
Definition float_of_int (n : Z) : result float :=
  match binary_normalize prec emax n 0 false with
  | S754_infinity _ => Raise OverflowError
  | f => Ok f
  end.

(** [int(f)]: truncation toward zero; [ValueError] on a NaN,
    [OverflowError] on an infinity. *)
Definition int_of_float (f : float) : result Z :=
  match f with
  | S754_zero _ => Ok 0%Z
  | S754_finite s m e => Ok (cond_Zopp s (Z.shiftl (Zpos m) e))
  | S754_infinity _ => Raise OverflowError
  | S754_nan => Raise ValueError
  end.

(** The mathematical floor of a float, where it has one. *)
Definition floor_of_float (f : float) : option Z :=
  match f with
  | S754_zero _ => Some 0%Z
  | S754_finite s m e => Some (Z.shiftl (cond_Zopp s (Zpos m)) e)
  | _ => None
  end.

(** ** [random.sample]

    The generator's hidden state is a tape of raw draws; a draw below [n] is
    the head of the tape modulo [n] (0 once the tape is used up). Quantifying
    over tapes covers every outcome of the generator. *)
Definition tape : Type := list nat.

Definition randbelow (t : tape) (n : nat) : nat * tape :=
  (hd 0 t `mod` n, tl t).

(** [k] successive draws from the pool, each drawn position leaving the
    pool: selection without replacement. *)
Fixpoint draw {A} (t : tape) (pool : list A) (k : nat) : list A * tape :=
  match k with
  | O => ([], t)
  | S k' =>
      let '(j, t') := randbelow t (length pool) in
      match pool !! j with
      | Some x => let '(rest, t'') := draw t' (delete j pool) k' in (x :: rest, t'')
      | None => ([], t')
      end
  end.

(** [random.sample(population, k)]: [ValueError] ("Sample larger than
    population or is negative") unless [0 <= k <= len(population)]. *)
Definition random_sample {A} (t : tape) (population : list A) (k : Z)
  : result (list A * tape) :=
  if ((0 <=? k) && (k <=? Z.of_nat (length population)))%Z
  then Ok (draw t population (Z.to_nat k))
  else Raise ValueError.

(** ** Facts about the float primitives *)

Lemma SFcompare_antisym (a b : float) :
  SFcompare b a = option_map CompOpp (SFcompare a b).
Proof.
  destruct a as [sa|sa| |sa ma ea], b as [sb|sb| |sb mb eb]; simpl;
    try reflexivity; try (destruct sa; reflexivity);
    try (destruct sb; reflexivity); try (destruct sa, sb; reflexivity).
  unfold SFcompare, option_map.
  rewrite (Z.compare_antisym ea eb), (ZC4 mb ma).
  destruct sa, sb, (ea ?= eb)%Z, (Pos.compare_cont Eq ma mb); reflexivity.
Qed.

(** [a <= b] excludes [a > b]. *)
Lemma fle_not_fgt (a b : float) : fle a b = true -> fgt a b = false.
Proof.
  unfold fle, fgt, SFleb, SFltb. rewrite (SFcompare_antisym a b).
  destruct (SFcompare a b) as [[]|]; simpl; congruence.
Qed.

(** A NaN compares false both ways: [a > b = false] is weaker than [a <= b]. *)
Lemma fgt_nan_l (b : float) : fgt S754_nan b = false.
Proof. destruct b; reflexivity. Qed.

(** Rounding keeps the sign it is given. *)
Definition has_sign (s : bool) (f : float) : Prop :=
  match f with
  | S754_zero s' | S754_infinity s' | S754_finite s' _ _ => s' = s
  | S754_nan => True
  end.

Lemma binary_round_aux_sign (s : bool) (m e : Z) (l : location) :
  has_sign s (binary_round_aux prec emax s m e l).
Proof.
  unfold binary_round_aux.
  destruct (shr_fexp prec emax m e l) as [mrs' e'].
  destruct (shr_fexp prec emax _ e' loc_Exact) as [mrs'' e''].
  destruct (shr_m mrs''); simpl; [reflexivity| |exact I].
  destruct (e'' <=? emax - prec)%Z; reflexivity.
Qed.

Lemma float_of_int_sign (n : Z) (f : float) :
  (0 <= n)%Z -> float_of_int n = Ok f -> has_sign false f.
Proof.
  unfold float_of_int, binary_normalize, binary_round. intros Hn.
  destruct n as [|p|p]; [intros [= <-]; reflexivity| |lia].
  destruct (shl_align p 0 _) as [mz ez].
  pose proof (binary_round_aux_sign false (Z.pos mz) ez loc_Exact) as Hs.
  destruct (binary_round_aux prec emax false (Z.pos mz) ez loc_Exact);
    intros [= <-]; exact Hs.
Qed.

Lemma fmul_sign (a b : float) (sa sb : bool) :
  has_sign sa a -> has_sign sb b -> has_sign (xorb sa sb) (fmul a b).
Proof.
  destruct a as [s|s| |s m e], b as [s'|s'| |s' m' e']; simpl;
    try exact (fun _ _ => I); try (intros -> ->; reflexivity).
  intros -> ->. apply binary_round_aux_sign.
Qed.

(** [0 <= a] pins the sign of [a], a negative zero apart. *)
Lemma fle_zero_sign (a : float) :
  fle f0 a = true -> has_sign false a \/ a = S754_zero true.
Proof.
  destruct a as [[]|[]| |[] m e]; simpl; try discriminate; auto.
Qed.

(** On a float that is not negative, [int()] is the floor. *)
Lemma int_of_float_floor (f : float) (k : Z) :
  has_sign false f -> int_of_float f = Ok k -> floor_of_float f = Some k.
Proof.
  destruct f as [s|s| |s m e]; simpl; try discriminate.
  - intros _ [= <-]. reflexivity.
  - intros -> [= <-]. reflexivity.
Qed.

(** The count [int(lr * n)] of a rate [0 <= lr] and a size [0 <= n] is the
    floor of the product. *)
Lemma int_of_product_floor (lr fn : float) (n k : Z) :
  fle f0 lr = true -> (0 <= n)%Z -> float_of_int n = Ok fn ->
  int_of_float (fmul lr fn) = Ok k ->
  floor_of_float (fmul lr fn) = Some k /\ (0 <= k)%Z.
Proof.
  intros Hlr Hn Hfn Hk.
  pose proof (float_of_int_sign n fn Hn Hfn) as Hsn.
  assert (Hs : has_sign false (fmul lr fn) \/ fmul lr fn = S754_zero true).
  { destruct (fle_zero_sign lr Hlr) as [Hsl| ->].
    - left. exact (fmul_sign lr fn false false Hsl Hsn).
    - destruct fn as [s|s| |s m e]; simpl in *; subst; auto. }
  destruct Hs as [Hs|Hz].
  - split; [exact (int_of_float_floor _ _ Hs Hk)|].
    destruct (fmul lr fn) as [s|s| |s m e]; simpl in *; try discriminate.
    + injection Hk as <-. lia.
    + subst s. injection Hk as <-. simpl. apply Z.shiftl_nonneg. lia.
  - rewrite Hz in *. simpl in *. injection Hk as <-. split; [reflexivity|lia].
Qed.

(** ** Facts about [random.sample] *)

Lemma draw_length {A} (t : tape) (pool : list A) (k : nat) :
  k <= length pool -> length (draw t pool k).1 = k.
Proof.
  revert t pool. induction k as [|k IH]; intros t pool Hk; [reflexivity|].
  simpl. destruct pool as [|a pool']; [simpl in Hk; lia|].
  set (pool := a :: pool') in *.
  assert (Hj : hd 0 t `mod` length pool < length pool)
    by (apply Nat.mod_upper_bound; simpl; lia).
  destruct (lookup_lt_is_Some_2 pool _ Hj) as [x Hx]. rewrite Hx.
  specialize (IH (tl t) (delete (hd 0 t `mod` length pool) pool)).
  destruct (draw (tl t) (delete _ pool) k) as [rest t''] eqn:Hd.
  simpl in *. f_equal. apply IH.
  rewrite length_delete by eauto. simpl in *. lia.
Qed.

(** The sample is a sub-multiset of the population: no position is drawn
    twice. *)
Lemma draw_submseteq {A} (t : tape) (pool : list A) (k : nat) :
  (draw t pool k).1 ⊆+ pool.
Proof.
  revert t pool. induction k as [|k IH]; intros t pool; simpl.
  - apply submseteq_nil_l.
  - destruct (pool !! (hd 0 t `mod` length pool)) as [x|] eqn:Hx; simpl.
    + specialize (IH (tl t) (delete (hd 0 t `mod` length pool) pool)).
      destruct (draw (tl t) (delete _ pool) k) as [rest t'']. simpl in *.
      rewrite (delete_Permutation pool _ x Hx). by apply submseteq_skip.
    + apply submseteq_nil_l.
Qed.

(** Every selection without replacement is the outcome of some tape. *)
Lemma draw_complete {A} (pool s : list A) :
  s ⊆+ pool → ∃ t, (draw t pool (length s)).1 = s.
Proof.
  revert pool. induction s as [|x s IH]; intros pool Hsub.
  - exists []. reflexivity.
  - apply submseteq_cons_l in Hsub as (k' & Hperm & Hsub).
    assert (Hx : x ∈ pool) by (rewrite Hperm; left).
    apply list_elem_of_lookup in Hx as [j Hj].
    assert (Hk' : k' ≡ₚ delete j pool).
    { apply (Permutation_cons_inv (a := x)).
      by rewrite <- Hperm, <- (delete_Permutation pool j x Hj). }
    destruct (IH (delete j pool)) as [t Ht]; [by rewrite <- Hk'|].
    exists (j :: t). simpl.
    rewrite Nat.mod_small by (by eapply lookup_lt_Some). rewrite Hj.
    destruct (draw t (delete j pool) (length s)) as [rest t']. simpl in *.
    by rewrite Ht.
Qed.

(** ** Products with 1.0 and 0.0 *)

(** The number of binary digits bounds the number from below. *)
Lemma digits2_pos_lower (p : positive) :
  (2 ^ (Z.pos (digits2_pos p) - 1) ≤ Z.pos p)%Z.
Proof.
  induction p as [p IH|p IH|]; simpl digits2_pos; [| |simpl; lia].
  - rewrite Pos2Z.inj_succ, Z.sub_1_r, Z.pred_succ.
    replace (Z.pos (digits2_pos p)) with (Z.succ (Z.pos (digits2_pos p) - 1)) by lia.
    rewrite Z.pow_succ_r by lia. lia.
  - rewrite Pos2Z.inj_succ, Z.sub_1_r, Z.pred_succ.
    replace (Z.pos (digits2_pos p)) with (Z.succ (Z.pos (digits2_pos p) - 1)) by lia.
    rewrite Z.pow_succ_r by lia. lia.
Qed.

Lemma digits2_pos_small (p : positive) :
  (Z.pos p < 2 ^ 53)%Z → (Z.pos (digits2_pos p) ≤ 53)%Z.
Proof.
  intros Hp. pose proof (digits2_pos_lower p) as Hl.
  destruct (Z.le_gt_cases (Z.pos (digits2_pos p)) 53) as [|Hgt]; [done|].
  assert (2 ^ 53 ≤ 2 ^ (Z.pos (digits2_pos p) - 1))%Z
    by (apply Z.pow_le_mono_r; lia).
  lia.
Qed.

Lemma digits2_pos_iter_xO (p k : positive) :
  digits2_pos (Pos.iter xO p k) = (digits2_pos p + k)%positive.
Proof.
  rewrite (Pos.iter_swap_gen _ _ digits2_pos xO Pos.succ) by reflexivity.
  induction k as [|k IH] using Pos.peano_ind.
  - simpl. lia.
  - rewrite Pos.iter_succ, IH. lia.
Qed.

Lemma Zpos_iter_xO (p k : positive) :
  Z.pos (Pos.iter xO p k) = Z.shiftl (Z.pos p) (Z.pos k).
Proof.
  rewrite (Pos.iter_swap_gen _ _ Z.pos xO (Z.mul 2)) by reflexivity.
  reflexivity.
Qed.

(** A mantissa of 53 digits with an exponent in range is already
    rounded. *)
Lemma binary_round_aux_canonical (s : bool) (m : positive) (e : Z) :
  digits2_pos m = 53%positive → (-1074 ≤ e ≤ 971)%Z →
  binary_round_aux prec emax s (Z.pos m) e loc_Exact = S754_finite s m e.
Proof.
  intros Hd He.
  assert (Hshift : (fexp prec emax (Zdigits2 (Z.pos m) + e) - e = 0)%Z).
  { unfold fexp, emin, prec, emax. simpl Zdigits2. rewrite Hd. lia. }
  unfold binary_round_aux, shr_fexp. rewrite Hshift. simpl.
  simpl Zdigits2 in Hshift. rewrite Hshift. simpl.
  replace (e <=? emax - prec)%Z with true
    by (symmetry; apply Z.leb_le; unfold emax, prec; lia).
  reflexivity.
Qed.

(** [float(n)] for [0 < n < 2^53]: the mantissa is [n] shifted left to 53
    digits. *)
Lemma float_of_int_small (p : positive) :
  (Z.pos p < 2 ^ 53)%Z →
  ∃ m e, float_of_int (Z.pos p) = Ok (S754_finite false m e)
         ∧ digits2_pos m = 53%positive
         ∧ (-52 ≤ e ≤ 0)%Z
         ∧ Z.shiftl (Z.pos m) e = Z.pos p.
Proof.
  intros Hp. pose proof (digits2_pos_small p Hp) as Hd.
  unfold float_of_int, binary_normalize, binary_round, shl_align.
  unfold fexp, emin. fold prec emax.
  replace (Z.max (Z.pos (digits2_pos p) + 0 - prec) (3 - emax - prec))
    with (Z.pos (digits2_pos p) - 53)%Z by (unfold prec, emax; lia).
  rewrite Z.sub_0_r.
  destruct (Z.pos (digits2_pos p) - 53)%Z as [|k|k] eqn:Hk; [|lia|].
  - assert (Hdp : digits2_pos p = 53%positive) by lia.
    rewrite binary_round_aux_canonical by (auto; lia).
    exists p, 0%Z. split_and!; auto; lia.
  - assert (Hdk : digits2_pos (Pos.iter xO p k) = 53%positive)
      by (rewrite digits2_pos_iter_xO; lia).
    rewrite binary_round_aux_canonical by (auto; lia).
    exists (Pos.iter xO p k), (Z.neg k). split_and!; auto; try lia.
    rewrite Zpos_iter_xO. change (Z.neg k) with (- Z.pos k)%Z.
    rewrite Z.shiftl_opp_r, Z.shiftr_shiftl_l, Z.sub_diag by lia. reflexivity.
Qed.

(** Multiplying by 1.0 changes nothing. *)
Lemma fmul_one_canonical (m : positive) (e : Z) :
  digits2_pos m = 53%positive → (-1000 ≤ e ≤ 971)%Z →
  fmul f1 (S754_finite false m e) = S754_finite false m e.
Proof.
  intros Hd He. unfold fmul, f1, SFmul. simpl xorb.
  assert (Hdig : Zdigits2 (Z.pos (4503599627370496 * m)) = 105%Z).
  { change (4503599627370496 * m)%positive with (Pos.iter xO m 52).
    unfold Zdigits2. rewrite digits2_pos_iter_xO, Hd. reflexivity. }
  assert (Hiter : SpecFloat.iter_pos shr_1 52%positive
            (shr_record_of_loc (Z.pos (4503599627370496 * m)) loc_Exact)
          = {| shr_m := Z.pos m; shr_r := false; shr_s := false |})
    by reflexivity.
  unfold binary_round_aux, shr_fexp. rewrite Hdig.
  replace (fexp prec emax (105 + (-52 + e)) - (-52 + e))%Z with 52%Z
    by (unfold fexp, emin, prec, emax; lia).
  unfold shr at 1. rewrite Hiter.
  cbn [shr_m loc_of_shr_record round_nearest_even shr_record_of_loc Zdigits2].
  rewrite Hd.
  replace (fexp prec emax (53 + (-52 + e + 52)) - (-52 + e + 52))%Z with 0%Z
    by (unfold fexp, emin, prec, emax; lia).
  cbn [shr shr_m].
  replace (-52 + e + 52 <=? emax - prec)%Z with true
    by (symmetry; apply Z.leb_le; unfold emax, prec; lia).
  f_equal. lia.
Qed.

(** [int(1.0 * n)] is [n], and [int(0.0 * n)] is 0, for a count below
    2^53. *)
Lemma int_of_unit_product (n : Z) :
  (0 ≤ n < 2 ^ 53)%Z →
  ∃ fn, float_of_int n = Ok fn
        ∧ int_of_float (fmul f1 fn) = Ok n
        ∧ int_of_float (fmul f0 fn) = Ok 0%Z.
Proof.
  intros [H0 Hn]. destruct n as [|p|p]; [| |lia].
  - exists (S754_zero false). split_and!; reflexivity.
  - destruct (float_of_int_small p Hn) as (m & e & Hf & Hd & He & Hv).
    exists (S754_finite false m e). split_and!; [exact Hf| |reflexivity].
    rewrite fmul_one_canonical by (auto; lia). simpl. by rewrite Hv.
Qed.

End Py.

Import Py.

(* ===================================================================== *)
(** * The evaluator: per-class precision and recall                       *)
(* ===================================================================== *)

Module Sklearn.

(** Class labels. The script stores them in a float64 vector; the labels
    are small integers, which that format holds exactly. *)
Definition label : Type := Z.

(** [unique_labels(y_true, y_pred)]: the labels present in either vector,
    in increasing order. The per-class vectors follow this order. *)
Definition unique_labels (y_true y_pred : list label) : list label :=
  merge_sort Z.le (remove_dups (y_true ++ y_pred)).

(** Per-class counts: true positives, predicted, and true (the support). *)
Definition tp_sum (y_true y_pred : list label) (c : label) : nat :=
  length (filter (λ tp, tp.1 = c ∧ tp.2 = c) (zip y_true y_pred)).
Definition pred_sum (y_pred : list label) (c : label) : nat :=
  length (filter (λ p, p = c) y_pred).
Definition true_sum (y_true : list label) (c : label) : nat :=
  length (filter (λ t, t = c) y_true).

(** A count as a float64 (exact below 2^53). *)
Definition float_of_count (n : nat) : float :=
  binary_normalize prec emax (Z.of_nat n) 0 false.

(** [_prf_divide]: the float quotient, and 0.0 where the denominator is 0
    (the library warns there and does not raise). *)
Definition prf_divide (num den : nat) : float :=
  if decide (den = 0) then f0
  else fdiv (float_of_count num) (float_of_count den).

Definition precision_of (y_true y_pred : list label) (c : label) : float :=
  prf_divide (tp_sum y_true y_pred c) (pred_sum y_pred c).
Definition recall_of (y_true y_pred : list label) (c : label) : float :=
  prf_divide (tp_sum y_true y_pred c) (true_sum y_true c).

(** [precision_recall_fscore_support(y_true, y_pred)] with its defaults:
    [(precision, recall, support)] per class; the F-score, which the script
    never reads, is left out. [ValueError] on vectors of different
    lengths, and on empty ones, which the validation of the inputs
    refuses. *)
Definition precision_recall_fscore_support (y_true y_pred : list label)
  : result (list float * list float * list nat) :=
  if decide (length y_true = length y_pred ∧ y_true ≠ []) then
    let labels := unique_labels y_true y_pred in
    Ok (precision_of y_true y_pred <$> labels,
        recall_of y_true y_pred <$> labels,
        true_sum y_true <$> labels)
  else Raise ValueError.

End Sklearn.

Import Sklearn.

(* ===================================================================== *)
(** * [lss_train.py]: the training script                                 *)
(* ===================================================================== *)

Module LssTrain.

Definition row : Type := list float.
Definition matrix : Type := list row.
Definition labels : Type := list label.

(** The command-line options the loop reads (lines 63-68). *)
Record options : Type := {
  pca_components_total : Z;
  max_epochs : Z;
  convergence_threshold : float;
  initial_train_size : Z;
  learning_rate : float;
  model_filename : string }.

Definition default_options : options := {|
  pca_components_total := 20;
  max_epochs := 100;
  convergence_threshold := f0_95;
  initial_train_size := 1000;
  learning_rate := f0_1;
  model_filename := "out.pkl" |}.

(** One element of [feature_dataset]: [element['features']] and
    [element['target']]. *)
Record feature_record : Type := {
  features : list float;
  target : label }.

(** Line 80: [classes_count, target_names = 2, ['0','1']]. *)
Definition classes_count : nat := 2.
Definition target_names : list string := ["0"; "1"].

(** ** Assembling [X] and [y] (lines 113-122) *)

(** [X[i,:] = v] on a row of [feature_count] cells: [v] must have that
    length, or one cell, which is broadcast. *)
Definition assign_row (feature_count : nat) (v : list float) : result row :=
  if decide (length v = feature_count) then Ok v
  else match v with
       | [x] => Ok (replicate feature_count x)
       | _ => Raise ValueError
       end.

(** [np.empty] refuses a negative dimension. *)
Definition build_X (feature_dataset : list feature_record) (feature_count : Z)
  : result matrix :=
  if (feature_count <? 0)%Z then Raise ValueError
  else mapM (λ element, assign_row (Z.to_nat feature_count) (features element))
            feature_dataset.

Definition build_y (feature_dataset : list feature_record) : labels :=
  target <$> feature_dataset.

(** ** The convergence check (line 191)

    [all(np.array(precision) > convergence_threshold) and
     all(np.array(recall) > convergence_threshold)] *)
Definition convergence_check (precision recall : list float) (threshold : float)
  : bool :=
  forallb (λ p, fgt p threshold) precision
  && forallb (λ r, fgt r threshold) recall.

(** ** Hard-sample selection (lines 196-203) *)

(** [enumerate(l)] *)
Definition enumerate {A} (l : list A) : list (nat * A) := imap pair l.

(** [[idx for idx, targets in enumerate(zip(y_test, y_pred))
      if targets[0] != targets[1]]] *)
Definition hard_samples_indexes_of (y_test y_pred : labels) : list nat :=
  fst <$> filter (λ it, it.2.1 ≠ it.2.2) (enumerate (zip y_test y_pred)).

(** [int(learning_rate*len(hard_samples_indexes))] *)
Definition requested_count (learning_rate : float) (n : nat) : result Z :=
  fn ← float_of_int (Z.of_nat n);
  int_of_float (fmul learning_rate fn).

(** [a[idx]] for a list of indices: the rows at those positions, in order;
    [IndexError] out of bounds. An empty list selects no row. *)
Definition take_rows {A} (a : list A) (idx : list nat) : result (list A) :=
  mapM (λ i, match a !! i with Some x => Ok x | None => Raise IndexError end) idx.

(** Lines 196-203 as one step: the disagreement indices, the sample drawn
    from them, the rows and labels at the sample, and the generator after
    the draw. *)
Record selection : Type := {
  sel_indexes : list nat;
  sel_chosen : list nat;
  sel_X : matrix;
  sel_y : labels;
  sel_rng : tape }.

Definition select_hard_samples (learning_rate : float) (X_test : matrix)
    (y_test y_pred : labels) (rng : tape) : result selection :=
  let hard_samples_indexes := hard_samples_indexes_of y_test y_pred in
  k ← requested_count learning_rate (length hard_samples_indexes);
  sample ← random_sample rng hard_samples_indexes k;
  X_hard_samples ← take_rows X_test sample.1;
  y_hard_samples ← take_rows y_test sample.1;
  Ok {| sel_indexes := hard_samples_indexes;
        sel_chosen := sample.1;
        sel_X := X_hard_samples;
        sel_y := y_hard_samples;
        sel_rng := sample.2 |}.

Section Script.

(** The external primitives, each a function that may raise:
    [PCA(n_components, svd_solver='randomized', whiten=True).fit],
    [pca.transform], [GridSearchCV(SVC(kernel='rbf',
    class_weight='balanced'), param_grid).fit], [clf.predict],
    [classification_report(y_true, y_pred, target_names=target_names)]
    and [confusion_matrix(y_true, y_pred, labels=range(classes_count))],
    whose results are printed, the import of [joblib] from
    [sklearn.externals] (line 238), [joblib.dump], and
    [lss_data.assemble_initial_train_set], which also consumes the random
    generator. *)
Context {pca_model classifier : Type}.
Variable PCA_fit : Z → matrix → result pca_model.
Variable pca_transform : pca_model → matrix → result matrix.
Variable clf_fit : matrix → labels → result classifier.
Variable clf_predict : classifier → matrix → result labels.
Variable classification_report : labels → labels → list string → result string.
Variable confusion_matrix : labels → labels → list Z → result (list (list Z)).
Variable import_joblib : result unit.
Variable joblib_dump : classifier → string → result unit.
Variable assemble_initial_train_set :
  matrix → labels → Z → tape → result (matrix * labels * tape).
Variable opts : options.

(** ** Effects

    What the run does to the outside, in order: the calls to the
    projection and to the classifier, the epoch banner (line 154) and the
    call that writes the model file. *)
Inductive event : Type :=
  | EvPcaFit (n_components : Z) (X : matrix)
  | EvPcaTransform (m : pca_model) (X : matrix)
  | EvClfFit (X : matrix) (y : labels)
  | EvPredict (c : classifier) (X : matrix)
  | EvEpoch (current_epoch : Z)
  | EvDump (c : classifier) (filename : string).

(** A computation: the events it performed and how it ended. An exception
    ends the script, so the variables at that point are not observable;
    the events performed until then are. *)
Record M (A : Type) : Type := Run { trace : list event; outcome : result A }.
Arguments Run {A} trace outcome.
Arguments trace {A} m.
Arguments outcome {A} m.

#[local] Instance M_ret : MRet M := λ _ a, Run [] (Ok a).
#[local] Instance M_bind : MBind M := λ _ _ f m,
  match outcome m with
  | Ok a => Run (trace m ++ trace (f a)) (outcome (f a))
  | Raise e => Run (trace m) (Raise e)
  end.

Definition lift {A} (r : result A) : M A := Run [] r.
Definition call {A} (ev : event) (r : result A) : M A := Run [ev] r.
Definition emit (ev : event) : M unit := Run [ev] (Ok tt).

(** ** The module-level variables *)
Record state : Type := {
  X : matrix;
  y : labels;
  X_test : matrix;
  y_test : labels;
  X_train : matrix;
  y_train : labels;
  pca : pca_model;
  converged : bool;
  convergence : option bool;
  current_epoch : Z;
  clf : option classifier;
  y_pred : option labels;
  hard_samples_indexes : option (list nat);
  hard_samples_chosen : option (list nat);
  rng : tape }.

(** How an iteration of the loop body ends when it does not raise: at its
    last line, or at the [break]. *)
Inductive step : Type :=
  | Continue (st : state)
  | Break (st : state).

(** The state at the [break] of line 193: the classifier and its
    predictions are bound, [convergence] (not [converged]) is set. *)
Definition at_break (st : state) (c : classifier) (yp : labels) : state := {|
  X := X st; y := y st; X_test := X_test st; y_test := y_test st;
  X_train := X_train st; y_train := y_train st; pca := pca st;
  converged := converged st;
  convergence := Some true;
  current_epoch := current_epoch st;
  clf := Some c;
  y_pred := Some yp;
  hard_samples_indexes := hard_samples_indexes st;
  hard_samples_chosen := hard_samples_chosen st;
  rng := rng st |}.

(** The state after line 210. *)
Definition at_end_of_epoch (st : state) (c : classifier) (yp : labels)
    (sel : selection) : state := {|
  X := X st; y := y st; X_test := X_test st; y_test := y_test st;
  X_train := X_train st ++ sel_X sel;
  y_train := y_train st ++ sel_y sel;
  pca := pca st;
  converged := converged st;
  convergence := convergence st;
  current_epoch := current_epoch st + 1;
  clf := Some c;
  y_pred := Some yp;
  hard_samples_indexes := Some (sel_indexes sel);
  hard_samples_chosen := Some (sel_chosen sel);
  rng := sel_rng sel |}.

(** ** The loop body (lines 154-210)

    The two reports of lines 188-189 assign no variable, and what they
    return is printed and not kept; they are calls that may raise. The
    other prints are left out, the epoch banner apart. Names bound in an
    iteration and never read after it ([X_train_pca], [precision], ...)
    are local. *)
Definition epoch (st : state) : M step :=
  emit (EvEpoch (current_epoch st));;
  X_train_pca ← call (EvPcaTransform (pca st) (X_train st))
                     (pca_transform (pca st) (X_train st));
  X_test_pca ← call (EvPcaTransform (pca st) (X_test st))
                    (pca_transform (pca st) (X_test st));
  c ← call (EvClfFit X_train_pca (y_train st)) (clf_fit X_train_pca (y_train st));
  yp ← call (EvPredict c X_test_pca) (clf_predict c X_test_pca);
  prf ← lift (precision_recall_fscore_support (y_test st) yp);
  lift (classification_report (y_test st) yp target_names);;
  lift (confusion_matrix (y_test st) yp (Z.of_nat <$> seq 0 classes_count));;
  if convergence_check prf.1.1 prf.1.2 (convergence_threshold opts)
  then mret (Break (at_break st c yp))
  else
    sel ← lift (select_hard_samples (learning_rate opts) (X_test st)
                                    (y_test st) yp (rng st));
    mret (Continue (at_end_of_epoch st c yp sel)).

(** Line 153: [current_epoch < max_epochs and not converged]. *)
Definition loop_cond (st : state) : bool :=
  (current_epoch st <? max_epochs opts)%Z && negb (converged st).

(** The events of an iteration that runs up to the evaluation. *)
Definition epoch_events (st : state) (X_train_pca X_test_pca : matrix)
    (c : classifier) : list event :=
  [ EvEpoch (current_epoch st);
    EvPcaTransform (pca st) (X_train st);
    EvPcaTransform (pca st) (X_test st);
    EvClfFit X_train_pca (y_train st);
    EvPredict c X_test_pca ].

(** What an iteration that does not raise went through. *)
Lemma epoch_Ok (st : state) (t : list event) (s : step) :
  epoch st = Run t (Ok s) →
  ∃ X_train_pca X_test_pca c yp prf,
    pca_transform (pca st) (X_train st) = Ok X_train_pca
    ∧ pca_transform (pca st) (X_test st) = Ok X_test_pca
    ∧ clf_fit X_train_pca (y_train st) = Ok c
    ∧ clf_predict c X_test_pca = Ok yp
    ∧ precision_recall_fscore_support (y_test st) yp = Ok prf
    ∧ t = epoch_events st X_train_pca X_test_pca c
    ∧ ((convergence_check prf.1.1 prf.1.2 (convergence_threshold opts) = true
        ∧ s = Break (at_break st c yp))
       ∨ (convergence_check prf.1.1 prf.1.2 (convergence_threshold opts) = false
          ∧ ∃ sel, select_hard_samples (learning_rate opts) (X_test st)
                     (y_test st) yp (rng st) = Ok sel
                   ∧ s = Continue (at_end_of_epoch st c yp sel))).
Proof.
  unfold epoch, mbind, M_bind, mret, M_ret, call, lift, emit. simpl.
  destruct (pca_transform (pca st) (X_train st)) as [X_train_pca|] eqn:H1; simpl; [|discriminate].
  destruct (pca_transform (pca st) (X_test st)) as [X_test_pca|] eqn:H2; simpl; [|discriminate].
  destruct (clf_fit X_train_pca (y_train st)) as [c|] eqn:H3; simpl; [|discriminate].
  destruct (clf_predict c X_test_pca) as [yp|] eqn:H4; simpl; [|discriminate].
  destruct (precision_recall_fscore_support (y_test st) yp) as [prf|] eqn:H5; simpl; [|discriminate].
  destruct (classification_report (y_test st) yp target_names); simpl; [|discriminate].
  destruct (confusion_matrix (y_test st) yp _); simpl; [|discriminate].
  destruct (convergence_check _ _ _) eqn:Hcheck; simpl.
  - intros [= <- <-]. exists X_train_pca, X_test_pca, c, yp, prf.
    split_and!; auto.
  - destruct (select_hard_samples _ _ _ _ _) as [sel|] eqn:Hsel; simpl; [|discriminate].
    intros [= <- <-]. exists X_train_pca, X_test_pca, c, yp, prf.
    split_and!; eauto.
Qed.

(** An iteration that reaches its last line has incremented the counter. *)
Lemma epoch_Continue_counter (st st' : state) :
  outcome (epoch st) = Ok (Continue st') →
  current_epoch st' = (current_epoch st + 1)%Z.
Proof.
  intros H. destruct (epoch st) as [t o] eqn:He. simpl in H. subst o.
  apply epoch_Ok in He as (?&?&?&?&?&_&_&_&_&_&_&[[_ [=]]|[_ (sel&_&[= ->])]]).
  reflexivity.
Qed.

(** ** The loop (lines 151-210) *)

Definition inspect {A} (a : A) : {b | a = b} := exist _ a eq_refl.

(** [m] run after the events [t]. *)
Definition after {A} (t : list event) (m : M A) : M A :=
  Run (t ++ trace m) (outcome m).

(** [while (current_epoch < max_epochs and not converged): ...]. The
    recursion is on the state; it is well founded because a completed
    iteration moves the counter toward [max_epochs]. *)
Equations? training_loop (st : state) : M state
  by wf (Z.to_nat (max_epochs opts - current_epoch st)) lt :=
  training_loop st with inspect (loop_cond st) := {
    | exist _ false _ => mret st
    | exist _ true Hc with inspect (outcome (epoch st)) := {
      | exist _ (Raise e) _ => Run (trace (epoch st)) (Raise e)
      | exist _ (Ok (Break st')) _ => Run (trace (epoch st)) (Ok st')
      | exist _ (Ok (Continue st')) He =>
          after (trace (epoch st)) (training_loop st') } }.
Proof.
  match goal with
  | H : outcome _ = Ok (Continue _) |- _ =>
      change (outcome (epoch st) = Ok (Continue st')) in H;
      apply epoch_Continue_counter in H
  end.
  unfold loop_cond in Hc. apply andb_true_iff in Hc as [Hc _].
  apply Z.ltb_lt in Hc. lia.
Qed.

(** ** Before and after the loop *)

(** Lines 113-152: [X], [y], the evaluation set (two more names for the
    same arrays), the initial training set, the projection, the loop
    variables. *)
Definition initialise (feature_dataset : list feature_record)
    (feature_count : Z) (rng0 : tape) : M state :=
  X0 ← lift (build_X feature_dataset feature_count);
  let y0 := build_y feature_dataset in
  train ← lift (assemble_initial_train_set X0 y0 (initial_train_size opts) rng0);
  pca0 ← call (EvPcaFit (pca_components_total opts) X0)
              (PCA_fit (pca_components_total opts) X0);
  mret {| X := X0; y := y0; X_test := X0; y_test := y0;
          X_train := train.1.1; y_train := train.1.2;
          pca := pca0;
          converged := false;
          convergence := None;
          current_epoch := 0;
          clf := None;
          y_pred := None;
          hard_samples_indexes := None;
          hard_samples_chosen := None;
          rng := train.2 |}.

(** Reading the variable [clf]: [NameError] while it is unbound. *)
Definition read_clf (st : state) : result classifier :=
  match clf st with
  | Some c => Ok c
  | None => Raise (NameError "clf")
  end.

(** Lines 214-239: the last evaluation on the full set, its two reports,
    then the import of [joblib] and the model file. The variable [clf] is
    read again for the dump; it is bound by then. *)
Definition final_report (st : state) : M state :=
  X_pca ← call (EvPcaTransform (pca st) (X st)) (pca_transform (pca st) (X st));
  c ← lift (read_clf st);
  yp ← call (EvPredict c X_pca) (clf_predict c X_pca);
  lift (classification_report (y_test st) yp target_names);;
  lift (confusion_matrix (y_test st) yp (Z.of_nat <$> seq 0 classes_count));;
  lift import_joblib;;
  call (EvDump c (model_filename opts)) (joblib_dump c (model_filename opts));;
  mret {| X := X st; y := y st; X_test := X_test st; y_test := y_test st;
          X_train := X_train st; y_train := y_train st; pca := pca st;
          converged := converged st;
          convergence := convergence st;
          current_epoch := current_epoch st;
          clf := clf st;
          y_pred := Some yp;
          hard_samples_indexes := hard_samples_indexes st;
          hard_samples_chosen := hard_samples_chosen st;
          rng := rng st |}.

(** The script from line 113 on. *)
Definition main (feature_dataset : list feature_record) (feature_count : Z)
    (rng0 : tape) : M state :=
  st0 ← initialise feature_dataset feature_count rng0;
  st ← training_loop st0;
  final_report st.

(* --------------------------------------------------------------------- *)
(** ** The convergence check                                              *)
(* --------------------------------------------------------------------- *)

Lemma forallb_lookup {A} (f : A → bool) (l : list A) :
  forallb f l = true ↔ ∀ i x, l !! i = Some x → f x = true.
Proof.
  rewrite forallb_forall. split.
  - intros H i x Hx. apply H, list_elem_of_In, list_elem_of_lookup. eauto.
  - intros H x Hx. apply list_elem_of_In, list_elem_of_lookup in Hx as [i Hi]. eauto.
Qed.

(** The check holds exactly when every entry of both vectors exceeds the
    threshold, whatever the number of classes. *)
Lemma convergence_check_true (precision recall : list float) (threshold : float) :
  convergence_check precision recall threshold = true ↔
  (∀ c p, precision !! c = Some p → fgt p threshold = true)
  ∧ (∀ c r, recall !! c = Some r → fgt r threshold = true).
Proof.
  unfold convergence_check. rewrite andb_true_iff, !forallb_lookup. reflexivity.
Qed.

(** The iteration takes the [break] exactly when the check holds on the
    vectors the evaluator returned. The [break] is what ends the loop: the
    line before it sets [convergence], and [converged] stays as it was. *)
Lemma epoch_Break_iff (st : state) (s : step) :
  outcome (epoch st) = Ok s →
  ∃ yp prf,
    precision_recall_fscore_support (y_test st) yp = Ok prf
    ∧ ((∃ st', s = Break st') ↔
       convergence_check prf.1.1 prf.1.2 (convergence_threshold opts) = true)
    ∧ (∀ st', s = Break st' →
         convergence st' = Some true ∧ converged st' = converged st).
Proof.
  intros H. destruct (epoch st) as [t o] eqn:He. simpl in H. subst o.
  apply epoch_Ok in He as (?&?&c&yp&prf&_&_&_&_&Hprf&_&[[Hc ->]|[Hc (sel&_&->)]]);
    exists yp, prf; (split; [exact Hprf|]); rewrite Hc; split.
  - split; eauto.
  - intros st' [= <-]. split; reflexivity.
  - split; [intros [st' [=]]|discriminate].
  - intros st' [=].
Qed.

(** C1. With the two classes 0 and 1, the convergence check is true if and
    only if, for each class, its precision and its recall both strictly
    exceed the threshold; one class whose recall is at most the threshold
    makes the check false, whatever the other values are. In the loop, an
    iteration that does not raise leaves at the [break] exactly when the
    check holds on the evaluator's vectors. *)
Theorem convergence_check_iff (precision recall : list float) (threshold : float) :
  length precision = classes_count →
  length recall = classes_count →
  (convergence_check precision recall threshold = true ↔
   ∀ c, c < classes_count →
     ∃ p r, precision !! c = Some p ∧ recall !! c = Some r
            ∧ fgt p threshold = true ∧ fgt r threshold = true)
  ∧ (∀ c r, recall !! c = Some r → fle r threshold = true →
       convergence_check precision recall threshold = false)
  ∧ (∀ st s, outcome (epoch st) = Ok s →
       ∃ yp prf,
         precision_recall_fscore_support (y_test st) yp = Ok prf
         ∧ ((∃ st', s = Break st') ↔
            convergence_check prf.1.1 prf.1.2 (convergence_threshold opts) = true)
         ∧ (∀ st', s = Break st' →
              convergence st' = Some true ∧ converged st' = converged st)).
Proof.
  intros Hp Hr. split_and!.
  - rewrite convergence_check_true. split.
    + intros [HP HR] c Hc.
      destruct (lookup_lt_is_Some_2 precision c) as [p Hpc]; [lia|].
      destruct (lookup_lt_is_Some_2 recall c) as [r Hrc]; [lia|].
      exists p, r. split_and!; eauto.
    + intros H. split.
      * intros c p Hpc. pose proof (lookup_lt_Some _ _ _ Hpc) as Hlt.
        destruct (H c) as (p'&r'&Hp'&_&Hgt&_); [lia|]. congruence.
      * intros c r Hrc. pose proof (lookup_lt_Some _ _ _ Hrc) as Hlt.
        destruct (H c) as (p'&r'&_&Hr'&_&Hgt); [lia|]. congruence.
  - intros c r Hrc Hle. apply not_true_is_false. intros Hconv.
    apply convergence_check_true in Hconv as [_ HR].
    specialize (HR c r Hrc). rewrite (fle_not_fgt _ _ Hle) in HR. discriminate.
  - apply epoch_Break_iff.
Qed.


(* --------------------------------------------------------------------- *)
(** ** Hard-sample selection                                              *)
(* --------------------------------------------------------------------- *)

(** The comprehension of line 196 collects exactly the positions where the
    true and the predicted label differ. *)
Lemma elem_of_hard_samples_indexes (yt yp : labels) (i : nat) :
  i ∈ hard_samples_indexes_of yt yp ↔
  ∃ t p, yt !! i = Some t ∧ yp !! i = Some p ∧ t ≠ p.
Proof.
  unfold hard_samples_indexes_of, enumerate.
  rewrite list_elem_of_fmap. split.
  - intros ([j [t p]] & -> & Hin). apply list_elem_of_filter in Hin as [Hne Hin].
    apply elem_of_lookup_imap in Hin as (k & [t' p'] & [= -> -> ->] & Hk).
    apply lookup_zip_with_Some in Hk as (a & b & [= -> ->] & Ha & Hb).
    simpl in *. eauto.
  - intros (t & p & Ht & Hp & Hne). exists (i, (t, p)). split; [reflexivity|].
    apply list_elem_of_filter. split; [exact Hne|].
    apply (elem_of_lookup_imap_2 pair _ (t, p) i).
    apply lookup_zip_with_Some. eauto.
Qed.

Lemma NoDup_hard_samples_indexes (yt yp : labels) :
  NoDup (hard_samples_indexes_of yt yp).
Proof.
  unfold hard_samples_indexes_of, enumerate.
  eapply sublist_NoDup; [|apply fmap_sublist, sublist_filter].
  rewrite fmap_imap. rewrite (imap_seq_0 _ id), list_fmap_id. apply NoDup_seq.
Qed.

Lemma hard_samples_indexes_lt (yt yp : labels) (i : nat) :
  i ∈ hard_samples_indexes_of yt yp → i < length yt.
Proof.
  intros (t & p & Ht & _)%elem_of_hard_samples_indexes.
  by apply lookup_lt_Some in Ht.
Qed.

(** Index selection returns the cells at the indices, in their order. *)
Lemma take_rows_Ok {A} (a : list A) (idx : list nat) (rows : list A) :
  take_rows a idx = Ok rows ↔ Forall2 (λ i r, a !! i = Some r) idx rows.
Proof.
  unfold take_rows. revert rows. induction idx as [|i idx IH]; intros rows; simpl.
  - split; [intros [= <-]; constructor|intros ->%Forall2_nil_inv_l; reflexivity].
  - unfold mbind, result_bind, mret, result_ret.
    destruct (a !! i) as [x|] eqn:Hx.
    + destruct (mapM _ idx) as [rest|e] eqn:Hrest.
      * split.
        -- intros [= <-]. constructor; [exact Hx|]. by apply IH.
        -- intros (r & rows' & Hr & Hrows & ->)%Forall2_cons_inv_l.
           apply IH in Hrows. congruence.
      * split; [discriminate|].
        intros (r & rows' & Hr & Hrows & ->)%Forall2_cons_inv_l.
        apply IH in Hrows. discriminate.
    + split; [discriminate|].
      intros (r & rows' & Hr & Hrows & ->)%Forall2_cons_inv_l. congruence.
Qed.

Lemma take_rows_in_range {A} (a : list A) (idx : list nat) :
  (∀ i, i ∈ idx → i < length a) → ∃ rows, take_rows a idx = Ok rows.
Proof.
  induction idx as [|i idx IH]; intros Hlt.
  - exists []. reflexivity.
  - destruct IH as [rows Hrows]; [intros j Hj; apply Hlt; by right|].
    destruct (lookup_lt_is_Some_2 a i) as [x Hx]; [apply Hlt; by left|].
    exists (x :: rows). apply take_rows_Ok. constructor; [exact Hx|].
    by apply take_rows_Ok.
Qed.

Lemma take_rows_length {A} (a : list A) (idx : list nat) (rows : list A) :
  take_rows a idx = Ok rows → length rows = length idx.
Proof. intros H%take_rows_Ok. symmetry. by eapply Forall2_length. Qed.

(** What a selection that does not raise went through. *)
Lemma select_hard_samples_Ok (lr : float) (Xt : matrix) (yt yp : labels)
    (r : tape) (sel : selection) :
  select_hard_samples lr Xt yt yp r = Ok sel →
  ∃ k : Z,
    requested_count lr (length (hard_samples_indexes_of yt yp)) = Ok k
    ∧ (0 ≤ k ≤ Z.of_nat (length (hard_samples_indexes_of yt yp)))%Z
    ∧ sel_indexes sel = hard_samples_indexes_of yt yp
    ∧ sel_chosen sel = (draw r (hard_samples_indexes_of yt yp) (Z.to_nat k)).1
    ∧ take_rows Xt (sel_chosen sel) = Ok (sel_X sel)
    ∧ take_rows yt (sel_chosen sel) = Ok (sel_y sel).
Proof.
  unfold select_hard_samples, random_sample.
  destruct (requested_count _ _) as [k|] eqn:Hk; simpl; [|discriminate].
  destruct ((0 <=? k)%Z && _) eqn:Hrange; simpl; [|discriminate].
  apply andb_true_iff in Hrange as [H0 Hn]. apply Z.leb_le in H0, Hn.
  destruct (take_rows Xt _) as [Xh|] eqn:HX; simpl; [|discriminate].
  destruct (take_rows yt _) as [yh|] eqn:Hy; simpl; [|discriminate].
  intros [= <-]. exists k. simpl. split_and!; auto.
Qed.

Lemma NoDup_of_submseteq {A} (l k : list A) : l ⊆+ k → NoDup k → NoDup l.
Proof.
  intros (l' & Hperm & Hsub)%submseteq_sublist_r Hk.
  rewrite Hperm. by eapply sublist_NoDup.
Qed.

(** The sample: as many indices as requested, no index twice, each one a
    disagreement. *)
Lemma selection_chosen (lr : float) (Xt : matrix) (yt yp : labels)
    (r : tape) (sel : selection) :
  select_hard_samples lr Xt yt yp r = Ok sel →
  requested_count lr (length (sel_indexes sel))
    = Ok (Z.of_nat (length (sel_chosen sel)))
  ∧ sel_chosen sel ⊆+ sel_indexes sel
  ∧ NoDup (sel_chosen sel)
  ∧ length (sel_X sel) = length (sel_chosen sel)
  ∧ length (sel_y sel) = length (sel_chosen sel).
Proof.
  intros (k & Hk & [H0 Hn] & Hidx & Hch & HX & Hy)%select_hard_samples_Ok.
  rewrite Hidx.
  assert (Hsub : sel_chosen sel ⊆+ hard_samples_indexes_of yt yp)
    by (rewrite Hch; apply draw_submseteq).
  assert (Hlen : length (sel_chosen sel) = Z.to_nat k)
    by (rewrite Hch; apply draw_length; lia).
  split_and!.
  - rewrite Hk, Hlen. f_equal. lia.
  - exact Hsub.
  - eapply NoDup_of_submseteq; [exact Hsub|]. apply NoDup_hard_samples_indexes.
  - by apply take_rows_length in HX.
  - by apply take_rows_length in Hy.
Qed.

Lemma requested_count_Ok (lr : float) (n : nat) (k : Z) :
  requested_count lr n = Ok k ↔
  ∃ fn, float_of_int (Z.of_nat n) = Ok fn ∧ int_of_float (fmul lr fn) = Ok k.
Proof.
  unfold requested_count, mbind, result_bind.
  destruct (float_of_int (Z.of_nat n)) as [fn|e]; split.
  - eauto.
  - intros (fn' & [= <-] & H). exact H.
  - discriminate.
  - intros (fn' & [=] & _).
Qed.

(** What an iteration that reaches its last line did to the variables. *)
Lemma epoch_Continue (st st' : state) :
  outcome (epoch st) = Ok (Continue st') →
  ∃ c yp prf sel,
    precision_recall_fscore_support (y_test st) yp = Ok prf
    ∧ convergence_check prf.1.1 prf.1.2 (convergence_threshold opts) = false
    ∧ select_hard_samples (learning_rate opts) (X_test st) (y_test st) yp
        (rng st) = Ok sel
    ∧ st' = at_end_of_epoch st c yp sel.
Proof.
  intros H. destruct (epoch st) as [t o] eqn:He. simpl in H. subst o.
  apply epoch_Ok in He
    as (?&?&c&yp&prf&_&_&_&_&Hprf&_&[[_ [=]]|[Hc (sel&Hsel&[= ->])]]).
  exists c, yp, prf, sel. auto.
Qed.

(** C2, as the code has it. On a non-converged epoch, with a learning
    rate that is not negative, the number of samples appended to the
    training set is the floor of the binary64 product of the learning rate
    and the number of disagreements between [y_test] and [y_pred], which
    is what [int] truncates; the appended samples are
    the rows and labels of the evaluation set at indices drawn without
    replacement from the disagreement set, and at each of them the true
    label differs from the label predicted in this epoch. *)
Theorem hard_samples_appended (st st' : state) :
  fle f0 (learning_rate opts) = true →
  outcome (epoch st) = Ok (Continue st') →
  ∃ yp idx chosen fn X_hard y_hard,
    y_pred st' = Some yp
    ∧ hard_samples_indexes st' = Some idx
    ∧ hard_samples_chosen st' = Some chosen
    ∧ (∀ i, i ∈ idx ↔ ∃ t p, y_test st !! i = Some t ∧ yp !! i = Some p ∧ t ≠ p)
    ∧ X_train st' = X_train st ++ X_hard
    ∧ y_train st' = y_train st ++ y_hard
    ∧ Forall2 (λ i r, X_test st !! i = Some r) chosen X_hard
    ∧ Forall2 (λ i t, y_test st !! i = Some t) chosen y_hard
    ∧ float_of_int (Z.of_nat (length idx)) = Ok fn
    ∧ floor_of_float (fmul (learning_rate opts) fn)
        = Some (Z.of_nat (length X_hard))
    ∧ NoDup chosen
    ∧ chosen ⊆+ idx
    ∧ (∀ i, i ∈ chosen →
         ∃ t p, y_test st !! i = Some t ∧ yp !! i = Some p ∧ t ≠ p).
Proof.
  intros Hlr (c & yp & prf & sel & _ & _ & Hsel & ->)%epoch_Continue.
  pose proof (selection_chosen _ _ _ _ _ _ Hsel) as (Hk & Hsub & Hnd & HlX & Hly).
  apply select_hard_samples_Ok in Hsel as (k & _ & _ & Hidx & _ & HX & Hy).
  apply requested_count_Ok in Hk as (fn & Hfn & Hint).
  apply (int_of_product_floor _ _ _ _ Hlr (Nat2Z.is_nonneg _) Hfn) in Hint as [Hfloor _].
  exists yp, (sel_indexes sel), (sel_chosen sel), fn, (sel_X sel), (sel_y sel).
  simpl. split_and!; try reflexivity; auto.
  - intros i. rewrite Hidx. apply elem_of_hard_samples_indexes.
  - by apply take_rows_Ok.
  - by apply take_rows_Ok.
  - by rewrite HlX.
  - intros i Hi. apply elem_of_hard_samples_indexes. rewrite <- Hidx.
    eapply elem_of_submseteq; eauto.
Qed.

(* --------------------------------------------------------------------- *)
(** ** The loop                                                           *)
(* --------------------------------------------------------------------- *)

(** The loop, unfolded once. *)
Lemma training_loop_eq (st : state) :
  training_loop st =
  if loop_cond st then
    match outcome (epoch st) with
    | Ok (Continue st') => after (trace (epoch st)) (training_loop st')
    | Ok (Break st') => Run (trace (epoch st)) (Ok st')
    | Raise e => Run (trace (epoch st)) (Raise e)
    end
  else mret st.
Proof.
  funelim (training_loop st);
    try match goal with H : loop_cond st = _ |- _ => rewrite H end;
    try match goal with H : outcome (epoch st) = _ |- _ => rewrite H end;
    reflexivity.
Qed.

(** [iterations n st st']: from [st], [n] iterations in a row pass the loop
    test, do not converge and reach their last line, leaving [st']. *)
Inductive iterations : nat → state → state → Prop :=
  | iterations_O st : iterations 0 st st
  | iterations_S n st st' st'' :
      loop_cond st = true →
      outcome (epoch st) = Ok (Continue st') →
      iterations n st' st'' →
      iterations (S n) st st''.

(** How the loop is left from the state [st] of its last test. *)
Inductive loop_end (st : state) : result state → Prop :=
  | loop_end_test : loop_cond st = false → loop_end st (Ok st)
  | loop_end_break st' :
      loop_cond st = true → outcome (epoch st) = Ok (Break st') →
      loop_end st (Ok st')
  | loop_end_raise e :
      loop_cond st = true → outcome (epoch st) = Raise e →
      loop_end st (Raise e).

Definition is_banner (ev : event) : bool :=
  match ev with EvEpoch _ => true | _ => false end.

(** The events an iteration may perform after its banner: projections by
    the model in [pca] of the training or the evaluation set, a fit, a
    prediction. *)
Definition in_epoch_event (st : state) (ev : event) : Prop :=
  match ev with
  | EvPcaTransform m Xm => m = pca st ∧ (Xm = X_train st ∨ Xm = X_test st)
  | EvClfFit _ _ | EvPredict _ _ => True
  | EvPcaFit _ _ | EvEpoch _ | EvDump _ _ => False
  end.

Lemma epoch_trace (st : state) :
  ∃ rest, trace (epoch st) = EvEpoch (current_epoch st) :: rest
          ∧ Forall (in_epoch_event st) rest.
Proof.
  unfold epoch, mbind, M_bind, mret, M_ret, call, lift, emit. simpl.
  destruct (pca_transform (pca st) (X_train st)) as [X_train_pca|]; simpl;
    [|eexists; split; [reflexivity|repeat (apply List.Forall_cons; [simpl; auto|]); apply List.Forall_nil]].
  destruct (pca_transform (pca st) (X_test st)) as [X_test_pca|]; simpl;
    [|eexists; split; [reflexivity|repeat (apply List.Forall_cons; [simpl; auto|]); apply List.Forall_nil]].
  destruct (clf_fit X_train_pca (y_train st)) as [c|]; simpl;
    [|eexists; split; [reflexivity|repeat (apply List.Forall_cons; [simpl; auto|]); apply List.Forall_nil]].
  destruct (clf_predict c X_test_pca) as [yp|]; simpl;
    [|eexists; split; [reflexivity|repeat (apply List.Forall_cons; [simpl; auto|]); apply List.Forall_nil]].
  destruct (precision_recall_fscore_support (y_test st) yp) as [prf|]; simpl;
    [|eexists; split; [reflexivity|repeat (apply List.Forall_cons; [simpl; auto|]); apply List.Forall_nil]].
  destruct (classification_report (y_test st) yp target_names); simpl;
    [|eexists; split; [reflexivity|repeat (apply List.Forall_cons; [simpl; auto|]); apply List.Forall_nil]].
  destruct (confusion_matrix (y_test st) yp _); simpl;
    [|eexists; split; [reflexivity|repeat (apply List.Forall_cons; [simpl; auto|]); apply List.Forall_nil]].
  destruct (convergence_check prf.1.1 prf.1.2 (convergence_threshold opts)); simpl;
    [eexists; split; [reflexivity|repeat (apply List.Forall_cons; [simpl; auto|]); apply List.Forall_nil]|].
  destruct (select_hard_samples (learning_rate opts) (X_test st) (y_test st)
              yp (rng st)); simpl;
    eexists; (split; [reflexivity|repeat (apply List.Forall_cons; [simpl; auto|]); apply List.Forall_nil]).
Qed.

Lemma epoch_one_banner (st : state) :
  length (filter (λ ev, is_banner ev = true) (trace (epoch st))) = 1.
Proof.
  destruct (epoch_trace st) as (rest & -> & Hrest).
  rewrite filter_cons_True by reflexivity. simpl. f_equal.
  apply length_zero_iff_nil.
  induction Hrest as [|ev rest Hev _ IH]; [reflexivity|].
  rewrite filter_cons_False; [exact IH|].
  destruct ev; simpl in *; try discriminate; contradiction.
Qed.

Lemma loop_cond_true (st : state) :
  loop_cond st = true ↔ (current_epoch st < max_epochs opts)%Z ∧ converged st = false.
Proof.
  unfold loop_cond. rewrite andb_true_iff, Z.ltb_lt, negb_true_iff. reflexivity.
Qed.

Lemma iterations_counter (n : nat) (st st' : state) :
  iterations n st st' → current_epoch st' = (current_epoch st + Z.of_nat n)%Z.
Proof.
  induction 1 as [st|n st st' st'' Hc He _ IH]; [lia|].
  apply epoch_Continue_counter in He. lia.
Qed.

Lemma iterations_bound (n : nat) (st st' : state) :
  iterations n st st' → n ≤ Z.to_nat (max_epochs opts - current_epoch st).
Proof.
  induction 1 as [st|n st st' st'' Hc He _ IH]; [lia|].
  apply epoch_Continue_counter in He. apply loop_cond_true in Hc as [Hc _]. lia.
Qed.

(** The loop function follows the iterations: it runs some of them and
    leaves at the test, at a [break] or on an exception; it prints one
    banner per iteration entered. *)
Lemma training_loop_run (st : state) :
  ∃ n st_last,
    iterations n st st_last
    ∧ loop_end st_last (outcome (training_loop st))
    ∧ length (filter (λ ev, is_banner ev = true) (trace (training_loop st)))
      = n + (if loop_cond st_last then 1 else 0).
Proof.
  remember (Z.to_nat (max_epochs opts - current_epoch st)) as m eqn:Hm.
  revert st Hm. induction m as [m IH] using lt_wf_ind. intros st Hm.
  rewrite training_loop_eq. destruct (loop_cond st) eqn:Hc.
  - destruct (outcome (epoch st)) as [[st'|st']|e] eqn:He.
    + pose proof (epoch_Continue_counter _ _ He) as Hcnt.
      pose proof Hc as [Hlt _]%loop_cond_true.
      destruct (IH (Z.to_nat (max_epochs opts - current_epoch st')))
        with (st := st') as (n & st_last & Hit & Hend & Hban); [lia|reflexivity|].
      exists (S n), st_last. split_and!.
      * econstructor; eauto.
      * exact Hend.
      * change (trace (after (trace (epoch st)) (training_loop st')))
          with (trace (epoch st) ++ trace (training_loop st')).
        rewrite filter_app, length_app, epoch_one_banner, Hban. lia.
    + exists 0, st. split_and!; [constructor|by econstructor|].
      rewrite Hc. apply epoch_one_banner.
    + exists 0, st. split_and!; [constructor|by econstructor|].
      rewrite Hc. apply epoch_one_banner.
  - exists 0, st. split_and!; [constructor|by constructor|]. by rewrite Hc.
Qed.

(** C3. The epoch loop ends after at most [max_epochs] non-converged
    iterations. An iteration that does not raise either leaves the loop at
    the [break] or increments the counter by one; the loop test fails once
    the counter has reached [max_epochs]; so from a counter at 0 no run has
    more than [max_epochs] iterations in a row that do not converge, and
    the loop function, which is total, leaves after at most that many
    banners, at the test, at the [break] or on an exception. *)
Theorem epoch_loop_terminates (st : state) :
  (∀ s, outcome (epoch st) = Ok s →
     (∃ st', s = Break st')
     ∨ (∃ st', s = Continue st' ∧ current_epoch st' = (current_epoch st + 1)%Z))
  ∧ ((max_epochs opts ≤ current_epoch st)%Z → loop_cond st = false)
  ∧ (∀ n st', iterations n st st' →
       (Z.of_nat n ≤ Z.max 0 (max_epochs opts - current_epoch st))%Z)
  ∧ (∃ n st_last,
       iterations n st st_last
       ∧ loop_end st_last (outcome (training_loop st))
       ∧ (Z.of_nat n ≤ Z.max 0 (max_epochs opts - current_epoch st))%Z
       ∧ (Z.of_nat (length (filter (λ ev, is_banner ev = true)
                                   (trace (training_loop st))))
          ≤ Z.max 0 (max_epochs opts - current_epoch st))%Z).
Proof.
  split_and!.
  - intros [st'|st'] Hs; [right|left]; eauto using epoch_Continue_counter.
  - intros Hge. unfold loop_cond. apply andb_false_iff. left.
    apply Z.ltb_ge. exact Hge.
  - intros n st' Hit%iterations_bound. lia.
  - destruct (training_loop_run st) as (n & st_last & Hit & Hend & Hban).
    exists n, st_last. pose proof (iterations_bound _ _ _ Hit) as Hn.
    split_and!; [exact Hit|exact Hend|lia|].
    rewrite Hban. destruct (loop_cond st_last) eqn:Hc; [|lia].
    apply loop_cond_true in Hc as [Hc _].
    apply iterations_counter in Hit. lia.
Qed.

(* --------------------------------------------------------------------- *)
(** ** What an iteration leaves alone                                     *)
(* --------------------------------------------------------------------- *)

Definition state_of (s : step) : state :=
  match s with Continue st | Break st => st end.

(** The variables no line of the loop assigns. *)
Definition same_data (st st' : state) : Prop :=
  X st' = X st ∧ y st' = y st
  ∧ X_test st' = X_test st ∧ y_test st' = y_test st
  ∧ pca st' = pca st ∧ converged st' = converged st.

Lemma epoch_frame (st : state) (s : step) :
  outcome (epoch st) = Ok s → same_data st (state_of s).
Proof.
  intros H. destruct (epoch st) as [t o] eqn:He. simpl in H. subst o.
  apply epoch_Ok in He as (?&?&c&yp&prf&_&_&_&_&_&_&[[_ ->]|[_ (sel&_&->)]]);
    repeat split.
Qed.

Lemma iterations_frame (n : nat) (st st' : state) :
  iterations n st st' → same_data st st'.
Proof.
  induction 1 as [st|n st st' st'' _ He _ IH]; [repeat split|].
  apply epoch_frame in He. unfold same_data in *. simpl in He.
  destruct He as (?&?&?&?&?&?), IH as (?&?&?&?&?&?). split_and!; congruence.
Qed.

(** The training set after an iteration: the old one followed by the rows
    at the chosen indices. *)
Lemma epoch_train_set (st : state) (s : step) :
  outcome (epoch st) = Ok s →
  match s with
  | Break st' => X_train st' = X_train st ∧ y_train st' = y_train st
  | Continue st' =>
      ∃ chosen X_hard y_hard,
        hard_samples_chosen st' = Some chosen
        ∧ X_train st' = X_train st ++ X_hard
        ∧ y_train st' = y_train st ++ y_hard
        ∧ length X_hard = length chosen
        ∧ length y_hard = length chosen
  end.
Proof.
  intros H. destruct (epoch st) as [t o] eqn:He. simpl in H. subst o.
  apply epoch_Ok in He as (?&?&c&yp&prf&_&_&_&_&_&_&[[_ ->]|[_ (sel&Hsel&->)]]).
  - split; reflexivity.
  - apply selection_chosen in Hsel as (_ & _ & _ & HX & Hy).
    exists (sel_chosen sel), (sel_X sel), (sel_y sel). simpl. auto.
Qed.

Definition aligned (st : state) : Prop :=
  length (X_train st) = length (y_train st)
  ∧ length (X_test st) = length (y_test st).

Lemma epoch_aligned (st : state) (s : step) :
  outcome (epoch st) = Ok s → aligned st → aligned (state_of s).
Proof.
  intros He [Htrain Htest].
  pose proof (epoch_frame _ _ He) as (_&_&HXt&Hyt&_&_).
  apply epoch_train_set in He. unfold aligned. rewrite HXt, Hyt.
  destruct s as [st'|st']; simpl in *.
  - destruct He as (chosen & X_hard & y_hard & _ & -> & -> & HX & Hy).
    rewrite !length_app. split; [lia|exact Htest].
  - destruct He as [-> ->]. auto.
Qed.

Lemma iterations_aligned (n : nat) (st st' : state) :
  iterations n st st' → aligned st → aligned st'.
Proof.
  induction 1 as [st|n st st' st'' _ He _ IH]; [auto|].
  intros Hal. apply IH. exact (epoch_aligned _ _ He Hal).
Qed.

(* --------------------------------------------------------------------- *)
(** ** Before the loop                                                    *)
(* --------------------------------------------------------------------- *)

Lemma mapM_result_length {A B} (f : A → result B) (l : list A) (k : list B) :
  mapM f l = Ok k → length k = length l.
Proof.
  revert k. induction l as [|a l IH]; intros k; simpl.
  - intros [= <-]. reflexivity.
  - unfold mbind, result_bind, mret, result_ret.
    destruct (f a); [|discriminate]. destruct (mapM f l); [|discriminate].
    intros [= <-]. simpl. f_equal. by apply IH.
Qed.

Lemma build_X_length (fd : list feature_record) (fc : Z) (X0 : matrix) :
  build_X fd fc = Ok X0 → length X0 = length fd.
Proof.
  unfold build_X. destruct (fc <? 0)%Z; [discriminate|]. apply mapM_result_length.
Qed.

(** What an initialisation that does not raise went through. *)
Lemma initialise_Ok (fd : list feature_record) (fc : Z) (rng0 : tape)
    (t0 : list event) (st0 : state) :
  initialise fd fc rng0 = Run t0 (Ok st0) →
  ∃ train,
    build_X fd fc = Ok (X st0)
    ∧ y st0 = build_y fd
    ∧ assemble_initial_train_set (X st0) (y st0) (initial_train_size opts) rng0
      = Ok train
    ∧ PCA_fit (pca_components_total opts) (X st0) = Ok (pca st0)
    ∧ t0 = [EvPcaFit (pca_components_total opts) (X st0)]
    ∧ X_test st0 = X st0 ∧ y_test st0 = y st0
    ∧ X_train st0 = train.1.1 ∧ y_train st0 = train.1.2
    ∧ converged st0 = false ∧ current_epoch st0 = 0%Z ∧ clf st0 = None.
Proof.
  unfold initialise, mbind, M_bind, mret, M_ret, call, lift. simpl.
  destruct (build_X fd fc) as [X0|] eqn:HX; simpl; [|discriminate].
  destruct (assemble_initial_train_set X0 _ _ _) as [train|] eqn:Ha; simpl;
    [|discriminate].
  destruct (PCA_fit _ X0) as [pca0|] eqn:Hp; simpl; [|discriminate].
  intros [= <- <-]. exists train. simpl. split_and!; auto.
Qed.

(** The assumption on [lss_data.assemble_initial_train_set]: it returns as
    many labels as rows. *)
Definition aligned_assembler : Prop :=
  ∀ Xf yf n r Xt yt r',
    assemble_initial_train_set Xf yf n r = Ok (Xt, yt, r') →
    length Xt = length yt.

(** C4. At every epoch of a run, the training rows and labels have the
    same length and so have the evaluation rows and labels; the evaluation
    set is the full feature matrix and label vector assembled from the
    feature dataset, and it is the same at every epoch, at the start of the
    iteration and after it. The initial training set comes from
    [lss_data.assemble_initial_train_set], assumed to return aligned
    arrays. *)
Theorem evaluation_set_fixed (fd : list feature_record) (fc : Z) (rng0 : tape)
    (t0 : list event) (st0 : state) (n : nat) (st : state) :
  aligned_assembler →
  initialise fd fc rng0 = Run t0 (Ok st0) →
  iterations n st0 st →
  (length (X_train st) = length (y_train st)
   ∧ length (X_test st) = length (y_test st))
  ∧ (X_test st = X st ∧ y_test st = y st)
  ∧ (build_X fd fc = Ok (X st) ∧ y st = build_y fd)
  ∧ (X_test st = X_test st0 ∧ y_test st = y_test st0)
  ∧ (∀ s, outcome (epoch st) = Ok s →
       length (X_train (state_of s)) = length (y_train (state_of s))
       ∧ X_test (state_of s) = X_test st0
       ∧ y_test (state_of s) = y_test st0).
Proof.
  intros Hasm Hinit Hit.
  apply initialise_Ok in Hinit
    as (train & HX & Hy & Htrain & _ & _ & HXt & Hyt & HXtr & Hytr & _).
  assert (Hal0 : aligned st0).
  { split.
    - destruct train as [[Xt yt] r']. rewrite HXtr, Hytr. simpl. eapply Hasm, Htrain.
    - rewrite HXt, Hyt, Hy. unfold build_y. rewrite length_fmap.
      by apply build_X_length in HX. }
  pose proof (iterations_aligned _ _ _ Hit Hal0) as Hal.
  pose proof (iterations_frame _ _ _ Hit) as (HX' & Hy' & HXt' & Hyt' & _ & _).
  split_and!; try apply Hal; try congruence.
  intros s Hs. pose proof (epoch_aligned _ _ Hs Hal) as [Hal' _].
  pose proof (epoch_frame _ _ Hs) as (_ & _ & HXs & Hys & _ & _).
  split_and!; congruence.
Qed.

(** The training set after [n] iterations extends the one before. *)
Lemma iterations_train_set (n : nat) (st st' : state) :
  iterations n st st' →
  X_train st `prefix_of` X_train st' ∧ y_train st `prefix_of` y_train st'.
Proof.
  induction 1 as [st|n st st' st'' _ He _ [IHX IHy]]; [split; reflexivity|].
  apply epoch_train_set in He as (chosen & X_hard & y_hard & _ & HX & Hy & _).
  split; (etrans; [|eassumption]).
  - rewrite HX. by apply prefix_app_r.
  - rewrite Hy. by apply prefix_app_r.
Qed.

(** C5. The training set never shrinks. An iteration that reaches its last
    line appends as many rows and labels as it chose hard samples: the
    length is strictly greater when at least one sample was chosen and the
    set is unchanged when none was; the [break] leaves the set as it is;
    over any number of iterations the earlier training set is a prefix of
    the later one, so its length does not decrease. *)
Theorem training_set_growth (st : state) :
  (∀ st', outcome (epoch st) = Ok (Continue st') →
     ∃ chosen,
       hard_samples_chosen st' = Some chosen
       ∧ length (X_train st') = length (X_train st) + length chosen
       ∧ length (y_train st') = length (y_train st) + length chosen
       ∧ length (X_train st) ≤ length (X_train st')
       ∧ (chosen ≠ [] → length (X_train st) < length (X_train st'))
       ∧ (chosen = [] → X_train st' = X_train st ∧ y_train st' = y_train st))
  ∧ (∀ st', outcome (epoch st) = Ok (Break st') →
       X_train st' = X_train st ∧ y_train st' = y_train st)
  ∧ (∀ n st', iterations n st st' →
       X_train st `prefix_of` X_train st'
       ∧ length (X_train st) ≤ length (X_train st')
       ∧ length (y_train st) ≤ length (y_train st')).
Proof.
  split_and!.
  - intros st' He.
    apply epoch_train_set in He as (chosen & X_hard & y_hard & Hch & -> & -> & HX & Hy).
    exists chosen. rewrite !length_app, HX, Hy. split_and!; auto; try lia.
    + intros Hne. destruct chosen; [done|simpl; lia].
    + intros ->. destruct X_hard, y_hard; try discriminate.
      by rewrite !app_nil_r.
  - intros st' He. by apply epoch_train_set in He.
  - intros n st' [HX Hy]%iterations_train_set.
    split_and!; [exact HX|by apply prefix_length..].
Qed.

(* --------------------------------------------------------------------- *)
(** ** The projection and the model file                                  *)
(* --------------------------------------------------------------------- *)

Lemma bind_Ok {A B} (m : M A) (f : A → M B) (t : list event) (a : A) :
  m = Run t (Ok a) → m ≫= f = after t (f a).
Proof. intros ->. reflexivity. Qed.

Lemma bind_Raise {A B} (m : M A) (f : A → M B) (t : list event) (e : exn) :
  m = Run t (Raise e) → m ≫= f = Run t (Raise e).
Proof. intros ->. reflexivity. Qed.

Lemma bind_trace {A B} (m : M A) (f : A → M B) (P : event → Prop) :
  Forall P (trace m) →
  (∀ a, outcome m = Ok a → Forall P (trace (f a))) →
  Forall P (trace (m ≫= f)).
Proof.
  destruct m as [t [a|e]]; simpl; intros Ht Hf; unfold mbind, M_bind; simpl.
  - apply Forall_app. auto.
  - exact Ht.
Qed.

(** An event that is no fit of the projection, and that projects, if it
    does, with the model [m]. *)
Definition uses_model (m : pca_model) (ev : event) : Prop :=
  match ev with
  | EvPcaFit _ _ => False
  | EvPcaTransform m' _ => m' = m
  | _ => True
  end.

(** An event of the loop: as above, and no model file either. *)
Definition loop_event (m : pca_model) (ev : event) : Prop :=
  match ev with
  | EvPcaFit _ _ | EvDump _ _ => False
  | EvPcaTransform m' _ => m' = m
  | _ => True
  end.

Lemma epoch_loop_events (st : state) : Forall (loop_event (pca st)) (trace (epoch st)).
Proof.
  destruct (epoch_trace st) as (rest & -> & Hrest).
  constructor; [exact I|]. eapply Forall_impl; [exact Hrest|].
  intros [] H; simpl in *; tauto.
Qed.

Lemma training_loop_events (st : state) :
  Forall (loop_event (pca st)) (trace (training_loop st)).
Proof.
  remember (Z.to_nat (max_epochs opts - current_epoch st)) as m eqn:Hm.
  revert st Hm. induction m as [m IH] using lt_wf_ind. intros st Hm.
  rewrite training_loop_eq. destruct (loop_cond st) eqn:Hc; [|constructor].
  pose proof (epoch_loop_events st) as Hev.
  destruct (outcome (epoch st)) as [[st'|st']|e] eqn:He; try exact Hev.
  pose proof (epoch_Continue_counter _ _ He) as Hcnt.
  pose proof Hc as [Hlt _]%loop_cond_true.
  pose proof (epoch_frame _ _ He) as (_&_&_&_&Hpca&_). simpl in Hpca.
  change (trace (after (trace (epoch st)) (training_loop st')))
    with (trace (epoch st) ++ trace (training_loop st')).
  apply Forall_app_2; [exact Hev|].
  rewrite <- Hpca. eapply IH; [|reflexivity]. lia.
Qed.

Lemma training_loop_frame (st st' : state) :
  outcome (training_loop st) = Ok st' → same_data st st'.
Proof.
  destruct (training_loop_run st) as (n & st_last & Hit & Hend & _).
  intros Hout. rewrite Hout in Hend. apply iterations_frame in Hit.
  inversion Hend as [Hc|st'' Hc He|]; subst.
  - exact Hit.
  - apply epoch_frame in He. unfold same_data in *. simpl in He.
    destruct He as (?&?&?&?&?&?), Hit as (?&?&?&?&?&?). split_and!; congruence.
Qed.

Lemma final_report_events (st : state) :
  Forall (uses_model (pca st)) (trace (final_report st)).
Proof.
  unfold final_report, mbind, M_bind, mret, M_ret, call, lift, emit. simpl.
  destruct (pca_transform (pca st) (X st)); simpl; [|repeat constructor].
  destruct (read_clf st) as [c|]; simpl; [|repeat constructor].
  destruct (clf_predict c _) as [yp|]; simpl; [|repeat constructor].
  destruct (classification_report _ _ _); simpl; [|repeat constructor].
  destruct (confusion_matrix _ _ _); simpl; [|repeat constructor].
  destruct import_joblib; simpl; [|repeat constructor].
  destruct (joblib_dump _ _); simpl; repeat constructor.
Qed.

Lemma loop_event_uses_model (m : pca_model) (ev : event) :
  loop_event m ev → uses_model m ev.
Proof. destruct ev; simpl; tauto. Qed.

(** C6. The projection is fit exactly once per run, on the full feature
    matrix and before the loop: the fit is the first event of a run that
    gets through its initialisation, and no later event is a fit; every
    projection of the run, in the loop and in the final report, applies the
    model of that one fit; the variable [pca] holds it at every epoch, and
    an epoch projects with it the training set and the evaluation set and
    nothing else. *)
Theorem projection_fit_once (fd : list feature_record) (fc : Z) (rng0 : tape)
    (t0 : list event) (st0 : state) :
  initialise fd fc rng0 = Run t0 (Ok st0) →
  (build_X fd fc = Ok (X st0)
   ∧ PCA_fit (pca_components_total opts) (X st0) = Ok (pca st0))
  ∧ (∃ rest,
       trace (main fd fc rng0)
         = EvPcaFit (pca_components_total opts) (X st0) :: rest
       ∧ Forall (uses_model (pca st0)) rest)
  ∧ (∀ n st, iterations n st0 st →
       pca st = pca st0
       ∧ (∃ rest, trace (epoch st) = EvEpoch (current_epoch st) :: rest
                  ∧ Forall (in_epoch_event st) rest)
       ∧ (∀ s, outcome (epoch st) = Ok s →
            ∃ X_train_pca X_test_pca c,
              pca_transform (pca st0) (X_train st) = Ok X_train_pca
              ∧ pca_transform (pca st0) (X_test st) = Ok X_test_pca
              ∧ trace (epoch st) = epoch_events st X_train_pca X_test_pca c)).
Proof.
  intros Hinit.
  pose proof (initialise_Ok _ _ _ _ _ Hinit) as (train & HX & _ & _ & Hfit & Ht0 & _).
  split_and!; auto.
  - unfold main. rewrite (bind_Ok _ _ _ _ Hinit). subst t0.
    eexists. split; [reflexivity|].
    apply bind_trace.
    + eapply Forall_impl; [apply training_loop_events|].
      apply loop_event_uses_model.
    + intros st Hst. apply training_loop_frame in Hst as (_&_&_&_&Hpca&_).
      rewrite <- Hpca. apply final_report_events.
  - intros n st Hit. pose proof (iterations_frame _ _ _ Hit) as (_&_&_&_&Hpca&_).
    split_and!; [exact Hpca|apply epoch_trace|].
    intros s Hs. destruct (epoch st) as [t o] eqn:He. simpl in Hs. subst o.
    apply epoch_Ok in He as (Xtr&Xte&c&yp&prf&H1&H2&_&_&_&Ht&_).
    exists Xtr, Xte, c. rewrite <- Hpca. auto.
Qed.

(** C9. With [max_epochs <= 0] the loop body never runs: the run prints no
    epoch banner, fits no classifier, predicts nothing and writes no model
    file, and it ends on an exception; when the initialisation and the
    final projection go through, the loop returns at once, [clf] is still
    unbound and the exception is the [NameError] of reading it in the final
    report. *)
Theorem no_epoch_no_model (fd : list feature_record) (fc : Z) (rng0 : tape) :
  (max_epochs opts ≤ 0)%Z →
  (∃ e, outcome (main fd fc rng0) = Raise e)
  ∧ Forall (λ ev, match ev with
                  | EvEpoch _ | EvClfFit _ _ | EvPredict _ _ | EvDump _ _ => False
                  | EvPcaFit _ _ | EvPcaTransform _ _ => True
                  end) (trace (main fd fc rng0))
  ∧ (∀ t0 st0, initialise fd fc rng0 = Run t0 (Ok st0) →
       training_loop st0 = Run [] (Ok st0)
       ∧ clf st0 = None
       ∧ (∀ X_pca, pca_transform (pca st0) (X st0) = Ok X_pca →
            outcome (main fd fc rng0) = Raise (NameError "clf"))).
Proof.
  intros Hmax.
  assert (Hloop : ∀ t0 st0, initialise fd fc rng0 = Run t0 (Ok st0) →
            training_loop st0 = Run [] (Ok st0) ∧ clf st0 = None).
  { intros t0 st0 Hinit.
    apply initialise_Ok in Hinit as (_&_&_&_&_&_&_&_&_&_&_&Hep&Hclf).
    split; [|exact Hclf]. rewrite training_loop_eq.
    replace (loop_cond st0) with false; [reflexivity|].
    symmetry. unfold loop_cond. apply andb_false_iff. left. apply Z.ltb_ge. lia. }
  assert (Hfinal : ∀ st0, clf st0 = None →
            (∃ e, outcome (final_report st0) = Raise e)
            ∧ (∀ X_pca, pca_transform (pca st0) (X st0) = Ok X_pca →
                 outcome (final_report st0) = Raise (NameError "clf"))
            ∧ trace (final_report st0) = [EvPcaTransform (pca st0) (X st0)]).
  { intros st0 Hclf.
    unfold final_report, read_clf, mbind, M_bind, call, lift. simpl.
    rewrite Hclf. destruct (pca_transform (pca st0) (X st0)); simpl.
    - split_and!; eauto.
    - split_and!; eauto. discriminate. }
  destruct (initialise fd fc rng0) as [t0 [st0|e]] eqn:Hinit.
  - destruct (Hloop _ _ eq_refl) as [Hl Hclf].
    destruct (Hfinal st0 Hclf) as (Hraise & Hname & Htr).
    assert (Hmain : main fd fc rng0 = after t0 (final_report st0)).
    { unfold main. rewrite (bind_Ok _ _ _ _ Hinit), (bind_Ok _ _ _ _ Hl).
      reflexivity. }
    rewrite Hmain. split_and!.
    + exact Hraise.
    + apply initialise_Ok in Hinit as (_&_&_&_&_&->&_).
      simpl. rewrite Htr. repeat constructor.
    + intros t0' st0' [= <- <-]. auto.
  - assert (Hmain : main fd fc rng0 = Run t0 (Raise e)).
    { unfold main. by rewrite (bind_Raise _ _ _ _ Hinit). }
    rewrite Hmain. split_and!; [eauto| |discriminate].
    simpl. revert Hinit.
    unfold initialise, mbind, M_bind, mret, M_ret, call, lift. simpl.
    destruct (build_X fd fc) as [X0|]; simpl; [|intros [= <- _]; constructor].
    destruct (assemble_initial_train_set X0 _ _ _); simpl;
      [|intros [= <- _]; constructor].
    destruct (PCA_fit _ X0); simpl; [discriminate|].
    intros [= <- _]. repeat constructor.
Qed.

(* --------------------------------------------------------------------- *)
(** ** Selection from a small or empty pool                               *)
(* --------------------------------------------------------------------- *)

(** With no disagreement the requested count, if it is computed at all,
    is 0. *)
Lemma requested_count_empty (lr : float) (k : Z) :
  requested_count lr 0 = Ok k → k = 0%Z.
Proof.
  intros (fn & Hfn & Hk)%requested_count_Ok.
  injection Hfn as <-.
  destruct lr as [s|s| |s m e]; simpl in Hk; congruence.
Qed.

(** A count within the pool is served. *)
Lemma select_hard_samples_in_pool (lr : float) (Xt : matrix) (yt yp : labels)
    (r : tape) (k : Z) :
  length Xt = length yt →
  requested_count lr (length (hard_samples_indexes_of yt yp)) = Ok k →
  (0 ≤ k ≤ Z.of_nat (length (hard_samples_indexes_of yt yp)))%Z →
  ∃ sel, select_hard_samples lr Xt yt yp r = Ok sel
         ∧ sel_chosen sel = (draw r (hard_samples_indexes_of yt yp) (Z.to_nat k)).1
         ∧ length (sel_chosen sel) = Z.to_nat k.
Proof.
  intros Hlen Hk [H0 Hn].
  set (idx := hard_samples_indexes_of yt yp) in *.
  set (chosen := (draw r idx (Z.to_nat k)).1).
  assert (Hin : ∀ i, i ∈ chosen → i < length yt).
  { intros i Hi. apply (hard_samples_indexes_lt yt yp).
    eapply elem_of_submseteq; [exact Hi|apply draw_submseteq]. }
  destruct (take_rows_in_range Xt chosen) as [Xh HXh]; [rewrite Hlen; exact Hin|].
  destruct (take_rows_in_range yt chosen) as [yh Hyh]; [exact Hin|].
  eexists. unfold select_hard_samples, random_sample. fold idx. rewrite Hk. simpl.
  replace ((0 <=? k)%Z && (k <=? Z.of_nat (length idx))%Z) with true
    by (symmetry; apply andb_true_iff; split; apply Z.leb_le; lia).
  simpl. fold chosen. rewrite HXh. simpl. rewrite Hyh. simpl.
  split_and!; [reflexivity|reflexivity|].
  simpl. apply draw_length. lia.
Qed.

(** A count outside the pool makes [random.sample] raise. *)
Lemma select_hard_samples_out_of_pool (lr : float) (Xt : matrix)
    (yt yp : labels) (r : tape) (k : Z) :
  requested_count lr (length (hard_samples_indexes_of yt yp)) = Ok k →
  (k < 0 ∨ Z.of_nat (length (hard_samples_indexes_of yt yp)) < k)%Z →
  select_hard_samples lr Xt yt yp r = Raise ValueError.
Proof.
  intros Hk Hout. unfold select_hard_samples, random_sample. rewrite Hk. simpl.
  replace ((0 <=? k)%Z && _) with false; [reflexivity|].
  symmetry. apply andb_false_iff. rewrite !Z.leb_gt. lia.
Qed.

(** With no disagreement the count is [int(learning_rate * 0.0)]: 0 for a
    finite rate, and a [ValueError] for an infinite one or a NaN, whose
    product with 0.0 is a NaN. *)
Lemma requested_count_zero (lr : float) :
  requested_count lr 0
  = if is_finite lr then Ok 0%Z else Raise ValueError.
Proof. by destruct lr as [s|s| |s m e]. Qed.

(** The selection completes exactly when the count is computed and lies
    within the pool. *)
Lemma select_hard_samples_is_Ok (lr : float) (Xt : matrix) (yt yp : labels)
    (r : tape) :
  length Xt = length yt →
  (∃ sel, select_hard_samples lr Xt yt yp r = Ok sel) ↔
  ∃ k, requested_count lr (length (hard_samples_indexes_of yt yp)) = Ok k
       ∧ (0 ≤ k ≤ Z.of_nat (length (hard_samples_indexes_of yt yp)))%Z.
Proof.
  intros Hlen. split.
  - intros [sel Hsel].
    destruct (requested_count lr (length (hard_samples_indexes_of yt yp)))
      as [k|e] eqn:Hk.
    + exists k. split; [reflexivity|].
      destruct (decide (0 ≤ k ≤ Z.of_nat (length (hard_samples_indexes_of yt yp)))%Z)
        as [?|Hout]; [done|].
      rewrite (select_hard_samples_out_of_pool lr Xt yt yp r k Hk) in Hsel
        by lia. discriminate.
    + unfold select_hard_samples in Hsel. rewrite Hk in Hsel. discriminate.
  - intros (k & Hk & Hrange).
    destruct (select_hard_samples_in_pool lr Xt yt yp r k Hlen Hk Hrange)
      as (sel & Hsel & _). eauto.
Qed.

(** C7, as the code has it. The selection step has no guard of its own:
    it completes exactly when [int(learning_rate * n)] is computed and
    lies between 0 and the number [n] of disagreements. With an empty
    disagreement set and a finite learning rate the count is 0, nothing is
    selected, no row is added and the generator is left as it was; with an
    infinite rate or a NaN the count itself raises [ValueError]. With a
    count equal to the number of disagreements every disagreement is
    selected, and any count within the pool is served with that many
    distinct disagreements. When the count exceeds the number of
    disagreements, or is negative, [random.sample] raises [ValueError]. *)
Theorem selection_within_pool (Xt : matrix) (yt : labels) :
  length Xt = length yt →
  ∀ (lr : float) (yp : labels) (r : tape),
    ((∃ sel, select_hard_samples lr Xt yt yp r = Ok sel) ↔
     ∃ k, requested_count lr (length (hard_samples_indexes_of yt yp)) = Ok k
          ∧ (0 ≤ k ≤ Z.of_nat (length (hard_samples_indexes_of yt yp)))%Z)
    ∧ (hard_samples_indexes_of yt yp = [] →
       if is_finite lr
       then select_hard_samples lr Xt yt yp r
            = Ok {| sel_indexes := []; sel_chosen := []; sel_X := [];
                    sel_y := []; sel_rng := r |}
       else select_hard_samples lr Xt yt yp r = Raise ValueError)
    ∧ (∀ k, requested_count lr (length (hard_samples_indexes_of yt yp)) = Ok k →
         (k = Z.of_nat (length (hard_samples_indexes_of yt yp)) →
          ∃ sel, select_hard_samples lr Xt yt yp r = Ok sel
                 ∧ sel_chosen sel ≡ₚ hard_samples_indexes_of yt yp)
         ∧ ((0 ≤ k ≤ Z.of_nat (length (hard_samples_indexes_of yt yp)))%Z →
            ∃ sel, select_hard_samples lr Xt yt yp r = Ok sel
                   ∧ Z.of_nat (length (sel_chosen sel)) = k
                   ∧ NoDup (sel_chosen sel)
                   ∧ sel_chosen sel ⊆+ hard_samples_indexes_of yt yp)
         ∧ ((Z.of_nat (length (hard_samples_indexes_of yt yp)) < k ∨ k < 0)%Z →
            select_hard_samples lr Xt yt yp r = Raise ValueError)).
Proof.
  intros Hlen lr yp r. split_and!.
  - by apply select_hard_samples_is_Ok.
  - intros Hnil. unfold select_hard_samples, random_sample. rewrite Hnil.
    cbn [length]. rewrite requested_count_zero.
    by destruct (is_finite lr).
  - intros k Hk. split_and!.
    + intros Heq.
      destruct (select_hard_samples_in_pool lr Xt yt yp r k Hlen Hk)
        as (sel & Hsel & Hch & Hl); [lia|].
      exists sel. split; [exact Hsel|].
      apply submseteq_length_Permutation; [rewrite Hch; apply draw_submseteq|lia].
    + intros Hrange.
      destruct (select_hard_samples_in_pool lr Xt yt yp r k Hlen Hk Hrange)
        as (sel & Hsel & Hch & Hl).
      assert (Hsub : sel_chosen sel ⊆+ hard_samples_indexes_of yt yp)
        by (rewrite Hch; apply draw_submseteq).
      exists sel. split_and!; [exact Hsel|lia| |exact Hsub].
      eapply NoDup_of_submseteq; [exact Hsub|apply NoDup_hard_samples_indexes].
    + intros Hout.
      apply (select_hard_samples_out_of_pool lr Xt yt yp r k Hk). lia.
Qed.

(* --------------------------------------------------------------------- *)
(** ** Further properties of the script                                   *)
(* --------------------------------------------------------------------- *)

(** *** The feature matrix (lines 113-116) *)

Lemma assign_row_Ok (n : nat) (v : list float) (r : row) :
  assign_row n v = Ok r →
  length r = n ∧ (r = v ∨ ∃ x, v = [x] ∧ r = replicate n x).
Proof.
  unfold assign_row. case_decide as Hlen.
  - intros [= <-]. auto.
  - destruct v as [|x [|? ?]]; try discriminate.
    intros [= <-]. rewrite length_replicate. eauto.
Qed.

Lemma assign_row_is_Ok (n : nat) (v : list float) :
  (∃ r, assign_row n v = Ok r) ↔ length v = n ∨ length v = 1.
Proof.
  unfold assign_row. case_decide as Hlen.
  - split; eauto.
  - destruct v as [|x [|? ?]]; simpl in *; split;
      try (intros [r [=]]); eauto; intros [?|?]; lia.
Qed.

Lemma mapM_result_Ok {A B} (f : A → result B) (l : list A) (k : list B) :
  mapM f l = Ok k ↔ Forall2 (λ a b, f a = Ok b) l k.
Proof.
  revert k. induction l as [|a l IH]; intros k; simpl.
  - split; [intros [= <-]; constructor|intros ->%Forall2_nil_inv_l; reflexivity].
  - unfold mbind, result_bind, mret, result_ret.
    destruct (f a) as [b|e] eqn:Hfa.
    + destruct (mapM f l) as [rest|e] eqn:Hrest.
      * split.
        -- intros [= <-]. constructor; [exact Hfa|]. by apply IH.
        -- intros (b' & k' & Hb & Hk & ->)%Forall2_cons_inv_l.
           apply IH in Hk. congruence.
      * split; [discriminate|].
        intros (b' & k' & Hb & Hk & ->)%Forall2_cons_inv_l.
        apply IH in Hk. discriminate.
    + split; [discriminate|].
      intros (b' & k' & Hb & Hk & ->)%Forall2_cons_inv_l. congruence.
Qed.

(** X1. The feature matrix is assembled exactly when the feature count is not
    negative and every record holds that many features, or a single one;
    it then has one row per record, each of [feature_count] cells: the
    record's features, or its single feature repeated. The only exception
    is [ValueError]. *)
Theorem build_X_shape (fd : list feature_record) (fc : Z) :
  ((∃ X0, build_X fd fc = Ok X0) ↔
   (0 ≤ fc)%Z
   ∧ Forall (λ element, length (features element) = Z.to_nat fc
                        ∨ length (features element) = 1) fd)
  ∧ (∀ X0, build_X fd fc = Ok X0 →
       length X0 = length fd
       ∧ ∀ i r, X0 !! i = Some r →
           length r = Z.to_nat fc
           ∧ ∃ element, fd !! i = Some element
               ∧ (r = features element
                  ∨ ∃ x, features element = [x] ∧ r = replicate (Z.to_nat fc) x))
  ∧ (∀ e, build_X fd fc = Raise e → e = ValueError).
Proof.
  unfold build_X. split_and!.
  - destruct (fc <? 0)%Z eqn:Hfc.
    + apply Z.ltb_lt in Hfc. split; [intros [X0 [=]]|lia].
    + apply Z.ltb_ge in Hfc. split.
      * intros [X0 HX%mapM_result_Ok]. split; [exact Hfc|].
        induction HX as [|element r fd' X' Hr _ IH]; constructor; [|exact IH].
        apply assign_row_is_Ok. eauto.
      * intros [_ Hall]. induction Hall as [|element fd' Hel _ [X' IH]].
        -- exists []. reflexivity.
        -- apply assign_row_is_Ok in Hel as [r Hr]. exists (r :: X').
           apply mapM_result_Ok. constructor; [exact Hr|]. by apply mapM_result_Ok.
  - intros X0. destruct (fc <? 0)%Z; [discriminate|].
    intros HX%mapM_result_Ok. split; [symmetry; by eapply Forall2_length|].
    intros i r Hi.
    destruct (Forall2_lookup_r _ _ _ _ _ HX Hi) as (element & Hel & Hr).
    apply assign_row_Ok in Hr as [Hlen Hr]. eauto.
  - intros e. destruct (fc <? 0)%Z; [by intros [= <-]|].
    induction fd as [|element fd IH]; simpl; [discriminate|].
    unfold mbind, result_bind, mret, result_ret.
    destruct (assign_row _ _) as [r|e'] eqn:Hr.
    + destruct (mapM _ fd) as [rest|e'']; [discriminate|].
      intros [= <-]. by apply IH.
    + intros [= <-]. unfold assign_row in Hr. case_decide; [discriminate|].
      destruct (features element) as [|x [|? ?]]; congruence.
Qed.

(** *** The disagreement indices (line 196) *)

Lemma StronglySorted_seq (j n : nat) : StronglySorted lt (seq j n).
Proof.
  revert j. induction n as [|n IH]; intros j; simpl; constructor; [apply IH|].
  apply Forall_forall. intros x Hx%list_elem_of_In%in_seq. lia.
Qed.

Lemma sublist_StronglySorted {A} (R : relation A) (l1 l2 : list A) :
  l1 `sublist_of` l2 → StronglySorted R l2 → StronglySorted R l1.
Proof.
  induction 1 as [|x l1 l2 Hsub IH|x l1 l2 Hsub IH]; intros Hs.
  - constructor.
  - apply StronglySorted_inv in Hs as [Hs Hx]. constructor; [by apply IH|].
    apply Forall_forall. intros z Hz. rewrite Forall_forall in Hx.
    apply Hx. by eapply elem_of_sublist.
  - apply StronglySorted_inv in Hs as [Hs _]. by apply IH.
Qed.

Lemma hard_samples_indexes_sublist (yt yp : labels) :
  hard_samples_indexes_of yt yp `sublist_of` seq 0 (length (zip yt yp)).
Proof.
  unfold hard_samples_indexes_of, enumerate.
  etrans; [apply fmap_sublist, sublist_filter|].
  by rewrite fmap_imap, (imap_seq_0 _ id), list_fmap_id.
Qed.

(** X2. The disagreement indices come in increasing order, there are at most
    as many as the shorter of the two label vectors has entries, and there
    is none exactly when the prediction agrees with the truth wherever both
    are defined. *)
Theorem hard_samples_indexes_sorted (yt yp : labels) :
  StronglySorted lt (hard_samples_indexes_of yt yp)
  ∧ length (hard_samples_indexes_of yt yp) ≤ length yt `min` length yp
  ∧ (hard_samples_indexes_of yt yp = [] ↔
     ∀ i t p, yt !! i = Some t → yp !! i = Some p → t = p).
Proof.
  pose proof (hard_samples_indexes_sublist yt yp) as Hsub. split_and!.
  - eapply sublist_StronglySorted; [exact Hsub|apply StronglySorted_seq].
  - apply sublist_length in Hsub. by rewrite length_seq, length_zip in Hsub.
  - split.
    + intros Hnil i t p Ht Hp. destruct (decide (t = p)) as [|Hne]; [done|].
      assert (Hi : i ∈ hard_samples_indexes_of yt yp)
        by (apply elem_of_hard_samples_indexes; eauto).
      rewrite Hnil in Hi. by apply elem_of_nil in Hi.
    + intros Hall. destruct (hard_samples_indexes_of yt yp) as [|i l] eqn:Hl; [done|].
      assert (Hi : i ∈ hard_samples_indexes_of yt yp) by (rewrite Hl; left).
      apply elem_of_hard_samples_indexes in Hi as (t & p & Ht & Hp & Hne).
      destruct Hne. eauto.
Qed.

(** *** How the loop is left *)

Lemma epoch_Break (st st' : state) :
  outcome (epoch st) = Ok (Break st') →
  ∃ c yp, st' = at_break st c yp.
Proof.
  intros H. destruct (epoch st) as [t o] eqn:He. simpl in H. subst o.
  apply epoch_Ok in He as (?&?&c&yp&prf&_&_&_&_&_&_&[[_ [= ->]]|[_ (sel&_&[=])]]).
  eauto.
Qed.

Lemma iterations_convergence (n : nat) (st st' : state) :
  iterations n st st' → convergence st' = convergence st.
Proof.
  induction 1 as [st|n st st' st'' _ He _ IH]; [reflexivity|].
  apply epoch_Continue in He as (c & yp & prf & sel & _ & _ & _ & ->).
  exact IH.
Qed.

(** X3. No line of the script sets [converged], so the second half of the loop
    test never fails. A loop that returns was left in one of two ways: at
    the [break], with [convergence] set, the counter below [max_epochs] and
    one banner more than the counter advanced (the converged iteration is
    not counted in the total the script prints); or at the test, with the
    counter at [max_epochs] (if it was not beyond already) and one banner
    per count. *)
Theorem loop_exit_modes (st st' : state) :
  converged st = false →
  outcome (training_loop st) = Ok st' →
  converged st' = false
  ∧ ((convergence st' = Some true
      ∧ (current_epoch st' < max_epochs opts)%Z
      ∧ Z.of_nat (length (filter (λ ev, is_banner ev = true)
                                 (trace (training_loop st))))
        = (current_epoch st' - current_epoch st + 1)%Z)
     ∨ (convergence st' = convergence st
        ∧ current_epoch st' = Z.max (current_epoch st) (max_epochs opts)
        ∧ Z.of_nat (length (filter (λ ev, is_banner ev = true)
                                   (trace (training_loop st))))
          = (current_epoch st' - current_epoch st)%Z)).
Proof.
  intros Hconv Hout.
  destruct (training_loop_run st) as (n & st_last & Hit & Hend & Hban).
  rewrite Hout in Hend.
  pose proof (iterations_frame _ _ _ Hit) as (_&_&_&_&_&Hcv).
  pose proof (iterations_counter _ _ _ Hit) as Hcnt.
  pose proof (iterations_bound _ _ _ Hit) as Hbound.
  pose proof (iterations_convergence _ _ _ Hit) as Hcg.
  inversion Hend as [Hc|st'' Hc He|]; subst.
  - split; [congruence|]. right. rewrite Hban, Hc.
    unfold loop_cond in Hc. rewrite Hcv, Hconv, andb_true_r in Hc.
    apply Z.ltb_ge in Hc. split_and!; [exact Hcg|lia|lia].
  - apply epoch_Break in He as (c & yp & ->). simpl.
    split; [congruence|]. left. rewrite Hban, Hc.
    apply loop_cond_true in Hc as [Hc _]. split_and!; [reflexivity|lia|lia].
Qed.

(** *** The model file (lines 229-239) *)

(** The arguments of the last classifier fit among the events. *)
Fixpoint last_fit (t : list event) : option (matrix * labels) :=
  match t with
  | [] => None
  | ev :: t' =>
      match last_fit t' with
      | Some a => Some a
      | None => match ev with EvClfFit Xp yt => Some (Xp, yt) | _ => None end
      end
  end.

Definition is_dump (ev : event) : bool :=
  match ev with EvDump _ _ => true | _ => false end.

Lemma last_fit_app (t1 t2 : list event) :
  last_fit (t1 ++ t2)
  = match last_fit t2 with Some a => Some a | None => last_fit t1 end.
Proof.
  induction t1 as [|ev t1 IH]; simpl; [by destruct (last_fit t2)|].
  rewrite IH. by destruct (last_fit t2).
Qed.

Lemma epoch_last_fit (st : state) (s : step) :
  outcome (epoch st) = Ok s →
  ∃ Xp c, last_fit (trace (epoch st)) = Some (Xp, y_train st)
          ∧ clf_fit Xp (y_train st) = Ok c
          ∧ clf (state_of s) = Some c.
Proof.
  intros H. destruct (epoch st) as [t o] eqn:He. simpl in H. subst o.
  apply epoch_Ok in He as (Xp&?&c&yp&prf&_&_&Hfit&_&_&->&[[_ ->]|[_ (sel&_&->)]]);
    exists Xp, c; auto.
Qed.

(** The classifier left by the loop is the result of the last fit the loop
    made, or the one it started with when it made none. *)
Lemma training_loop_last_fit (st st' : state) :
  outcome (training_loop st) = Ok st' →
  match last_fit (trace (training_loop st)) with
  | Some (Xp, yt) => ∃ c, clf_fit Xp yt = Ok c ∧ clf st' = Some c
  | None => clf st' = clf st
  end.
Proof.
  remember (Z.to_nat (max_epochs opts - current_epoch st)) as m eqn:Hm.
  revert st Hm. induction m as [m IH] using lt_wf_ind. intros st Hm.
  rewrite training_loop_eq. destruct (loop_cond st) eqn:Hc; [|by intros [= <-]].
  destruct (outcome (epoch st)) as [[st1|st1]|e] eqn:He; [| |discriminate].
  - pose proof (epoch_Continue_counter _ _ He) as Hcnt.
    pose proof Hc as [Hlt _]%loop_cond_true.
    destruct (epoch_last_fit _ _ He) as (Xp & c & Hlast & Hfit & Hclf).
    intros Hout.
    change (trace (after (trace (epoch st)) (training_loop st1)))
      with (trace (epoch st) ++ trace (training_loop st1)).
    rewrite last_fit_app.
    specialize (IH (Z.to_nat (max_epochs opts - current_epoch st1))
                   ltac:(lia) st1 eq_refl Hout).
    destruct (last_fit (trace (training_loop st1))) as [[Xp' yt']|]; [exact IH|].
    rewrite Hlast. exists c. simpl in Hclf. split; congruence.
  - intros [= <-].
    destruct (epoch_last_fit _ _ He) as (Xp & c & Hlast & Hfit & Hclf).
    cbn [trace]. rewrite Hlast. eauto.
Qed.

Lemma training_loop_no_dump (st : state) :
  Forall (λ ev, is_dump ev = false) (trace (training_loop st)).
Proof.
  eapply Forall_impl; [apply training_loop_events|]. by intros [].
Qed.

Lemma final_report_Ok (st st' : state) :
  outcome (final_report st) = Ok st' →
  ∃ X_pca c yp,
    pca_transform (pca st) (X st) = Ok X_pca
    ∧ clf st = Some c
    ∧ clf_predict c X_pca = Ok yp
    ∧ trace (final_report st)
      = [EvPcaTransform (pca st) (X st); EvPredict c X_pca;
         EvDump c (model_filename opts)]
    ∧ clf st' = Some c
    ∧ y_pred st' = Some yp
    ∧ y_test st' = y_test st
    ∧ (∃ report, classification_report (y_test st) yp target_names = Ok report)
    ∧ (∃ cm, confusion_matrix (y_test st) yp (Z.of_nat <$> seq 0 classes_count)
             = Ok cm)
    ∧ import_joblib = Ok tt
    ∧ joblib_dump c (model_filename opts) = Ok tt.
Proof.
  unfold final_report, read_clf, mbind, M_bind, mret, M_ret, call, lift, emit.
  simpl.
  destruct (pca_transform (pca st) (X st)) as [X_pca|]; simpl; [|discriminate].
  destruct (clf st) as [c|] eqn:Hclf; simpl; [|discriminate].
  destruct (clf_predict c X_pca) as [yp|] eqn:Hp; simpl; [|discriminate].
  destruct (classification_report _ _ _) as [report|] eqn:Hr; simpl;
    [|discriminate].
  destruct (confusion_matrix _ _ _) as [cm|] eqn:Hcm; simpl; [|discriminate].
  destruct import_joblib as [[]|] eqn:Hi; simpl; [|discriminate].
  destruct (joblib_dump _ _) as [[]|] eqn:Hd; simpl; [|discriminate].
  intros [= <-]. exists X_pca, c, yp. simpl. split_and!; eauto.
Qed.

(** A final report that raises did so before the dump was called, or in
    the dump itself. *)
Lemma final_report_Raise (st : state) (e : exn) :
  outcome (final_report st) = Raise e →
  Forall (λ ev, is_dump ev = false) (trace (final_report st))
  ∨ ∃ X_pca c,
      trace (final_report st)
      = [EvPcaTransform (pca st) (X st); EvPredict c X_pca;
         EvDump c (model_filename opts)]
      ∧ clf st = Some c
      ∧ import_joblib = Ok tt
      ∧ joblib_dump c (model_filename opts) = Raise e.
Proof.
  unfold final_report, read_clf, mbind, M_bind, mret, M_ret, call, lift, emit.
  simpl.
  destruct (pca_transform (pca st) (X st)) as [X_pca|]; simpl;
    [|left; repeat constructor].
  destruct (clf st) as [c|]; simpl; [|left; repeat constructor].
  destruct (clf_predict c X_pca) as [yp|]; simpl; [|left; repeat constructor].
  destruct (classification_report _ _ _); simpl; [|left; repeat constructor].
  destruct (confusion_matrix _ _ _); simpl; [|left; repeat constructor].
  destruct import_joblib as [[]|]; simpl; [|left; repeat constructor].
  destruct (joblib_dump _ _) as [[]|e'] eqn:Hd; simpl; [discriminate|].
  intros [= ->]. right. exists X_pca, c. split_and!; auto.
Qed.

(** X4. The dump of the model is called at most once, as the last call of
    the run, and only after everything before it went through, the two
    final reports and the import of [joblib] included; the classifier
    passed to it is the one bound to [clf], the result of the last fit of
    the loop. A run that raises did so before the dump, which then was
    never called, or in the dump itself. *)
Theorem model_written_last (fd : list feature_record) (fc : Z) (rng0 : tape) :
  (∀ e, outcome (main fd fc rng0) = Raise e →
     Forall (λ ev, is_dump ev = false) (trace (main fd fc rng0))
     ∨ ∃ t c,
         trace (main fd fc rng0) = t ++ [EvDump c (model_filename opts)]
         ∧ Forall (λ ev, is_dump ev = false) t
         ∧ import_joblib = Ok tt
         ∧ joblib_dump c (model_filename opts) = Raise e)
  ∧ (∀ st, outcome (main fd fc rng0) = Ok st →
       ∃ t c Xp yt yp,
         trace (main fd fc rng0) = t ++ [EvDump c (model_filename opts)]
         ∧ Forall (λ ev, is_dump ev = false) t
         ∧ last_fit t = Some (Xp, yt)
         ∧ clf_fit Xp yt = Ok c
         ∧ clf st = Some c
         ∧ y_pred st = Some yp
         ∧ (∃ report,
              classification_report (y_test st) yp target_names = Ok report)
         ∧ (∃ cm, confusion_matrix (y_test st) yp
                    (Z.of_nat <$> seq 0 classes_count) = Ok cm)
         ∧ import_joblib = Ok tt
         ∧ joblib_dump c (model_filename opts) = Ok tt).
Proof.
  unfold main.
  destruct (initialise fd fc rng0) as [t0 [st0|e0]] eqn:Hinit.
  2:{ rewrite (bind_Raise _ _ _ _ eq_refl). split; [|discriminate].
      intros e _. left. simpl. revert Hinit.
      unfold initialise, mbind, M_bind, mret, M_ret, call, lift. simpl.
      destruct (build_X fd fc) as [X0|]; simpl; [|intros [= <- _]; constructor].
      destruct (assemble_initial_train_set X0 _ _ _); simpl;
        [|intros [= <- _]; constructor].
      destruct (PCA_fit _ X0); simpl; [discriminate|].
      intros [= <- _]. repeat constructor. }
  rewrite (bind_Ok _ _ _ _ eq_refl).
  apply initialise_Ok in Hinit as (_&_&_&_&_&->&_&_&_&_&_&_&Hclf0).
  pose proof (training_loop_no_dump st0) as Hnd.
  destruct (training_loop st0) as [tl [st1|e1]] eqn:Hloop.
  2:{ rewrite (bind_Raise _ _ _ _ eq_refl). split; [|discriminate].
      intros e _. left. simpl in *. constructor; [reflexivity|exact Hnd]. }
  rewrite (bind_Ok _ _ _ _ eq_refl).
  pose proof (training_loop_last_fit st0 st1) as Hlast.
  rewrite Hloop in Hlast. simpl in Hlast, Hnd. specialize (Hlast eq_refl).
  split.
  - intros e He. simpl in He.
    apply final_report_Raise in He as [He|(X_pca & c & Htr & _ & Hi & Hd)]; simpl.
    + left. constructor; [reflexivity|]. apply Forall_app_2; assumption.
    + right.
      exists (EvPcaFit (pca_components_total opts) (X st0) :: tl
              ++ [EvPcaTransform (pca st1) (X st1); EvPredict c X_pca]), c.
      rewrite Htr. split_and!; auto.
      * simpl. by rewrite <- app_assoc.
      * constructor; [reflexivity|]. apply Forall_app_2; [exact Hnd|].
        repeat constructor.
  - intros st Hst. simpl in Hst.
    apply final_report_Ok
      in Hst as (X_pca & c & yp & _ & Hclf1 & _ & Htr & Hclf & Hyp & Hyt & Hr
                 & Hcm & Hi & Hd).
    destruct (last_fit tl) as [[Xp yt]|] eqn:Hlf; [|congruence].
    destruct Hlast as (c' & Hfit & Hc'). assert (c' = c) as -> by congruence.
    exists (EvPcaFit (pca_components_total opts) (X st0) :: tl
            ++ [EvPcaTransform (pca st1) (X st1); EvPredict c X_pca]), c, Xp, yt, yp.
    simpl. rewrite Htr, Hyt. split_and!; auto.
    + by rewrite <- app_assoc.
    + constructor; [reflexivity|]. apply Forall_app_2; [exact Hnd|].
      repeat constructor.
    + rewrite last_fit_app. simpl. by rewrite Hlf.
Qed.

(** *** Where the training samples come from *)

(** A (row, label) pair of the evaluation set. *)
Definition evaluation_pair (st : state) (r : row) (l : label) : Prop :=
  ∃ i, X_test st !! i = Some r ∧ y_test st !! i = Some l.

Lemma Forall2_same_index {A B} (a : list A) (b : list B) (idx : list nat)
    (ra : list A) (rb : list B) :
  Forall2 (λ i r, a !! i = Some r) idx ra →
  Forall2 (λ i r, b !! i = Some r) idx rb →
  Forall2 (λ x z, ∃ i, a !! i = Some x ∧ b !! i = Some z) ra rb.
Proof.
  intros Ha. revert rb. induction Ha as [|i x idx ra Hx _ IH]; intros rb Hb.
  - apply Forall2_nil_inv_l in Hb as ->. constructor.
  - apply Forall2_cons_inv_l in Hb as (z & rb' & Hz & Hb & ->).
    constructor; eauto.
Qed.

Lemma epoch_appends_pairs (st st' : state) :
  outcome (epoch st) = Ok (Continue st') →
  ∃ Xh yh,
    X_train st' = X_train st ++ Xh
    ∧ y_train st' = y_train st ++ yh
    ∧ Forall2 (evaluation_pair st) Xh yh
    ∧ length Xh ≤ length (y_test st).
Proof.
  intros (c & yp & prf & sel & _ & _ & Hsel & ->)%epoch_Continue.
  pose proof (selection_chosen _ _ _ _ _ _ Hsel) as (_ & Hsub & _ & HlX & _).
  apply select_hard_samples_Ok in Hsel as (k & _ & _ & Hidx & _ & HX & Hy).
  exists (sel_X sel), (sel_y sel). simpl. split_and!; try reflexivity.
  - apply take_rows_Ok in HX, Hy. exact (Forall2_same_index _ _ _ _ _ HX Hy).
  - rewrite HlX. apply submseteq_length in Hsub. rewrite Hidx in Hsub.
    pose proof (hard_samples_indexes_sublist (y_test st) yp) as Hl.
    apply sublist_length in Hl. rewrite length_seq, length_zip in Hl. lia.
Qed.

(** X5. Every sample the loop adds to the training set is a row of the
    evaluation set with the label the evaluation set gives it, so rows and
    labels stay paired; an iteration adds at most as many samples as the
    evaluation set has, so [n] iterations add at most [n] times that. *)
Theorem training_set_from_evaluation (n : nat) (st st' : state) :
  iterations n st st' →
  ∃ Xh yh,
    X_train st' = X_train st ++ Xh
    ∧ y_train st' = y_train st ++ yh
    ∧ Forall2 (evaluation_pair st) Xh yh
    ∧ length Xh ≤ n * length (y_test st).
Proof.
  induction 1 as [st|n st st1 st2 _ He Hit (Xh2 & yh2 & HX2 & Hy2 & Hp2 & Hl2)].
  - exists [], []. rewrite !app_nil_r. split_and!; auto; try constructor; simpl; lia.
  - pose proof (epoch_frame _ _ He) as (_&_&HXt&Hyt&_&_). simpl in HXt, Hyt.
    apply epoch_appends_pairs in He as (Xh1 & yh1 & HX1 & Hy1 & Hp1 & Hl1).
    exists (Xh1 ++ Xh2), (yh1 ++ yh2).
    rewrite HX2, Hy2, HX1, Hy1, <- !app_assoc, length_app.
    split_and!; try reflexivity.
    + apply Forall2_app; [exact Hp1|].
      eapply Forall2_impl; [exact Hp2|].
      intros r l (i & Hr & Hl). exists i. by rewrite <- HXt, <- Hyt.
    + rewrite Hyt in Hl2. lia.
Qed.

(** *** The learning rates 1.0 and 0.0 *)

(** X6. With a learning rate of 1.0 the selection takes every disagreement,
    each one once; with 0.0 it takes none and leaves the generator as it
    was. Neither raises on an evaluation set of aligned rows and labels
    (and fewer than 2^53 of them). *)
Theorem rate_extremes (Xt : matrix) (yt yp : labels) (r : tape) :
  length Xt = length yt →
  (Z.of_nat (length yt) < 2 ^ 53)%Z →
  (∃ sel, select_hard_samples f1 Xt yt yp r = Ok sel
          ∧ sel_chosen sel ≡ₚ hard_samples_indexes_of yt yp
          ∧ length (sel_X sel) = length (hard_samples_indexes_of yt yp)
          ∧ length (sel_y sel) = length (hard_samples_indexes_of yt yp))
  ∧ (∃ sel, select_hard_samples f0 Xt yt yp r = Ok sel
            ∧ sel_chosen sel = [] ∧ sel_X sel = [] ∧ sel_y sel = []
            ∧ sel_rng sel = r).
Proof.
  intros Hlen Hsmall.
  pose proof (hard_samples_indexes_sublist yt yp) as Hsub.
  apply sublist_length in Hsub. rewrite length_seq, length_zip in Hsub.
  destruct (int_of_unit_product
              (Z.of_nat (length (hard_samples_indexes_of yt yp))))
    as (fn & Hfn & H1 & H0); [lia|].
  split.
  - assert (Hk : requested_count f1 (length (hard_samples_indexes_of yt yp))
                 = Ok (Z.of_nat (length (hard_samples_indexes_of yt yp))))
      by (apply requested_count_Ok; eauto).
    destruct (select_hard_samples_in_pool f1 Xt yt yp r _ Hlen Hk)
      as (sel & Hsel & Hch & Hl); [lia|].
    pose proof (selection_chosen _ _ _ _ _ _ Hsel) as (_ & _ & _ & HlX & Hly).
    exists sel. rewrite HlX, Hly, Hl, Nat2Z.id. split_and!; auto.
    apply submseteq_length_Permutation; [rewrite Hch; apply draw_submseteq|lia].
  - assert (Hk : requested_count f0 (length (hard_samples_indexes_of yt yp))
                 = Ok 0%Z) by (apply requested_count_Ok; eauto).
    unfold select_hard_samples, random_sample. rewrite Hk. simpl.
    replace (0 <=? Z.of_nat (length (hard_samples_indexes_of yt yp)))%Z with true
      by (symmetry; apply Z.leb_le; lia).
    eexists. split_and!; reflexivity.
Qed.

End Script.

Arguments Run {pca_model classifier A} trace outcome.
Arguments trace {pca_model classifier A} m.
Arguments outcome {pca_model classifier A} m.

(* --------------------------------------------------------------------- *)
(** ** Scenario A: threshold 0.0 on 100 balanced rows                     *)
(* --------------------------------------------------------------------- *)

Section ScenarioA.

Implicit Types (yt yp : labels) (c : label).

Lemma tp_sum_le_pred_sum yt yp c : tp_sum yt yp c ≤ pred_sum yp c.
Proof.
  unfold tp_sum, pred_sum. revert yp.
  induction yt as [|t yt IH]; intros [|p yp]; simpl; try lia.
  rewrite !filter_cons. specialize (IH yp).
  repeat case_decide; simpl in *; destruct_and?; subst; try done; lia.
Qed.

Lemma tp_sum_le_true_sum yt yp c : tp_sum yt yp c ≤ true_sum yt c.
Proof.
  unfold tp_sum, true_sum. revert yp.
  induction yt as [|t yt IH]; intros [|p yp]; simpl; try lia.
  rewrite !filter_cons. specialize (IH yp).
  repeat case_decide; simpl in *; destruct_and?; subst; try done; lia.
Qed.

Lemma pred_sum_le_length yp c : pred_sum yp c ≤ length yp.
Proof. apply length_filter. Qed.

Lemma true_sum_le_length yt c : true_sum yt c ≤ length yt.
Proof. apply length_filter. Qed.

(** A class has a true positive exactly when some sample of that class is
    predicted as such. *)
Lemma tp_sum_pos yt yp c :
  1 ≤ tp_sum yt yp c ↔ ∃ i, yt !! i = Some c ∧ yp !! i = Some c.
Proof.
  unfold tp_sum. split.
  - destruct (filter _ (zip yt yp)) as [|[t p] l] eqn:Hf; simpl; [lia|]. intros _.
    assert (Hin : (t, p) ∈ filter (λ tp, tp.1 = c ∧ tp.2 = c) (zip yt yp))
      by (rewrite Hf; left).
    apply list_elem_of_filter in Hin as [[H1 H2] Hin]. simpl in *. subst t p.
    apply list_elem_of_lookup in Hin as [i Hi].
    apply lookup_zip_with_Some in Hi as (a & b & [= -> ->] & Ha & Hb). eauto.
  - intros (i & Ht & Hp).
    assert (Hin : (c, c) ∈ filter (λ tp, tp.1 = c ∧ tp.2 = c) (zip yt yp)).
    { apply list_elem_of_filter. split; [done|].
      apply list_elem_of_lookup. exists i. apply lookup_zip_with_Some. eauto. }
    destruct (filter _ (zip yt yp)); [by apply elem_of_nil in Hin|simpl; lia].
Qed.

(** On counts up to 100 the quotient of [_prf_divide] is positive exactly
    when its numerator is: checked on every pair. *)
Lemma prf_divide_positive_upto_100 :
  forallb (λ den,
    forallb (λ num, Bool.eqb (fgt (prf_divide num den) f0) (0 <? num))
            (seq 0 (S den)))
    (seq 0 101) = true.
Proof. vm_compute. reflexivity. Qed.

Lemma prf_divide_positive (num den : nat) :
  num ≤ den → den ≤ 100 → fgt (prf_divide num den) f0 = (0 <? num).
Proof.
  intros Hnum Hden. apply eqb_prop.
  pose proof prf_divide_positive_upto_100 as Hall.
  rewrite forallb_forall in Hall. specialize (Hall den).
  rewrite forallb_forall in Hall.
  apply Hall; apply in_seq; lia.
Qed.

Lemma forallb_fmap_elem {A B} (f : A → B) (g : B → bool) (l : list A) :
  forallb g (f <$> l) = true ↔ ∀ x, x ∈ l → g (f x) = true.
Proof.
  rewrite forallb_forall. split.
  - intros H x Hx. apply H, list_elem_of_In, list_elem_of_fmap. eauto.
  - intros H y (x & -> & Hx)%list_elem_of_In%list_elem_of_fmap. auto.
Qed.

Lemma elem_of_unique_labels yt yp c :
  c ∈ unique_labels yt yp ↔ c ∈ yt ∨ c ∈ yp.
Proof.
  unfold unique_labels.
  rewrite merge_sort_Permutation, elem_of_remove_dups, elem_of_app. reflexivity.
Qed.

(** C8, as the code has it. With 100 balanced rows and threshold 0.0, the
    convergence check of an epoch holds if and only if every class that
    occurs among the true or the predicted labels has at least one sample
    predicted correctly; a class with none has precision 0.0 and recall
    0.0, which do not exceed the threshold. *)
Theorem scenario_A_convergence yt yp
    (prf : list float * list float * list nat) :
  length yt = 100 →
  true_sum yt 0%Z = 50 →
  true_sum yt 1%Z = 50 →
  precision_recall_fscore_support yt yp = Ok prf →
  (convergence_check prf.1.1 prf.1.2 f0 = true ↔
   ∀ c, c ∈ yt ∨ c ∈ yp → ∃ i, yt !! i = Some c ∧ yp !! i = Some c)
  ∧ (convergence_check prf.1.1 prf.1.2 f0 = true →
     (∃ i, yt !! i = Some 0%Z ∧ yp !! i = Some 0%Z)
     ∧ (∃ i, yt !! i = Some 1%Z ∧ yp !! i = Some 1%Z))
  ∧ (∀ c, (∀ i, yt !! i = Some c → yp !! i ≠ Some c) →
       fgt (precision_of yt yp c) f0 = false
       ∧ fgt (recall_of yt yp c) f0 = false).
Proof.
  intros Hlen H0 H1.
  assert (Hin : ∀ c, 1 ≤ true_sum yt c → c ∈ yt).
  { intros c. unfold true_sum.
    match goal with |- context [length ?f] => destruct f as [|t l] eqn:Hf end;
      simpl; [lia|intros _].
    assert (Ht : t ∈ t :: l) by left.
    rewrite <- Hf in Ht. by apply list_elem_of_filter in Ht as [-> Ht]. }
  assert (Hc0 : 0%Z ∈ yt) by (apply Hin; lia).
  assert (Hc1 : 1%Z ∈ yt) by (apply Hin; lia). clear Hin H0 H1.
  unfold precision_recall_fscore_support.
  case_decide as Hlens; [|discriminate]. intros [= <-]. simpl.
  assert (Hpos : ∀ c,
    fgt (precision_of yt yp c) f0 && fgt (recall_of yt yp c) f0 = true
    ↔ 1 ≤ tp_sum yt yp c).
  { intros c. unfold precision_of, recall_of.
    pose proof (tp_sum_le_pred_sum yt yp c). pose proof (tp_sum_le_true_sum yt yp c).
    pose proof (pred_sum_le_length yp c). pose proof (true_sum_le_length yt c).
    rewrite !prf_divide_positive by lia.
    rewrite andb_diag. rewrite Nat.ltb_lt. lia. }
  assert (Hiff : convergence_check (precision_of yt yp <$> unique_labels yt yp)
                   (recall_of yt yp <$> unique_labels yt yp) f0 = true ↔
                 ∀ c, c ∈ yt ∨ c ∈ yp → ∃ i, yt !! i = Some c ∧ yp !! i = Some c);
    [|split_and!; [exact Hiff|intros Hconv; split; apply Hiff; auto|]].
  - unfold convergence_check. rewrite andb_true_iff, !forallb_fmap_elem. split.
    + intros [HP HR] c Hc. apply tp_sum_pos, Hpos, andb_true_iff.
      split; [apply HP|apply HR]; by apply elem_of_unique_labels.
    + intros H. split; intros c Hc%elem_of_unique_labels;
        apply H, tp_sum_pos, Hpos, andb_true_iff in Hc as [? ?]; done.
  - intros c Hno.
    assert (Htp : tp_sum yt yp c = 0).
    { destruct (decide (1 ≤ tp_sum yt yp c)) as [Hge|]; [|lia].
      apply tp_sum_pos in Hge as (i & Ht & Hp). by destruct (Hno i Ht). }
    unfold precision_of, recall_of. rewrite Htp.
    pose proof (pred_sum_le_length yp c). pose proof (true_sum_le_length yt c).
    rewrite !prf_divide_positive by lia. done.
Qed.

End ScenarioA.

End LssTrain.

Import LssTrain.

(* ===================================================================== *)
(** * Concrete runs                                                       *)
(* ===================================================================== *)

(** Small instances of the external primitives, to run the script on
    concrete data: a projection that keeps the leading coordinates, a
    classifier that memorises its training set, a classifier that answers
    0 everywhere, and a balanced initial split that takes the first rows
    of each class. *)
Module Demo.

#[local] Instance spec_float_eq_dec : EqDecision spec_float.
Proof. solve_decision. Defined.

Definition PCA_fit (n_components : Z) (X : matrix) : result nat :=
  if (n_components <? 0)%Z then Raise ValueError else Ok (Z.to_nat n_components).

Definition pca_transform (m : nat) (X : matrix) : result matrix :=
  Ok (take m <$> X).

(** The memorising classifier: the label of the first training row equal
    to the row asked about, 0 when there is none. *)
Definition memo_fit (X : matrix) (y : labels) : result (list (row * label)) :=
  if decide (length X = length y) then Ok (zip X y) else Raise ValueError.

Definition memo_predict (c : list (row * label)) (X : matrix) : result labels :=
  Ok ((λ x, match list_find (λ p, p.1 = x) c with
            | Some (_, (_, l)) => l
            | None => 0%Z
            end) <$> X).

(** The constant classifier. *)
Definition const_fit (X : matrix) (y : labels) : result unit := Ok tt.
Definition const_predict (c : unit) (X : matrix) : result labels :=
  Ok (replicate (length X) 0%Z).

(** The two reports, as far as they may raise. Both refuse vectors of
    different lengths; the classification report refuses a number of
    classes present other than the number of target names, the confusion
    matrix a list of labels none of which occurs in [y_true]. The text of
    the report is not modelled. *)
Definition classification_report (y_true y_pred : labels) (names : list string)
  : result string :=
  if decide (length y_true = length y_pred
             ∧ length (unique_labels y_true y_pred) = length names)
  then Ok "" else Raise ValueError.

Definition confusion_matrix (y_true y_pred : labels) (lbls : list Z)
  : result (list (list Z)) :=
  if decide (length y_true = length y_pred)
  then if existsb (λ l, bool_decide (l ∈ y_true)) lbls
       then Ok ((λ t, (λ p, Z.of_nat (length (filter (λ tp, tp.1 = t ∧ tp.2 = p)
                                                     (zip y_true y_pred))))
                        <$> lbls) <$> lbls)
       else Raise ValueError
  else Raise ValueError.

(** A library that has [sklearn.externals.joblib], and a dump that
    succeeds. *)
Definition import_joblib : result unit := Ok tt.
Definition joblib_dump {classifier : Type} (c : classifier) (filename : string)
  : result unit := Ok tt.

(** The first [n/2] rows of class 0 and of class 1. *)
Definition assemble_initial_train_set (X : matrix) (y : labels) (n : Z)
    (r : tape) : result (matrix * labels * tape) :=
  let half := Z.to_nat (n / 2) in
  let pick c := take half (filter (λ p, p.2 = c) (zip X y)) in
  if decide (length (pick 0%Z) = half ∧ length (pick 1%Z) = half)
  then Ok ((pick 0%Z ++ pick 1%Z).*1, (pick 0%Z ++ pick 1%Z).*2, r)
  else Raise ValueError.

Lemma assemble_aligned : aligned_assembler assemble_initial_train_set.
Proof.
  intros Xf yf n r Xt yt r'. unfold assemble_initial_train_set.
  case_decide; [|discriminate]. intros [= <- <- _]. by rewrite !length_fmap.
Qed.

(** A dataset of [n] rows of one feature: row [i] holds the float [i] and
    has class [i mod 2]. *)
Definition dataset (n : nat) : list feature_record :=
  (λ i, {| features := [float_of_count i]; target := Z.of_nat (i mod 2) |})
    <$> seq 0 n.

(** Six rows, two of them in the initial training set, half of the hard
    samples added per epoch, at most three epochs. *)
Definition small_opts : options := {|
  pca_components_total := 1;
  max_epochs := 3;
  convergence_threshold := f0_95;
  initial_train_size := 2;
  learning_rate := f0_5;
  model_filename := "out.pkl" |}.

Definition small_run : M state :=
  main PCA_fit pca_transform memo_fit memo_predict classification_report confusion_matrix
       import_joblib joblib_dump assemble_initial_train_set
       small_opts (dataset 6) 1 [1; 0; 2].

Definition small_X : matrix := features <$> dataset 6.
Definition small_y : labels := target <$> dataset 6.

(** The variables at the first loop test of the small run. *)
Definition small_st0 {classifier : Type} : @state nat classifier := {|
  X := small_X; y := small_y; X_test := small_X; y_test := small_y;
  X_train := [[float_of_count 0]; [float_of_count 1]];
  y_train := [0; 1]%Z;
  pca := 1;
  converged := false;
  convergence := None;
  current_epoch := 0;
  clf := None;
  y_pred := None;
  hard_samples_indexes := None;
  hard_samples_chosen := None;
  rng := [1; 0; 2] |}.

(** After its first iteration: rows 3 and 5 are misclassified, half of
    them, row 5, joins the training set. *)
Definition small_st1 : @state nat (list (row * label)) :=
  at_end_of_epoch small_st0
    [([float_of_count 0], 0%Z); ([float_of_count 1], 1%Z)]
    [0; 1; 0; 0; 0; 0]%Z
    {| sel_indexes := [3; 5]; sel_chosen := [5];
       sel_X := [[float_of_count 5]]; sel_y := [1%Z]; sel_rng := [0; 2] |}.

Lemma small_initialise :
  initialise PCA_fit assemble_initial_train_set small_opts (dataset 6) 1 [1; 0; 2]
  = Run [EvPcaFit 1 small_X] (Ok (small_st0 (classifier := list (row * label)))).
Proof. vm_compute. reflexivity. Qed.

Lemma small_epoch0 :
  outcome (epoch pca_transform memo_fit memo_predict classification_report confusion_matrix small_opts small_st0)
  = Ok (Continue small_st1).
Proof. vm_compute. reflexivity. Qed.

Lemma small_iterations :
  iterations pca_transform memo_fit memo_predict classification_report confusion_matrix small_opts 1 small_st0 small_st1.
Proof.
  eapply iterations_S; [reflexivity|exact small_epoch0|apply iterations_O].
Qed.

(** The small run stagnates: one disagreement is left, half of it is no
    sample, and the loop runs to its budget of three epochs with the
    training set of the second one. *)
Example small_run_stagnates :
  outcome (training_loop pca_transform memo_fit memo_predict classification_report confusion_matrix small_opts small_st0)
  = Ok (at_end_of_epoch
          (at_end_of_epoch small_st1
             [([float_of_count 0], 0%Z); ([float_of_count 1], 1%Z);
              ([float_of_count 5], 1%Z)]
             [0; 1; 0; 0; 0; 1]%Z
             {| sel_indexes := [3]; sel_chosen := []; sel_X := []; sel_y := [];
                sel_rng := [0; 2] |})
          [([float_of_count 0], 0%Z); ([float_of_count 1], 1%Z);
           ([float_of_count 5], 1%Z)]
          [0; 1; 0; 0; 0; 1]%Z
          {| sel_indexes := [3]; sel_chosen := []; sel_X := []; sel_y := [];
             sel_rng := [0; 2] |}).
Proof. vm_compute. reflexivity. Qed.

(** The small run ends by the dump of the classifier of its third fit,
    the only dump of the run. *)
Example small_run_dumps :
  (∃ st, outcome small_run = Ok st)
  ∧ last (trace small_run)
    = Some (EvDump [([float_of_count 0], 0%Z); ([float_of_count 1], 1%Z);
                    ([float_of_count 5], 1%Z)] "out.pkl")
  ∧ length (filter (λ ev, is_dump ev = true) (trace small_run)) = 1.
Proof. split_and!; [eexists|..]; vm_compute; reflexivity. Qed.

(** On data of one class the classification report of line 188 raises,
    the number of classes present not being that of the target names: the
    iteration ends there, though the precision and the recall of the one
    class are 1.0 and the check of line 191 would hold. *)
Example one_class_epoch_raises :
  precision_recall_fscore_support (replicate 6 0%Z) (replicate 6 0%Z)
  = Ok ([f1], [f1], [6])
  ∧ convergence_check [f1] [f1] f0_95 = true
  ∧ classification_report (replicate 6 0%Z) (replicate 6 0%Z) target_names
    = Raise ValueError
  ∧ outcome (epoch pca_transform memo_fit memo_predict classification_report
                   confusion_matrix small_opts
                   {| X := small_X; y := replicate 6 0%Z;
                      X_test := small_X; y_test := replicate 6 0%Z;
                      X_train := small_X; y_train := replicate 6 0%Z;
                      pca := 1; converged := false; convergence := None;
                      current_epoch := 0; clf := None; y_pred := None;
                      hard_samples_indexes := None;
                      hard_samples_chosen := None; rng := [1; 0; 2] |})
    = Raise ValueError.
Proof. split_and!; vm_compute; reflexivity. Qed.

(** With every hard sample added each epoch the same data converges in
    the second epoch, at the [break]: [convergence] is set and [converged]
    is not. *)
Example full_rate_converges :
  let opts := {| pca_components_total := 1; max_epochs := 3;
                 convergence_threshold := f0_95; initial_train_size := 2;
                 learning_rate := f1; model_filename := "out.pkl" |} in
  let final := outcome (training_loop pca_transform memo_fit memo_predict classification_report confusion_matrix opts
                                      small_st0) in
  (current_epoch <$> final) = Ok 1%Z
  ∧ (convergence <$> final) = Ok (Some true)
  ∧ (converged <$> final) = Ok false
  ∧ (y_train <$> final) = Ok [0; 1; 1; 1]%Z.
Proof. vm_compute. repeat split. Qed.

(** The requested count follows the binary64 product: [int(0.29*100)] is
    28 and [int(0.7*10)] is 7. *)
Example requested_count_rounding :
  requested_count (S754_finite false 5224175567749775 (-54)) 100 = Ok 28%Z
  ∧ requested_count (S754_finite false 6305039478318694 (-53)) 10 = Ok 7%Z.
Proof. split; reflexivity. Qed.

(** C1 at precision (1.0, 1.0), recall (1.0, 0.5) and threshold 0.95, in
    the small run. *)
Lemma convergence_check_iff_witness :
  (convergence_check [f1; f1] [f1; f0_5] f0_95 = true ↔
   ∀ c, c < classes_count →
     ∃ p r, [f1; f1] !! c = Some p ∧ [f1; f0_5] !! c = Some r
            ∧ fgt p f0_95 = true ∧ fgt r f0_95 = true)
  ∧ (∀ c r, [f1; f0_5] !! c = Some r → fle r f0_95 = true →
       convergence_check [f1; f1] [f1; f0_5] f0_95 = false)
  ∧ (∀ st s,
       outcome (epoch pca_transform memo_fit memo_predict classification_report confusion_matrix small_opts st) = Ok s →
       ∃ yp prf,
         precision_recall_fscore_support (y_test st) yp = Ok prf
         ∧ ((∃ st', s = Break st') ↔
            convergence_check prf.1.1 prf.1.2 (convergence_threshold small_opts)
            = true)
         ∧ (∀ st', s = Break st' →
              convergence st' = Some true ∧ converged st' = converged st)).
Proof.
  apply (convergence_check_iff pca_transform memo_fit memo_predict classification_report confusion_matrix small_opts
           [f1; f1] [f1; f0_5] f0_95); reflexivity.
Defined.

(** C2 on the first iteration of the small run. *)
Lemma hard_samples_appended_witness :
  ∃ yp idx chosen fn X_hard y_hard,
    y_pred small_st1 = Some yp
    ∧ hard_samples_indexes small_st1 = Some idx
    ∧ hard_samples_chosen small_st1 = Some chosen
    ∧ (∀ i, i ∈ idx ↔
         ∃ t p, y_test (small_st0 (classifier := list (row * label))) !! i = Some t
                ∧ yp !! i = Some p ∧ t ≠ p)
    ∧ X_train small_st1 = X_train (small_st0 (classifier := list (row * label))) ++ X_hard
    ∧ y_train small_st1 = y_train (small_st0 (classifier := list (row * label))) ++ y_hard
    ∧ Forall2 (λ i r, X_test (small_st0 (classifier := list (row * label))) !! i = Some r)
              chosen X_hard
    ∧ Forall2 (λ i t, y_test (small_st0 (classifier := list (row * label))) !! i = Some t)
              chosen y_hard
    ∧ float_of_int (Z.of_nat (length idx)) = Ok fn
    ∧ floor_of_float (fmul (learning_rate small_opts) fn)
        = Some (Z.of_nat (length X_hard))
    ∧ NoDup chosen
    ∧ chosen ⊆+ idx
    ∧ (∀ i, i ∈ chosen →
         ∃ t p, y_test (small_st0 (classifier := list (row * label))) !! i = Some t
                ∧ yp !! i = Some p ∧ t ≠ p).
Proof.
  apply (hard_samples_appended pca_transform memo_fit memo_predict classification_report confusion_matrix small_opts
           small_st0 small_st1); vm_compute; reflexivity.
Defined.

(** C4 on the small run, after its first iteration. *)
Lemma evaluation_set_fixed_witness :
  (length (X_train small_st1) = length (y_train small_st1)
   ∧ length (X_test small_st1) = length (y_test small_st1))
  ∧ (X_test small_st1 = X small_st1 ∧ y_test small_st1 = y small_st1)
  ∧ (build_X (dataset 6) 1 = Ok (X small_st1) ∧ y small_st1 = build_y (dataset 6))
  ∧ (X_test small_st1 = X_test (small_st0 (classifier := list (row * label)))
     ∧ y_test small_st1 = y_test (small_st0 (classifier := list (row * label))))
  ∧ (∀ s, outcome (epoch pca_transform memo_fit memo_predict classification_report confusion_matrix small_opts small_st1)
          = Ok s →
       length (X_train (state_of s)) = length (y_train (state_of s))
       ∧ X_test (state_of s) = X_test (small_st0 (classifier := list (row * label)))
       ∧ y_test (state_of s) = y_test (small_st0 (classifier := list (row * label)))).
Proof.
  apply (evaluation_set_fixed PCA_fit pca_transform memo_fit memo_predict classification_report confusion_matrix
           assemble_initial_train_set small_opts (dataset 6) 1 [1; 0; 2]
           [EvPcaFit 1 small_X] small_st0 1 small_st1).
  - exact assemble_aligned.
  - vm_compute. reflexivity.
  - eapply iterations_S; [reflexivity|vm_compute; reflexivity|apply iterations_O].
Defined.

(** C6 on the small run. *)
Lemma projection_fit_once_witness :
  (build_X (dataset 6) 1 = Ok (X (small_st0 (classifier := list (row * label))))
   ∧ PCA_fit (pca_components_total small_opts)
             (X (small_st0 (classifier := list (row * label))))
     = Ok (pca (small_st0 (classifier := list (row * label)))))
  ∧ (∃ rest,
       trace small_run
         = EvPcaFit (pca_components_total small_opts)
                    (X (small_st0 (classifier := list (row * label)))) :: rest
       ∧ Forall (uses_model (pca (small_st0 (classifier := list (row * label)))))
                rest)
  ∧ (∀ n st,
       iterations pca_transform memo_fit memo_predict classification_report confusion_matrix small_opts n small_st0 st →
       pca st = pca (small_st0 (classifier := list (row * label)))
       ∧ (∃ rest,
            trace (epoch pca_transform memo_fit memo_predict classification_report confusion_matrix small_opts st)
              = EvEpoch (current_epoch st) :: rest
            ∧ Forall (in_epoch_event st) rest)
       ∧ (∀ s, outcome (epoch pca_transform memo_fit memo_predict classification_report confusion_matrix small_opts st)
               = Ok s →
            ∃ X_train_pca X_test_pca c,
              pca_transform (pca (small_st0 (classifier := list (row * label))))
                            (X_train st) = Ok X_train_pca
              ∧ pca_transform (pca (small_st0 (classifier := list (row * label))))
                              (X_test st) = Ok X_test_pca
              ∧ trace (epoch pca_transform memo_fit memo_predict classification_report confusion_matrix small_opts st)
                = epoch_events st X_train_pca X_test_pca c)).
Proof.
  apply (projection_fit_once PCA_fit pca_transform memo_fit memo_predict classification_report confusion_matrix
           import_joblib joblib_dump assemble_initial_train_set small_opts (dataset 6) 1 [1; 0; 2]
           [EvPcaFit 1 small_X] small_st0).
  vm_compute. reflexivity.
Defined.

(** C2: a learning rate of -0.1 against the constant classifier, which
    misses the three rows of class 1. The product is about -0.3: [int]
    truncates it to 0, no sample is drawn and the iteration appends
    nothing, where the floor of the product is -1. *)
Definition negative_rate_opts : options := {|
  pca_components_total := 1;
  max_epochs := 3;
  convergence_threshold := f0_95;
  initial_train_size := 2;
  learning_rate := S754_finite true 7205759403792794 (-56);
  model_filename := "out.pkl" |}.

Lemma negative_rate_appends_nothing :
  fle f0 (learning_rate negative_rate_opts) = false
  ∧ hard_samples_indexes_of small_y (replicate 6 0%Z) = [1; 3; 5]
  ∧ (∃ fn, float_of_int 3 = Ok fn
           ∧ floor_of_float (fmul (learning_rate negative_rate_opts) fn)
             = Some (-1)%Z)
  ∧ requested_count (learning_rate negative_rate_opts) 3 = Ok 0%Z
  ∧ ∃ st',
      outcome (epoch pca_transform const_fit const_predict classification_report
                     confusion_matrix negative_rate_opts small_st0)
      = Ok (Continue st')
      ∧ hard_samples_indexes st' = Some [1; 3; 5]
      ∧ hard_samples_chosen st' = Some []
      ∧ X_train st' = X_train (small_st0 (classifier := unit))
      ∧ y_train st' = y_train (small_st0 (classifier := unit)).
Proof.
  split_and!; try (vm_compute; reflexivity).
  - eexists. vm_compute. split; reflexivity.
  - eexists. vm_compute. split_and!; reflexivity.
Qed.

(** C7: a learning rate of 2.0 against the constant classifier, which
    misses the three rows of class 1. Six samples are requested from a pool
    of three: the selection raises, and so does the iteration. *)
Definition double_rate_opts : options := {|
  pca_components_total := 1;
  max_epochs := 3;
  convergence_threshold := f0_95;
  initial_train_size := 2;
  learning_rate := f2;
  model_filename := "out.pkl" |}.

Lemma selection_beyond_pool_raises :
  hard_samples_indexes_of small_y (replicate 6 0%Z) = [1; 3; 5]
  ∧ requested_count f2 3 = Ok 6%Z
  ∧ select_hard_samples f2 small_X small_y (replicate 6 0%Z) [1; 0; 2]
    = Raise ValueError
  ∧ outcome (epoch pca_transform const_fit const_predict classification_report confusion_matrix double_rate_opts small_st0)
    = Raise ValueError.
Proof. vm_compute. repeat split. Qed.

(** C7, as the code has it, on the six rows. Against a perfect
    prediction the pool is empty: a rate of 0.5 selects nothing and an
    infinite rate raises. Against the small run's first prediction the
    pool is rows 3 and 5: a rate of 1.0 takes both, a rate of 0.5 takes
    one, and rates of 2.0 and of -1.0 raise. *)
Lemma selection_within_pool_witness :
  select_hard_samples f0_5 small_X small_y small_y [1; 0; 2]
  = Ok {| sel_indexes := []; sel_chosen := []; sel_X := []; sel_y := [];
          sel_rng := [1; 0; 2] |}
  ∧ select_hard_samples (S754_infinity false) small_X small_y small_y [1; 0; 2]
    = Raise ValueError
  ∧ (∃ sel, select_hard_samples f1 small_X small_y [0; 1; 0; 0; 0; 0]%Z [1; 0; 2]
            = Ok sel
            ∧ sel_chosen sel ≡ₚ hard_samples_indexes_of small_y [0; 1; 0; 0; 0; 0]%Z)
  ∧ (∃ sel, select_hard_samples f0_5 small_X small_y [0; 1; 0; 0; 0; 0]%Z [1; 0; 2]
            = Ok sel
            ∧ Z.of_nat (length (sel_chosen sel)) = 1%Z
            ∧ NoDup (sel_chosen sel)
            ∧ sel_chosen sel ⊆+ hard_samples_indexes_of small_y [0; 1; 0; 0; 0; 0]%Z)
  ∧ select_hard_samples f2 small_X small_y [0; 1; 0; 0; 0; 0]%Z [1; 0; 2]
    = Raise ValueError
  ∧ select_hard_samples (S754_finite true 4503599627370496 (-52)) small_X
      small_y [0; 1; 0; 0; 0; 0]%Z [1; 0; 2]
    = Raise ValueError.
Proof.
  pose proof (selection_within_pool small_X small_y eq_refl) as H.
  split_and!.
  - destruct (H f0_5 small_y [1; 0; 2]) as (_ & Hempty & _).
    apply Hempty. vm_compute. reflexivity.
  - destruct (H (S754_infinity false) small_y [1; 0; 2]) as (_ & Hempty & _).
    apply Hempty. vm_compute. reflexivity.
  - destruct (H f1 [0; 1; 0; 0; 0; 0]%Z [1; 0; 2]) as (_ & _ & Hk).
    destruct (Hk 2%Z) as (Hall & _); [vm_compute; reflexivity|].
    apply Hall. vm_compute. reflexivity.
  - destruct (H f0_5 [0; 1; 0; 0; 0; 0]%Z [1; 0; 2]) as (_ & _ & Hk).
    destruct (Hk 1%Z) as (_ & Hin & _); [vm_compute; reflexivity|].
    apply Hin. vm_compute. split; discriminate.
  - destruct (H f2 [0; 1; 0; 0; 0; 0]%Z [1; 0; 2]) as (_ & _ & Hk).
    destruct (Hk 4%Z) as (_ & _ & Hout); [vm_compute; reflexivity|].
    apply Hout. left. vm_compute. reflexivity.
  - destruct (H (S754_finite true 4503599627370496 (-52)) [0; 1; 0; 0; 0; 0]%Z
                [1; 0; 2]) as (_ & _ & Hk).
    destruct (Hk (-2)%Z) as (_ & _ & Hout); [vm_compute; reflexivity|].
    apply Hout. right. reflexivity.
Defined.

(** The empty pool: a perfect prediction that a threshold of 1.0 still
    does not accept. Nothing is selected and the iteration carries the
    training set over unchanged. *)
Example empty_pool_carries_over :
  let opts := {| pca_components_total := 1; max_epochs := 3;
                 convergence_threshold := f1; initial_train_size := 2;
                 learning_rate := f0_5; model_filename := "out.pkl" |} in
  select_hard_samples f0_5 small_X small_y small_y [1; 0; 2]
  = Ok {| sel_indexes := []; sel_chosen := []; sel_X := []; sel_y := [];
          sel_rng := [1; 0; 2] |}
  ∧ ∃ st' : @state nat (list (row * label)),
      outcome (epoch pca_transform memo_fit memo_predict classification_report confusion_matrix opts
                 {| X := small_X; y := small_y; X_test := small_X; y_test := small_y;
                    X_train := small_X; y_train := small_y; pca := 1;
                    converged := false; convergence := None; current_epoch := 0;
                    clf := None; y_pred := None; hard_samples_indexes := None;
                    hard_samples_chosen := None; rng := [1; 0; 2] |})
      = Ok (Continue st')
      ∧ X_train st' = small_X ∧ y_train st' = small_y
      ∧ hard_samples_chosen st' = Some [].
Proof. split; [vm_compute; reflexivity|]. eexists. vm_compute. repeat split. Qed.

(** Scenario A: 100 balanced rows, ten of them in the initial training
    set, threshold 0.0. *)
Definition scenario_A_opts : options := {|
  pca_components_total := 1;
  max_epochs := 100;
  convergence_threshold := f0;
  initial_train_size := 10;
  learning_rate := f0_1;
  model_filename := "out.pkl" |}.

Definition scenario_A_y : labels := target <$> dataset 100.

(** The loop body entered on the state the initialisation leaves. *)
Definition first_epoch {pca_model classifier : Type}
    (init : @M pca_model classifier (@state pca_model classifier))
    (body : @state pca_model classifier
            → @M pca_model classifier (@step pca_model classifier))
  : result (@step pca_model classifier) :=
  match outcome init with
  | Ok st0 => outcome (body st0)
  | Raise e => Raise e
  end.

(** C8: the constant classifier in scenario A. Class 1 is never
    predicted: its precision and its recall are 0.0, the check fails, and
    the first epoch goes on to select hard samples instead of leaving the
    loop. *)
Lemma scenario_A_constant_classifier :
  length scenario_A_y = 100
  ∧ true_sum scenario_A_y 0%Z = 50
  ∧ true_sum scenario_A_y 1%Z = 50
  ∧ precision_recall_fscore_support scenario_A_y (replicate 100 0%Z)
    = Ok ([f0_5; f0], [f1; f0], [50; 50])
  ∧ convergence_check [f0_5; f0] [f1; f0] f0 = false
  ∧ ∃ st1,
      first_epoch
        (initialise PCA_fit assemble_initial_train_set scenario_A_opts
                    (dataset 100) 1 [])
        (epoch pca_transform const_fit const_predict classification_report confusion_matrix scenario_A_opts)
      = Ok (Continue st1)
      ∧ length (X_train st1) = 15.
Proof.
  split_and!; try (vm_compute; reflexivity).
  eexists. vm_compute. split; reflexivity.
Qed.

(** C8, as the code has it, at a perfect prediction. *)
Lemma scenario_A_convergence_witness :
  (convergence_check [f1; f1] [f1; f1] f0 = true ↔
   ∀ c, c ∈ scenario_A_y ∨ c ∈ scenario_A_y →
        ∃ i, scenario_A_y !! i = Some c ∧ scenario_A_y !! i = Some c)
  ∧ (convergence_check [f1; f1] [f1; f1] f0 = true →
     (∃ i, scenario_A_y !! i = Some 0%Z ∧ scenario_A_y !! i = Some 0%Z)
     ∧ (∃ i, scenario_A_y !! i = Some 1%Z ∧ scenario_A_y !! i = Some 1%Z))
  ∧ (∀ c, (∀ i, scenario_A_y !! i = Some c → scenario_A_y !! i ≠ Some c) →
       fgt (precision_of scenario_A_y scenario_A_y c) f0 = false
       ∧ fgt (recall_of scenario_A_y scenario_A_y c) f0 = false).
Proof.
  apply (scenario_A_convergence scenario_A_y scenario_A_y
           ([f1; f1], [f1; f1], [50; 50])); vm_compute; reflexivity.
Defined.

(** The memorising classifier in scenario A converges at epoch 0. *)
Example scenario_A_memo_converges :
  ∃ st1,
    first_epoch
      (initialise PCA_fit assemble_initial_train_set scenario_A_opts
                  (dataset 100) 1 [])
      (epoch pca_transform memo_fit memo_predict classification_report confusion_matrix scenario_A_opts)
    = Ok (Break st1).
Proof. eexists. vm_compute. reflexivity. Qed.

(** C9 with [max_epochs = 0] on the six rows. *)
Definition no_epoch_opts : options := {|
  pca_components_total := 1;
  max_epochs := 0;
  convergence_threshold := f0_95;
  initial_train_size := 2;
  learning_rate := f0_5;
  model_filename := "out.pkl" |}.

Definition no_epoch_run : M state :=
  main PCA_fit pca_transform memo_fit memo_predict classification_report confusion_matrix
       import_joblib joblib_dump assemble_initial_train_set
       no_epoch_opts (dataset 6) 1 [1; 0; 2].

Lemma no_epoch_no_model_witness :
  (∃ e, outcome no_epoch_run = Raise e)
  ∧ Forall (λ ev, match ev with
                  | EvEpoch _ | EvClfFit _ _ | EvPredict _ _ | EvDump _ _ => False
                  | EvPcaFit _ _ | EvPcaTransform _ _ => True
                  end) (trace no_epoch_run)
  ∧ (∀ t0 st0,
       initialise PCA_fit assemble_initial_train_set no_epoch_opts (dataset 6) 1
                  [1; 0; 2] = Run t0 (Ok st0) →
       training_loop pca_transform memo_fit memo_predict classification_report confusion_matrix no_epoch_opts st0
       = Run [] (Ok st0)
       ∧ clf st0 = None
       ∧ (∀ X_pca, pca_transform (pca st0) (X st0) = Ok X_pca →
            outcome no_epoch_run = Raise (NameError "clf"))).
Proof.
  apply (no_epoch_no_model PCA_fit pca_transform memo_fit memo_predict classification_report confusion_matrix
           import_joblib joblib_dump assemble_initial_train_set no_epoch_opts (dataset 6) 1 [1; 0; 2]).
  vm_compute. discriminate.
Defined.

Example no_epoch_run_result :
  no_epoch_run = Run [EvPcaFit 1 small_X; EvPcaTransform 1 small_X]
                     (Raise (NameError "clf")).
Proof. vm_compute. reflexivity. Qed.

(** The exit of the small run, from its first loop test. *)
Lemma loop_exit_modes_witness :
  ∃ st',
    outcome (training_loop pca_transform memo_fit memo_predict classification_report confusion_matrix small_opts
                           small_st0) = Ok st'
    ∧ converged st' = false
    ∧ ((convergence st' = Some true
        ∧ (current_epoch st' < max_epochs small_opts)%Z
        ∧ Z.of_nat (length (filter (λ ev, is_banner ev = true)
                     (trace (training_loop pca_transform memo_fit memo_predict classification_report confusion_matrix
                                           small_opts small_st0))))
          = (current_epoch st' - 0 + 1)%Z)
       ∨ (convergence st' = None
          ∧ current_epoch st' = Z.max 0 (max_epochs small_opts)
          ∧ Z.of_nat (length (filter (λ ev, is_banner ev = true)
                       (trace (training_loop pca_transform memo_fit memo_predict classification_report confusion_matrix
                                             small_opts small_st0))))
            = (current_epoch st' - 0)%Z)).
Proof.
  destruct (outcome (training_loop pca_transform memo_fit memo_predict classification_report confusion_matrix
                                   small_opts small_st0)) as [st'|e] eqn:Hrun;
    [|vm_compute in Hrun; discriminate].
  exists st'. split; [reflexivity|].
  apply (loop_exit_modes pca_transform memo_fit memo_predict classification_report confusion_matrix small_opts
           small_st0 st'); [reflexivity|exact Hrun].
Defined.

(** One iteration of the small run: the row added is row 5 of the
    evaluation set, with its label. *)
Lemma training_set_from_evaluation_witness :
  ∃ Xh yh,
    X_train small_st1
    = X_train (small_st0 (classifier := list (row * label))) ++ Xh
    ∧ y_train small_st1
      = y_train (small_st0 (classifier := list (row * label))) ++ yh
    ∧ Forall2 (evaluation_pair (small_st0 (classifier := list (row * label))))
              Xh yh
    ∧ length Xh ≤ 1 * length (y_test (small_st0 (classifier := list (row * label)))).
Proof.
  apply (training_set_from_evaluation pca_transform memo_fit memo_predict classification_report confusion_matrix
           small_opts 1 small_st0 small_st1).
  eapply iterations_S; [reflexivity|vm_compute; reflexivity|apply iterations_O].
Defined.

(** The two extreme rates on the small run's first predictions. *)
Lemma rate_extremes_witness :
  (∃ sel, select_hard_samples f1 small_X small_y [0; 1; 0; 0; 0; 0]%Z [1; 0; 2]
          = Ok sel
          ∧ sel_chosen sel ≡ₚ hard_samples_indexes_of small_y [0; 1; 0; 0; 0; 0]%Z
          ∧ length (sel_X sel)
            = length (hard_samples_indexes_of small_y [0; 1; 0; 0; 0; 0]%Z)
          ∧ length (sel_y sel)
            = length (hard_samples_indexes_of small_y [0; 1; 0; 0; 0; 0]%Z))
  ∧ (∃ sel, select_hard_samples f0 small_X small_y [0; 1; 0; 0; 0; 0]%Z [1; 0; 2]
            = Ok sel
            ∧ sel_chosen sel = [] ∧ sel_X sel = [] ∧ sel_y sel = []
            ∧ sel_rng sel = [1; 0; 2]).
Proof.
  apply (rate_extremes small_X small_y [0; 1; 0; 0; 0; 0]%Z [1; 0; 2]).
  - reflexivity.
  - vm_compute. reflexivity.
Defined.

End Demo.

(* ===================================================================== *)
(** * [lic_patient.py]: the [Patient] container                           *)
(* ===================================================================== *)

Module LicPatient.

Section Patient.

(** What a volume or a label map carries besides its id (a header
    dictionary and an array) is opaque to the container. *)
Context {header data : Type}.

(** [Volume(id, header, data)] and [LabelMap(id, header, data)]. *)
Record Volume : Type := {
  volume_id : string;
  volume_header : header;
  volume_data : data }.

Record LabelMap : Type := {
  labelmap_id : string;
  labelmap_header : header;
  labelmap_data : data }.

Inductive object : Type :=
  | VolumeObj (v : Volume)
  | LabelMapObj (l : LabelMap).

(** Dictionaries are mutable objects: a variable or an attribute holds a
    reference into the store, not the dictionary. *)
Definition loc : Type := positive.
Abbreviation store := (gmap loc (gmap string object)).

(** [{}]: a new, empty dictionary at a reference not in use. *)
Definition new_dict (h : store) : loc * store :=
  let l := fresh (dom h) in (l, <[l := ∅]> h).

(** Reading through a reference. *)
Definition deref (h : store) (l : loc) : gmap string object :=
  default ∅ (h !! l).

(** The class object: the default values of [__init__]'s parameters,
    evaluated once, when the [def] statement runs (line 31). *)
Record Patient_class : Type := {
  default_volumes : loc;
  default_labelmaps : loc }.

Definition define_Patient (h : store) : Patient_class * store :=
  let '(lv, h1) := new_dict h in
  let '(ll, h2) := new_dict h1 in
  ({| default_volumes := lv; default_labelmaps := ll |}, h2).

(** A [Patient] instance: [self.id], [self.volumes], [self.labelmaps]. *)
Record Patient : Type := {
  id : string;
  volumes : loc;
  labelmaps : loc }.

(** [Patient(id, volumes=..., labelmaps=...)] (lines 31-34): an argument
    left out is the default object of the class; no dictionary is
    created. *)
Definition Patient_init (cls : Patient_class) (pid : string)
    (volumes_arg labelmaps_arg : option loc) : Patient := {|
  id := pid;
  volumes := default (default_volumes cls) volumes_arg;
  labelmaps := default (default_labelmaps cls) labelmaps_arg |}.

(** [self.volumes[volume.id] = volume] (line 40). *)
Definition add_volume (p : Patient) (v : Volume) (h : store) : store :=
  alter (insert (volume_id v) (VolumeObj v)) (volumes p) h.

(** [self.labelmaps[labelmap.id] = labelmap] (line 44). *)
Definition add_labelmap (p : Patient) (l : LabelMap) (h : store) : store :=
  alter (insert (labelmap_id l) (LabelMapObj l)) (labelmaps p) h.

(** [volumes, labelmaps = {}, {}] then [cls(id, volumes, labelmaps)], as
    [build_from_folder] ends (lines 91 and 116). *)
Definition Patient_with_own_dicts (cls : Patient_class) (pid : string)
    (h : store) : Patient * store :=
  let '(lv, h1) := new_dict h in
  let '(ll, h2) := new_dict h1 in
  (Patient_init cls pid (Some lv) (Some ll), h2).

Lemma new_dict_fresh (h : store) : h !! (new_dict h).1 = None.
Proof. apply not_elem_of_dom, is_fresh. Qed.

Lemma define_Patient_defaults (h : store) :
  let cls := (define_Patient h).1 in
  let h' := (define_Patient h).2 in
  h' !! default_volumes cls = Some ∅
  ∧ h' !! default_labelmaps cls = Some ∅
  ∧ default_volumes cls ≠ default_labelmaps cls.
Proof.
  unfold define_Patient, new_dict. simpl.
  set (lv := fresh (dom h)). set (ll := fresh (dom (<[lv:=∅]> h))).
  assert (Hne : lv ≠ ll).
  { intros Heq. pose proof (is_fresh (dom (<[lv:=∅]> h))) as Hf. fold ll in Hf.
    apply Hf. rewrite <- Heq. apply elem_of_dom. rewrite lookup_insert_eq. eauto. }
  split_and!; [|by rewrite lookup_insert_eq|exact Hne].
  rewrite lookup_insert_ne by done. by rewrite lookup_insert_eq.
Qed.

(** C10. Two patients constructed without [volumes] and [labelmaps]
    arguments hold the same two dictionaries, the defaults of the class:
    a volume added through the first is found under its id in the
    [volumes] of the second, where it was not before. *)
Theorem default_dicts_shared (h0 : store) (id1 id2 : string) (v : Volume) :
  let cls := (define_Patient h0).1 in
  let h := (define_Patient h0).2 in
  let p1 := Patient_init cls id1 None None in
  let p2 := Patient_init cls id2 None None in
  volumes p1 = volumes p2
  ∧ labelmaps p1 = labelmaps p2
  ∧ deref h (volumes p2) !! volume_id v = None
  ∧ deref (add_volume p1 v h) (volumes p2) !! volume_id v = Some (VolumeObj v)
  ∧ deref (add_volume p1 v h) (volumes p1) = deref (add_volume p1 v h) (volumes p2).
Proof.
  pose proof (define_Patient_defaults h0) as (Hv & Hl & Hne).
  destruct (define_Patient h0) as [cls h]. simpl in *.
  split_and!; try reflexivity.
  - unfold deref. rewrite Hv. simpl. by rewrite lookup_empty.
  - unfold deref, add_volume. simpl. rewrite lookup_alter_eq, Hv. simpl.
    apply lookup_insert_eq.
Qed.

(** A patient given dictionaries of its own, as [build_from_folder] gives,
    shares nothing: a volume added to it does not show in a patient on the
    defaults. *)
Lemma own_dicts_not_shared (h0 : store) (id1 id2 : string) (v : Volume) :
  let cls := (define_Patient h0).1 in
  let h := (define_Patient h0).2 in
  let p1 := (Patient_with_own_dicts cls id1 h).1 in
  let h1 := (Patient_with_own_dicts cls id1 h).2 in
  let p2 := Patient_init cls id2 None None in
  deref (add_volume p1 v h1) (volumes p1) !! volume_id v = Some (VolumeObj v)
  ∧ deref (add_volume p1 v h1) (volumes p2) !! volume_id v = None.
Proof.
  pose proof (define_Patient_defaults h0) as (Hv & Hl & Hne).
  destruct (define_Patient h0) as [cls h]. simpl in *.
  unfold Patient_with_own_dicts, new_dict, deref, add_volume. simpl.
  set (lv := fresh (dom h)). set (ll := fresh (dom (<[lv:=∅]> h))).
  assert (Hlv : default_volumes cls ≠ lv).
  { intros Heq. pose proof (is_fresh (dom h)) as Hf. fold lv in Hf.
    apply Hf. rewrite <- Heq. apply elem_of_dom. eauto. }
  assert (Hll : lv ≠ ll).
  { intros Heq. pose proof (is_fresh (dom (<[lv:=∅]> h))) as Hf. fold ll in Hf.
    apply Hf. rewrite <- Heq. apply elem_of_dom. rewrite lookup_insert_eq. eauto. }
  assert (Hdl : default_volumes cls ≠ ll).
  { intros Heq. pose proof (is_fresh (dom (<[lv:=∅]> h))) as Hf. fold ll in Hf.
    apply Hf. rewrite <- Heq. apply elem_of_dom.
    rewrite lookup_insert_ne by done. eauto. }
  split.
  - rewrite lookup_alter_eq, lookup_insert_ne, lookup_insert_eq by done.
    simpl. apply lookup_insert_eq.
  - rewrite lookup_alter_ne, !lookup_insert_ne, Hv by done. simpl.
    by rewrite lookup_empty.
Qed.

(** X7. Label maps go the same way as volumes, through the other default
    dictionary: a label map added through one patient on the defaults is
    found in the [labelmaps] of every other one, and the two dictionaries
    of a patient stay apart, so that adding a label map changes no
    [volumes] and adding a volume changes no [labelmaps]. *)
Theorem default_labelmaps_shared (h0 : store) (id1 id2 : string)
    (v : Volume) (l : LabelMap) :
  let cls := (define_Patient h0).1 in
  let h := (define_Patient h0).2 in
  let p1 := Patient_init cls id1 None None in
  let p2 := Patient_init cls id2 None None in
  deref h (labelmaps p2) !! labelmap_id l = None
  ∧ deref (add_labelmap p1 l h) (labelmaps p2) !! labelmap_id l
    = Some (LabelMapObj l)
  ∧ deref (add_labelmap p1 l h) (volumes p2) = deref h (volumes p2)
  ∧ deref (add_volume p1 v h) (labelmaps p2) = deref h (labelmaps p2)
  ∧ add_volume p1 v (add_labelmap p2 l h) = add_labelmap p2 l (add_volume p1 v h).
Proof.
  pose proof (define_Patient_defaults h0) as (Hv & Hl & Hne).
  destruct (define_Patient h0) as [cls h]. simpl in *.
  unfold deref, add_labelmap, add_volume. simpl.
  split_and!.
  - rewrite Hl. simpl. by rewrite lookup_empty.
  - rewrite lookup_alter_eq, Hl. simpl. apply lookup_insert_eq.
  - by rewrite lookup_alter_ne.
  - by rewrite lookup_alter_ne.
  - apply map_eq. intros k.
    destruct (decide (k = default_volumes cls)) as [Hk1|Hk1];
      [|destruct (decide (k = default_labelmaps cls)) as [Hk2|Hk2]]; subst.
    + rewrite lookup_alter_eq, !lookup_alter_ne by done.
      by rewrite lookup_alter_eq.
    + rewrite lookup_alter_ne, !lookup_alter_eq by done.
      by rewrite lookup_alter_ne.
    + by rewrite !lookup_alter_ne.
Qed.

End Patient.

End LicPatient.

Import LicPatient.

(* ===================================================================== *)
(** * [lic_patient.py]: loading from folders, and the total volume        *)
(* ===================================================================== *)

Module LicLoad.

(** Exceptions of the loaders. [AssertionError] carries its message: it is
    the one exception [Patient.build_from_folder] catches (assertions are
    taken as enabled). [LibraryFailure] stands for what a library call
    (reading a DICOM or NRRD file, an array operation) raised. *)
Inductive exc : Type :=
  | AssertionError (msg : string)
  | IndexError
  | StopIteration
  | AttributeError (name : string)
  | KeyError (key : string)
  | OverflowError
  | LibraryFailure (code : nat).

Inductive res (A : Type) : Type :=
  | Ret (a : A)
  | Exc (e : exc).
Arguments Ret {A} a.
Arguments Exc {A} e.

#[export] Instance res_ret : MRet res := fun _ a => Ret a.
#[export] Instance res_bind : MBind res := fun _ _ f m =>
  match m with Ret a => f a | Exc e => Exc e end.

Definition is_assertion (e : exc) : bool :=
  match e with AssertionError _ => true | _ => false end.

(** [l[i]] *)
Definition index {A} (l : list A) (i : nat) : res A :=
  match l !! i with Some x => Ret x | None => Exc IndexError end.

(** Reading an attribute of a DICOM dataset that may lack it. *)
Definition attr {A} (name : string) (o : option A) : res A :=
  match o with Some x => Ret x | None => Exc (AttributeError name) end.

(** ** File names

    Names are byte strings. [lower] lower-cases the ASCII letters, which is
    what decides [endswith(".dcm")]: no other letter lower-cases to a
    character of that suffix. *)
Definition ascii_lower (c : Ascii.ascii) : Ascii.ascii :=
  let n := Ascii.nat_of_ascii c in
  if (65 <=? n) && (n <=? 90) then Ascii.ascii_of_nat (n + 32) else c.

Definition lower (s : string) : string :=
  String.string_of_list_ascii (ascii_lower <$> String.list_ascii_of_string s).

Definition endswith (s sfx : string) : bool :=
  bool_decide (String.list_ascii_of_string sfx `suffix_of` String.list_ascii_of_string s).

(** [file.lower().endswith(".dcm")] (line 161) *)
Definition is_dcm (file : string) : bool := endswith (lower file) ".dcm".

Section Loading.

(** The decoded pixels of a DICOM file, array element types, arrays, and
    the header dictionary of an NRRD file are the libraries' own. *)
Context {pixels dtype data nrrd_header : Type}.

(** The attributes of a DICOM dataset the loader reads. *)
Record dicom : Type := {
  Rows : option Z;
  Columns : option Z;
  PixelSpacing : option (list float);
  SliceThickness : option float;
  ImagePositionPatient : option (list float);
  pixel_array : res pixels }.

(** The header dictionary of a volume (line 173). *)
Record dicom_header : Type := {
  dimensions : Z * Z * Z;
  spacings : float * float * float;
  initial_position : float * float * float }.

(** A volume carries the dictionary above, a label map the NRRD header. *)
Definition header : Type := dicom_header + nrrd_header.

(** The file system and the libraries: [os.path.basename], [os.path.join],
    [os.path.exists], [os.walk] (its triples, in order), [natsorted],
    [dicom.read_file], [glob.glob], [nrrd.read], [data.transpose((1,0,2))],
    [np.zeros(shape, dtype)], [data[:, :, k] = pixel_array],
    [pixel_array.dtype]. *)
Variable basename : string → string.
Variable join : string → string → string.
Variable exists_path : string → bool.
Variable walk : string → list (string * list string * list string).
Variable natsorted : list string → list string.
Variable read_file : string → res dicom.
Variable glob : string → list string.
Variable nrrd_read : string → res (data * nrrd_header).
Variable transpose_102 : data → res data.
Variable np_zeros : Z * Z * Z → dtype → res data.
Variable set_slice : data → nat → pixels → res data.
Variable pixel_dtype : pixels → dtype.

(** ** [Volume.build_from_folder] (lines 141-183) *)

(** Lines 158-162: the [.dcm] files below [files_path], directory by
    directory, natural-sorted within each. *)
Definition list_dicom_filenames (files_path : string) : list string :=
  flat_map (λ entry, join entry.1.1 <$> filter (λ f, is_dcm f = true)
                                               (natsorted entry.2))
           (walk files_path).

(** Lines 165-173. *)
Definition build_header (reference : dicom) (slices : nat) : res dicom_header :=
  rows ← attr "Rows" (Rows reference);
  columns ← attr "Columns" (Columns reference);
  ps ← attr "PixelSpacing" (PixelSpacing reference);
  ps0 ← index ps 0;
  ps1 ← index ps 1;
  thickness ← attr "SliceThickness" (SliceThickness reference);
  ipp ← attr "ImagePositionPatient" (ImagePositionPatient reference);
  ipp0 ← index ipp 0;
  ipp1 ← index ipp 1;
  ipp2 ← index ipp 2;
  Ret {| dimensions := (rows, columns, Z.of_nat slices);
         spacings := (ps0, ps1, thickness);
         initial_position := (ipp0, ipp1, ipp2) |}.

(** Lines 177-181: each file is read again and its pixels stored as slice
    [slice_count]. *)
Fixpoint fill_slices (d : data) (slice_count : nat) (filenames : list string)
  : res data :=
  match filenames with
  | [] => Ret d
  | dicom_filename :: rest =>
      dicom_file ← read_file dicom_filename;
      px ← pixel_array dicom_file;
      d' ← set_slice d slice_count px;
      fill_slices d' (S slice_count) rest
  end.

Definition Volume_build_from_folder (folder_path : string)
  : res (@Volume header data) :=
  let id := basename folder_path in
  if decide (id = "dixon")
  then Exc (AssertionError "Dixon sequences are not yet supported")
  else if decide (id = "multiecho")
  then Exc (AssertionError "Multiecho sequences are not yet supported")
  else
    let files_path := join folder_path "dicom" in
    if negb (exists_path files_path)
    then Exc (AssertionError ("No 'dicom' subfolder in " +:+ folder_path))
    else
      let dicom_filenames := list_dicom_filenames files_path in
      reference_name ← index dicom_filenames 0;
      dicom_reference_file ← read_file reference_name;
      hd ← build_header dicom_reference_file (length dicom_filenames);
      px ← pixel_array dicom_reference_file;
      zeros ← np_zeros (dimensions hd) (pixel_dtype px);
      d ← fill_slices zeros 0 dicom_filenames;
      Ret {| volume_id := id; volume_header := inl hd; volume_data := d |}.

(** ** [LabelMap.build_from_folder] (lines 203-219) *)
Definition LabelMap_build_from_folder (folder_path : string)
  : res (@LabelMap header data) :=
  let id := basename folder_path in
  let pattern := join folder_path ("*_" +:+ id +:+ "_labelmap.nrrd") in
  match glob pattern with
  | [] => Exc (AssertionError ("No NRRD labelmap in folder " +:+ folder_path))
  | first :: _ =>
      read ← nrrd_read first;
      d ← transpose_102 read.1;
      Ret {| labelmap_id := id; labelmap_header := inr read.2;
             labelmap_data := d |}
  end.

(** ** [Patient.build_from_folder] (lines 69-116) *)

(** The two dictionaries under construction. Until [cls(id, volumes,
    labelmaps)] they are local to the method, so they are held by value. *)
Abbreviation dicts :=
  (gmap string (@object header data) * gmap string (@object header data))%type.

(** Lines 96-98: [sequences is not None and dir not in sequences]. *)
Definition not_requested (sequences : option (list string)) (dir : string)
  : bool :=
  match sequences with
  | None => false
  | Some seqs => negb (bool_decide (dir ∈ seqs))
  end.

(** One turn of the loop of line 94. An [AssertionError] of either loader
    goes on to the next subfolder; any other exception leaves the
    method. *)
Definition load_dir (folder_path : string) (sequences : option (list string))
    (acc : dicts) (dir : string) : res dicts :=
  if not_requested sequences dir then Ret acc
  else
    match Volume_build_from_folder (join folder_path dir) with
    | Exc e => if is_assertion e then Ret acc else Exc e
    | Ret new_volume =>
        let volumes := <[volume_id new_volume := VolumeObj new_volume]> acc.1 in
        match LabelMap_build_from_folder (join folder_path dir) with
        | Exc e => if is_assertion e then Ret (volumes, acc.2) else Exc e
        | Ret new_labelmap =>
            Ret (volumes,
                 <[labelmap_id new_labelmap := LabelMapObj new_labelmap]> acc.2)
        end
    end.

Fixpoint load_dirs (folder_path : string) (sequences : option (list string))
    (acc : dicts) (dirs : list string) : res dicts :=
  match dirs with
  | [] => Ret acc
  | dir :: rest =>
      acc' ← load_dir folder_path sequences acc dir;
      load_dirs folder_path sequences acc' rest
  end.

(** [next(os.walk(folder_path))[1]]: the subfolder names, [StopIteration]
    when the walk yields nothing. *)
Definition subfolders (folder_path : string) : res (list string) :=
  match walk folder_path with
  | [] => Exc StopIteration
  | entry :: _ => Ret entry.1.2
  end.

(** ** The patient object *)

(** The values of the dictionary [total_volume] returns. *)
Inductive value : Type :=
  | VInt (n : Z)
  | VFloat (f : float).

(** A patient as [__init__] leaves it (lines 31-36): the three attributes
    and the cache [_total_volume], which starts as [None]. *)
Record patient_object : Type := {
  attributes : Patient;
  _total_volume : option (gmap string value) }.

Definition Patient_new (cls : Patient_class) (pid : string)
    (volumes_arg labelmaps_arg : option loc) : patient_object := {|
  attributes := Patient_init cls pid volumes_arg labelmaps_arg;
  _total_volume := None |}.

(** [cls(id, volumes, labelmaps)]: the two dictionaries become objects of
    the store and the patient refers to them. *)
Definition Patient_build_from_folder (cls : Patient_class)
    (folder_path : string) (sequences : option (list string))
    (h : gmap loc (gmap string (@object header data)))
  : res (patient_object * gmap loc (gmap string (@object header data))) :=
  let id := basename folder_path in
  dirs ← subfolders folder_path;
  loaded ← load_dirs folder_path sequences (∅, ∅) dirs;
  if decide (loaded.1 = ∅)
  then Exc (AssertionError
              ("No volumes were loaded for patient in folder " +:+ folder_path))
  else
    let lv := fresh (dom h) in
    let h1 := <[lv := loaded.1]> h in
    let ll := fresh (dom h1) in
    Ret (Patient_new cls id (Some lv) (Some ll), <[ll := loaded.2]> h1).

(** ** [Patient.total_volume] (lines 46-67) *)

(** The cells of an array, which holds integers as DICOM pixel data and
    label maps do; [list(d.values())], whose order is the dictionary's own
    and is not recorded in the map; and [np.prod(header["spacings"])] on
    the header of an NRRD file, a [KeyError] when it has no such entry. *)
Variable cells : data → list Z.
Variable values : gmap string (@object header data)
                  → list (@object header data).
Variable nrrd_prod_spacings : nrrd_header → res float.

(** [volume.data] and [volume.header] ask nothing more of the object than
    these attributes. *)
Definition object_data (o : @object header data) : data :=
  match o with
  | VolumeObj v => volume_data v
  | LabelMapObj l => labelmap_data l
  end.

Definition object_header (o : @object header data) : header :=
  match o with
  | VolumeObj v => volume_header v
  | LabelMapObj l => labelmap_header l
  end.

(** [np.count_nonzero(volume.data[volume.data > 5])] *)
Definition count_nonzero_above_5 (d : data) : Z :=
  Z.of_nat (length (filter (λ c, c ≠ 0%Z) (filter (λ c, (5 < c)%Z) (cells d)))).

(** [np.prod(volume.header["spacings"])] *)
Definition prod_spacings (hd : header) : res float :=
  match hd with
  | inl dh => Ret (fmul (fmul (spacings dh).1.1 (spacings dh).1.2)
                        (spacings dh).2)
  | inr nh => nrrd_prod_spacings nh
  end.

(** [voxel * product]: the integer operand is converted to a float. *)
Definition int_times_float (n : Z) (x : float) : res float :=
  match float_of_int n with
  | Ok fn => Ret (fmul fn x)
  | Raise _ => Exc OverflowError
  end.

(** The truth value of [self._total_volume] (line 58): [None] and an empty
    dictionary are false. *)
Definition cached (self : patient_object) : option (gmap string value) :=
  match _total_volume self with
  | Some d => if decide (d = ∅) then None else Some d
  | None => None
  end.

(** The property returns its value, or raises, and leaves the object with
    the cache it has written so far. *)
Definition total_volume (self : patient_object)
    (h : gmap loc (gmap string (@object header data)))
  : res (gmap string value) * patient_object :=
  match cached self with
  | Some d => (Ret d, self)
  | None =>
      match index (values (deref h (volumes (attributes self)))) 0 with
      | Exc e => (Exc e, self)
      | Ret volume =>
          let voxel := count_nonzero_above_5 (object_data volume) in
          let d1 : gmap string value := {["voxel" := VInt voxel]} in
          let self1 := {| attributes := attributes self;
                          _total_volume := Some d1 |} in
          match (product ← prod_spacings (object_header volume);
                 int_times_float voxel product) with
          | Exc e => (Exc e, self1)
          | Ret real =>
              let d3 := <["relative" := VInt 1%Z]>
                          (<["real" := VFloat real]> d1) in
              (Ret d3, {| attributes := attributes self;
                          _total_volume := Some d3 |})
          end
      end
  end.

(** ** Properties of the loaders *)

Ltac res_cases H :=
  repeat match type of H with
  | mbind _ ?x = _ => destruct x eqn:?; simpl in H; [|discriminate H]
  | (?x ≫= _) = _ => destruct x eqn:?; simpl in H; [|discriminate H]
  | (match ?x with Ret _ => _ | Exc _ => _ end) = _ =>
      destruct x eqn:?; simpl in H; [|discriminate H]
  end.

Lemma build_header_Ret (reference : dicom) (slices : nat) (hd : dicom_header) :
  build_header reference slices = Ret hd →
  (dimensions hd).2 = Z.of_nat slices
  ∧ Rows reference = Some (dimensions hd).1.1
  ∧ Columns reference = Some (dimensions hd).1.2
  ∧ SliceThickness reference = Some (spacings hd).2.
Proof.
  unfold build_header, attr. intros H.
  destruct (Rows reference); simpl in H; [|discriminate].
  destruct (Columns reference); simpl in H; [|discriminate].
  destruct (PixelSpacing reference); simpl in H; [|discriminate].
  res_cases H.
  destruct (SliceThickness reference); simpl in H; [|discriminate].
  destruct (ImagePositionPatient reference); simpl in H; [|discriminate].
  res_cases H. simplify_eq/=. split_and!; reflexivity.
Qed.

Lemma Volume_build_from_folder_Ret (folder_path : string) (v : Volume) :
  Volume_build_from_folder folder_path = Ret v →
  volume_id v = basename folder_path
  ∧ basename folder_path ≠ "dixon"
  ∧ basename folder_path ≠ "multiecho"
  ∧ exists_path (join folder_path "dicom") = true
  ∧ ∃ first reference hd,
      list_dicom_filenames (join folder_path "dicom") !! 0 = Some first
      ∧ read_file first = Ret reference
      ∧ build_header reference
          (length (list_dicom_filenames (join folder_path "dicom"))) = Ret hd
      ∧ volume_header v = inl hd.
Proof.
  unfold Volume_build_from_folder. intros H.
  repeat case_decide; try discriminate H.
  destruct (exists_path _) eqn:He; simpl in H; [|discriminate H].
  unfold index in H at 1.
  destruct (list_dicom_filenames _ !! 0) as [first|] eqn:Hfirst; simpl in H;
    [|discriminate H].
  res_cases H. simplify_eq/=. split_and!; auto.
  eexists _, _, _. split_and!; eauto.
Qed.

Lemma Volume_build_from_folder_unsupported (folder_path : string) :
  basename folder_path = "dixon" ∨ basename folder_path = "multiecho"
  ∨ exists_path (join folder_path "dicom") = false →
  ∃ msg, Volume_build_from_folder folder_path = Exc (AssertionError msg).
Proof.
  unfold Volume_build_from_folder. intros H.
  repeat case_decide; eauto.
  destruct H as [?|[?|H]]; try done. rewrite H. simpl. eauto.
Qed.

Lemma Volume_build_from_folder_no_files (folder_path : string) :
  basename folder_path ≠ "dixon" →
  basename folder_path ≠ "multiecho" →
  exists_path (join folder_path "dicom") = true →
  list_dicom_filenames (join folder_path "dicom") = [] →
  Volume_build_from_folder folder_path = Exc IndexError.
Proof.
  unfold Volume_build_from_folder. intros H1 H2 H3 H4.
  repeat case_decide; try done. by rewrite H3, H4.
Qed.

(** X8. [Volume.build_from_folder] on a folder named [dixon] or [multiecho],
    or without a [dicom] subfolder, raises an [AssertionError]; on a folder
    whose [dicom] subfolder lists no [.dcm] file it raises an [IndexError],
    which is not an assertion; and a volume it returns is named after the
    folder, comes from at least one file, and has as many slices in its
    header as there are [.dcm] files, the rows, columns and slice thickness
    being those of the first file. *)
Theorem Volume_build_from_folder_outcomes (folder_path : string) :
  let files := list_dicom_filenames (join folder_path "dicom") in
  (basename folder_path = "dixon" ∨ basename folder_path = "multiecho"
   ∨ exists_path (join folder_path "dicom") = false →
   ∃ msg, Volume_build_from_folder folder_path = Exc (AssertionError msg))
  ∧ (basename folder_path ≠ "dixon" → basename folder_path ≠ "multiecho" →
     exists_path (join folder_path "dicom") = true → files = [] →
     Volume_build_from_folder folder_path = Exc IndexError)
  ∧ (∀ v, Volume_build_from_folder folder_path = Ret v →
       volume_id v = basename folder_path
       ∧ ∃ first reference hd,
           files !! 0 = Some first
           ∧ read_file first = Ret reference
           ∧ volume_header v = inl hd
           ∧ dimensions hd
             = (default 0%Z (Rows reference), default 0%Z (Columns reference),
                Z.of_nat (length files))
           ∧ SliceThickness reference = Some (spacings hd).2).
Proof.
  intros files. split_and!.
  - apply Volume_build_from_folder_unsupported.
  - apply Volume_build_from_folder_no_files.
  - intros v Hv.
    apply Volume_build_from_folder_Ret
      in Hv as (Hid & _ & _ & _ & first & reference & hd & Hf & Hr & Hh & Hv).
    split; [exact Hid|]. exists first, reference, hd.
    apply build_header_Ret in Hh as (Hd & Hrows & Hcols & Hth).
    split_and!; auto. rewrite Hrows, Hcols. simpl. fold files in Hd.
    rewrite <- Hd. by destruct (dimensions hd) as [[??]?].
Qed.

Lemma LabelMap_build_from_folder_Ret (folder_path : string) (l : LabelMap) :
  LabelMap_build_from_folder folder_path = Ret l →
  labelmap_id l = basename folder_path.
Proof.
  unfold LabelMap_build_from_folder. intros H.
  destruct (glob _); [discriminate|]. res_cases H. by simplify_eq/=.
Qed.

(** ** Properties of [Patient.build_from_folder] *)

(** What an entry of the loaded dictionaries is: the volume, or label map,
    built from a requested subfolder, under its id. *)
Definition loaded_volume (folder_path : string)
    (sequences : option (list string)) (dirs : list string)
    (k : string) (o : @object header data) : Prop :=
  ∃ v dir, o = VolumeObj v ∧ volume_id v = k
           ∧ k = basename (join folder_path dir)
           ∧ dir ∈ dirs ∧ not_requested sequences dir = false
           ∧ Volume_build_from_folder (join folder_path dir) = Ret v.

Definition loaded_labelmap (folder_path : string)
    (sequences : option (list string)) (dirs : list string)
    (k : string) (o : @object header data) : Prop :=
  ∃ l dir, o = LabelMapObj l ∧ labelmap_id l = k
           ∧ k = basename (join folder_path dir)
           ∧ dir ∈ dirs ∧ not_requested sequences dir = false
           ∧ LabelMap_build_from_folder (join folder_path dir) = Ret l.

Definition loaded_inv (folder_path : string)
    (sequences : option (list string)) (dirs : list string)
    (acc : dicts) : Prop :=
  (∀ k o, acc.1 !! k = Some o → loaded_volume folder_path sequences dirs k o)
  ∧ (∀ k o, acc.2 !! k = Some o →
       loaded_labelmap folder_path sequences dirs k o ∧ is_Some (acc.1 !! k)).

Lemma load_dir_inv (folder_path : string) (sequences : option (list string))
    (dirs : list string) (acc acc' : dicts) (dir : string) :
  dir ∈ dirs →
  loaded_inv folder_path sequences dirs acc →
  load_dir folder_path sequences acc dir = Ret acc' →
  loaded_inv folder_path sequences dirs acc'.
Proof.
  intros Hin [Hv Hl]. unfold load_dir.
  destruct (not_requested sequences dir) eqn:Hreq; [by intros [= <-]|].
  destruct (Volume_build_from_folder (join folder_path dir)) as [v|e] eqn:Hvol.
  2:{ destruct (is_assertion e); [by intros [= <-]|discriminate]. }
  pose proof (Volume_build_from_folder_Ret _ _ Hvol) as (Hid & _).
  assert (Hv' : ∀ k o, <[volume_id v:=VolumeObj v]> acc.1 !! k = Some o →
                       loaded_volume folder_path sequences dirs k o).
  { intros k o. destruct (decide (k = volume_id v)) as [->|Hk].
    - rewrite lookup_insert_eq. intros [= <-]. exists v, dir. by split_and!.
    - rewrite lookup_insert_ne by done. apply Hv. }
  assert (Hl' : ∀ k o, acc.2 !! k = Some o →
      loaded_labelmap folder_path sequences dirs k o
      ∧ is_Some (<[volume_id v:=VolumeObj v]> acc.1 !! k)).
  { intros k o Hk. destruct (Hl k o Hk) as [? ?]. split; [done|].
    destruct (decide (k = volume_id v)) as [->|Hne].
    - rewrite lookup_insert_eq. eauto.
    - by rewrite lookup_insert_ne. }
  destruct (LabelMap_build_from_folder (join folder_path dir)) as [l|e] eqn:Hlab.
  2:{ destruct (is_assertion e); [|discriminate]. intros [= <-]. by split. }
  intros [= <-]. split; [exact Hv'|]. simpl.
  pose proof (LabelMap_build_from_folder_Ret _ _ Hlab) as Hlid.
  intros k o. destruct (decide (k = labelmap_id l)) as [->|Hk].
  - rewrite lookup_insert_eq. intros [= <-]. split.
    + exists l, dir. by split_and!.
    + rewrite Hlid, <- Hid, lookup_insert_eq. eauto.
  - rewrite lookup_insert_ne by done. apply Hl'.
Qed.

Lemma load_dirs_inv (folder_path : string) (sequences : option (list string))
    (dirs ds : list string) (acc acc' : dicts) :
  ds ⊆ dirs →
  loaded_inv folder_path sequences dirs acc →
  load_dirs folder_path sequences acc ds = Ret acc' →
  loaded_inv folder_path sequences dirs acc'.
Proof.
  revert acc. induction ds as [|dir ds IH]; intros acc Hsub Hinv; simpl.
  - by intros [= <-].
  - destruct (load_dir folder_path sequences acc dir) as [acc1|e] eqn:Hd;
      simpl; [|discriminate].
    apply IH; [set_solver|].
    eapply load_dir_inv; [|exact Hinv|exact Hd]. set_solver.
Qed.

(** With no volume loaded, the volume loader raised an assertion on every
    requested subfolder. *)
Lemma load_dirs_no_volume (folder_path : string)
    (sequences : option (list string)) (ds : list string) (acc acc' : dicts) :
  load_dirs folder_path sequences acc ds = Ret acc' →
  acc'.1 = ∅ →
  acc.1 = ∅
  ∧ ∀ dir, dir ∈ ds → not_requested sequences dir = false →
      ∃ e, Volume_build_from_folder (join folder_path dir) = Exc e
           ∧ is_assertion e = true.
Proof.
  revert acc. induction ds as [|dir ds IH]; intros acc; simpl.
  - intros [= <-] He. split; [done|]. intros dir Hin. by apply elem_of_nil in Hin.
  - destruct (load_dir folder_path sequences acc dir) as [acc1|e] eqn:Hd;
      simpl; [|discriminate].
    intros Hrest He. destruct (IH _ Hrest He) as [He1 Hall].
    unfold load_dir in Hd.
    destruct (not_requested sequences dir) eqn:Hreq.
    { injection Hd as <-. split; [done|]. intros d [->|Hin]%elem_of_cons ?;
        [congruence|by apply Hall]. }
    destruct (Volume_build_from_folder (join folder_path dir)) as [v|e] eqn:Hvol.
    { exfalso.
      destruct (LabelMap_build_from_folder (join folder_path dir)) as [l|e];
        [|destruct (is_assertion e); [|discriminate]];
        injection Hd as <-; simpl in He1; by apply insert_non_empty in He1. }
    destruct (is_assertion e) eqn:Has; [|discriminate]. injection Hd as <-.
    split; [done|]. intros d [->|Hin]%elem_of_cons ?; [eauto|by apply Hall].
Qed.

(** An exception that leaves the loop is no assertion, and one of the two
    loaders raised it on a requested subfolder. *)
Lemma load_dirs_Exc (folder_path : string) (sequences : option (list string))
    (ds : list string) (acc : dicts) (e : exc) :
  load_dirs folder_path sequences acc ds = Exc e →
  is_assertion e = false
  ∧ ∃ dir, dir ∈ ds ∧ not_requested sequences dir = false
      ∧ (Volume_build_from_folder (join folder_path dir) = Exc e
         ∨ (∃ v, Volume_build_from_folder (join folder_path dir) = Ret v)
           ∧ LabelMap_build_from_folder (join folder_path dir) = Exc e).
Proof.
  revert acc. induction ds as [|dir ds IH]; intros acc; simpl; [discriminate|].
  destruct (load_dir folder_path sequences acc dir) as [acc1|e1] eqn:Hd; simpl.
  - intros (Ha & d & Hin & Hd') %IH. split; [done|]. exists d.
    split; [apply elem_of_cons; by right|done].
  - intros [= ->]. unfold load_dir in Hd.
    destruct (not_requested sequences dir) eqn:Hreq; [discriminate|].
    destruct (Volume_build_from_folder (join folder_path dir)) as [v|e1] eqn:Hvol.
    + destruct (LabelMap_build_from_folder (join folder_path dir))
        as [l|e1] eqn:Hlab; [discriminate|].
      destruct (is_assertion e1) eqn:Has; [discriminate|]. injection Hd as ->.
      split; [done|]. exists dir. split_and!; [apply elem_of_cons; by left|done|]. right. eauto.
    + destruct (is_assertion e1) eqn:Has; [discriminate|]. injection Hd as ->.
      split; [done|]. exists dir. split_and!; [apply elem_of_cons; by left|done|]. by left.
Qed.


(** X10. A patient [build_from_folder] returns is named after the folder and
    holds two new dictionaries, apart from each other and from every
    dictionary there was, the defaults of the class among them, which are
    left as they were. Its [volumes] is not empty; each entry of it is the
    volume built from a requested subfolder, under that folder's name;
    each entry of [labelmaps] is the label map built from a requested
    subfolder, and [volumes] has an entry under the same key. *)
Theorem Patient_build_from_folder_Ret (cls : Patient_class)
    (folder_path : string) (sequences : option (list string))
    (h h' : gmap loc (gmap string (@object header data)))
    (p : patient_object) :
  Patient_build_from_folder cls folder_path sequences h = Ret (p, h') →
  ∃ dirs,
    subfolders folder_path = Ret dirs
    ∧ id (attributes p) = basename folder_path
    ∧ _total_volume p = None
    ∧ h !! volumes (attributes p) = None
    ∧ h !! labelmaps (attributes p) = None
    ∧ volumes (attributes p) ≠ labelmaps (attributes p)
    ∧ (∀ l d, h !! l = Some d → h' !! l = Some d)
    ∧ deref h' (volumes (attributes p)) ≠ ∅
    ∧ (∀ k o, deref h' (volumes (attributes p)) !! k = Some o →
         loaded_volume folder_path sequences dirs k o)
    ∧ (∀ k o, deref h' (labelmaps (attributes p)) !! k = Some o →
         loaded_labelmap folder_path sequences dirs k o
         ∧ is_Some (deref h' (volumes (attributes p)) !! k)).
Proof.
  unfold Patient_build_from_folder. intros H.
  destruct (subfolders folder_path) as [dirs|] eqn:Hdirs; simpl in H;
    [|discriminate].
  destruct (load_dirs folder_path sequences (∅, ∅) dirs) as [loaded|] eqn:Hload;
    simpl in H; [|discriminate].
  case_decide as Hne; [discriminate|].
  assert (Hinv : loaded_inv folder_path sequences dirs loaded).
  { eapply load_dirs_inv; [reflexivity| |exact Hload].
    split; intros k o; simpl; rewrite lookup_empty; discriminate. }
  destruct Hinv as [Hv Hl].
  set (lv := fresh (dom h)) in *.
  set (ll := fresh (dom (<[lv:=loaded.1]> h))) in *.
  assert (Hlv : h !! lv = None) by apply not_elem_of_dom, is_fresh.
  assert (Hll' : <[lv:=loaded.1]> h !! ll = None) by apply not_elem_of_dom, is_fresh.
  assert (Hlne : lv ≠ ll).
  { intros Heq. rewrite <- Heq, lookup_insert_eq in Hll'. discriminate. }
  assert (Hll : h !! ll = None) by by rewrite lookup_insert_ne in Hll'.
  injection H as <- <-. exists dirs. unfold deref. simpl.
  rewrite lookup_insert_eq, lookup_insert_ne, lookup_insert_eq by done. simpl.
  split_and!; auto.
  intros l d Hld. rewrite !lookup_insert_ne; [done| |]; congruence.
Qed.

(** X11. An exception [build_from_folder] raises is [StopIteration], when the
    walk of the folder yields nothing; or the assertion that no volume was
    loaded, when the volume loader raised an assertion on every requested
    subfolder; or an exception that is no assertion, raised by the volume
    loader, or by the label map loader after the volume was built, on a
    requested subfolder. *)
Theorem Patient_build_from_folder_Exc (cls : Patient_class)
    (folder_path : string) (sequences : option (list string))
    (h : gmap loc (gmap string (@object header data))) (e : exc) :
  Patient_build_from_folder cls folder_path sequences h = Exc e →
  (e = StopIteration ∧ walk folder_path = [])
  ∨ ∃ dirs,
      subfolders folder_path = Ret dirs
      ∧ ((e = AssertionError
                ("No volumes were loaded for patient in folder " +:+ folder_path)
          ∧ ∀ dir, dir ∈ dirs → not_requested sequences dir = false →
              ∃ e', Volume_build_from_folder (join folder_path dir) = Exc e'
                    ∧ is_assertion e' = true)
         ∨ (is_assertion e = false
            ∧ ∃ dir, dir ∈ dirs ∧ not_requested sequences dir = false
                ∧ (Volume_build_from_folder (join folder_path dir) = Exc e
                   ∨ (∃ v, Volume_build_from_folder (join folder_path dir)
                           = Ret v)
                     ∧ LabelMap_build_from_folder (join folder_path dir)
                       = Exc e))).
Proof.
  unfold Patient_build_from_folder. intros H.
  destruct (subfolders folder_path) as [dirs|e0] eqn:Hdirs; simpl in H.
  2:{ left. unfold subfolders in Hdirs. destruct (walk folder_path) as [|[[??]?]?];
        [|discriminate]. split; congruence. }
  right. exists dirs. split; [done|].
  destruct (load_dirs folder_path sequences (∅, ∅) dirs) as [loaded|e0] eqn:Hload;
    simpl in H.
  - case_decide as Hne; [|discriminate]. injection H as <-. left.
    split; [done|]. by apply (load_dirs_no_volume _ _ _ _ _ Hload).
  - injection H as ->. right. by apply load_dirs_Exc in Hload.
Qed.

(** X12. Where every subfolder is left out by [sequences], is named [dixon] or
    [multiecho], or has no [dicom] subfolder, [build_from_folder] raises
    the assertion that no volume was loaded. *)
Theorem nothing_loadable_no_patient (cls : Patient_class)
    (folder_path : string) (sequences : option (list string))
    (h : gmap loc (gmap string (@object header data)))
    (path : string) (dirs files : list string)
    (rest : list (string * list string * list string)) :
  walk folder_path = (path, dirs, files) :: rest →
  (∀ dir, dir ∈ dirs →
     not_requested sequences dir = true
     ∨ basename (join folder_path dir) = "dixon"
     ∨ basename (join folder_path dir) = "multiecho"
     ∨ exists_path (join (join folder_path dir) "dicom") = false) →
  Patient_build_from_folder cls folder_path sequences h
  = Exc (AssertionError
           ("No volumes were loaded for patient in folder " +:+ folder_path)).
Proof.
  intros Hwalk Hall. unfold Patient_build_from_folder, subfolders.
  rewrite Hwalk. simpl.
  assert (Hload : load_dirs folder_path sequences (∅, ∅) dirs = Ret (∅, ∅)).
  { clear Hwalk. induction dirs as [|dir ds IH]; simpl; [done|].
    assert (Hd : load_dir folder_path sequences (∅, ∅) dir = Ret (∅, ∅)).
    { unfold load_dir.
      destruct (Hall dir) as [->|Hun]; [apply elem_of_cons; by left|done|].
      destruct (not_requested sequences dir); [done|].
      destruct (Volume_build_from_folder_unsupported _ Hun) as [msg ->]. done. }
    rewrite Hd. simpl. apply IH. intros d Hd'. apply Hall, elem_of_cons. by right. }
  rewrite Hload. simpl. by case_decide.
Qed.


(** ** Properties of [total_volume] *)

(** The dictionary's order is not recorded in the map: its values are
    taken in some order. *)
Hypothesis values_perm : ∀ m, values m ≡ₚ (map_to_list m).*2.

Lemma values_empty (m : gmap string (@object header data)) :
  m = ∅ → values m = [].
Proof.
  intros ->. apply Permutation_nil_r. rewrite values_perm.
  by rewrite map_to_list_empty.
Qed.

Lemma values_first (m : gmap string (@object header data)) :
  m ≠ ∅ → ∃ o rest k, values m = o :: rest ∧ m !! k = Some o.
Proof.
  intros Hne. destruct (values m) as [|o rest] eqn:Hv.
  - exfalso. apply Hne, map_to_list_empty_iff, (fmap_nil_inv snd).
    apply Permutation_nil_r. by rewrite <- values_perm, Hv.
  - assert (Hin : o ∈ (map_to_list m).*2).
    { rewrite <- values_perm, Hv. apply elem_of_cons. by left. }
    apply list_elem_of_fmap in Hin as ([k o'] & -> & Hin).
    apply elem_of_map_to_list in Hin. eauto.
Qed.

(** Cells above 5 are not zero: counting the non-zero ones among them
    counts them all. *)
Lemma count_nonzero_above_5_eq (d : data) :
  count_nonzero_above_5 d
  = Z.of_nat (length (filter (λ c, (5 < c)%Z) (cells d))).
Proof.
  unfold count_nonzero_above_5. do 2 f_equal.
  induction (cells d) as [|c l IH]; [done|].
  rewrite (filter_cons (λ c, (5 < c)%Z)). case_decide; [|exact IH].
  rewrite filter_cons_True by lia. by rewrite IH.
Qed.

(** X14. The first read of [total_volume]. Without a volume it raises an
    [IndexError] and caches nothing. With some, it takes one object [o] of
    [volumes] and counts its cells above 5: it returns the dictionary of
    that count, of the count times the product of the spacings, and of the
    relative value 1, and caches it; where the product or the
    multiplication raises, the exception leaves the property with the
    count alone in the cache. *)
Theorem total_volume_first_read (self : patient_object)
    (h : gmap loc (gmap string (@object header data))) :
  cached self = None →
  (deref h (volumes (attributes self)) = ∅ →
   total_volume self h = (Exc IndexError, self))
  ∧ (deref h (volumes (attributes self)) ≠ ∅ →
     ∃ k o, deref h (volumes (attributes self)) !! k = Some o
       ∧ let n := Z.of_nat (length (filter (λ c, (5 < c)%Z)
                                           (cells (object_data o)))) in
         match prod_spacings (object_header o) ≫= int_times_float n with
         | Ret real =>
             ∃ d, total_volume self h
                  = (Ret d, {| attributes := attributes self;
                               _total_volume := Some d |})
                  ∧ d !! "voxel" = Some (VInt n)
                  ∧ d !! "real" = Some (VFloat real)
                  ∧ d !! "relative" = Some (VInt 1)
                  ∧ dom d = {["voxel"; "real"; "relative"]}
         | Exc e =>
             total_volume self h
             = (Exc e, {| attributes := attributes self;
                          _total_volume := Some {["voxel" := VInt n]} |})
         end).
Proof.
  intros Hc. unfold total_volume. rewrite Hc. split.
  - intros He. by rewrite values_empty.
  - intros Hne. destruct (values_first _ Hne) as (o & rest & k & Hv & Hk).
    exists k, o. split; [exact Hk|]. rewrite Hv. simpl.
    rewrite count_nonzero_above_5_eq.
    destruct (prod_spacings (object_header o) ≫= _) as [real|e]; [|done].
    eexists. split; [reflexivity|].
    split_and!; done.
Qed.

(** X15. [total_volume] is computed once. After a first read with a volume to
    take, whether it returned or raised, every later read returns the
    cached dictionary and changes nothing, whatever [volumes] holds by
    then; and after a first read that raised, what later reads return has
    a count and neither a real nor a relative value. *)
Theorem total_volume_computed_once (self : patient_object)
    (h h2 : gmap loc (gmap string (@object header data))) :
  cached self = None →
  deref h (volumes (attributes self)) ≠ ∅ →
  ∃ d n,
    _total_volume (total_volume self h).2 = Some d
    ∧ attributes (total_volume self h).2 = attributes self
    ∧ d !! "voxel" = Some (VInt n)
    ∧ total_volume (total_volume self h).2 h2
      = (Ret d, (total_volume self h).2)
    ∧ (∀ e, (total_volume self h).1 = Exc e →
         d !! "real" = None ∧ d !! "relative" = None)
    ∧ (∀ d', (total_volume self h).1 = Ret d' →
         d' = d ∧ is_Some (d !! "real") ∧ d !! "relative" = Some (VInt 1)).
Proof.
  intros Hc Hne.
  destruct (values_first _ Hne) as (o & rest & k & Hv & Hk).
  assert (Hfirst : ∃ r d,
    total_volume self h
    = (r, {| attributes := attributes self; _total_volume := Some d |})
    ∧ d !! "voxel" = Some (VInt (count_nonzero_above_5 (object_data o)))
    ∧ ((∃ e, r = Exc e ∧ d !! "real" = None ∧ d !! "relative" = None)
       ∨ (r = Ret d ∧ is_Some (d !! "real")
          ∧ d !! "relative" = Some (VInt 1)))).
  { unfold total_volume. rewrite Hc, Hv. simpl.
    destruct (prod_spacings (object_header o) ≫= _) as [real|e];
      eexists _, _; (split; [reflexivity|]); (split; [done|]).
    - right. split_and!; [done|by eexists|done].
    - left. by exists e. }
  destruct Hfirst as (r & d & -> & Hvox & Hcase). simpl.
  exists d, (count_nonzero_above_5 (object_data o)). split_and!; try done.
  - unfold total_volume, cached. simpl.
    case_decide as Hd; [|done]. by rewrite Hd, lookup_empty in Hvox.
  - intros e ->. destruct Hcase as [(e' & _ & ? & ?)|(? & _)]; [done|discriminate].
  - intros d' ->. destruct Hcase as [(e' & ? & _)|(Hd & ? & ?)]; [discriminate|].
    by injection Hd as ->.
Qed.

End Loading.

(** ** The file names taken for DICOM files *)

Lemma ascii_lower_inv (c : Ascii.ascii) :
  (String (ascii_lower c) "" = "." → String c "" = ".")
  ∧ (String (ascii_lower c) "" = "d" → String c "" = "d" ∨ String c "" = "D")
  ∧ (String (ascii_lower c) "" = "c" → String c "" = "c" ∨ String c "" = "C")
  ∧ (String (ascii_lower c) "" = "m" → String c "" = "m" ∨ String c "" = "M").
Proof.
  destruct c as [[] [] [] [] [] [] [] []]; vm_compute;
    split_and!; intros H; first [discriminate H|auto].
Qed.

Lemma list_ascii_of_string_app (s t : string) :
  String.list_ascii_of_string (s +:+ t)
  = String.list_ascii_of_string s ++ String.list_ascii_of_string t.
Proof. induction s as [|c s IH]; simpl; [done|by rewrite IH]. Qed.

Lemma string_of_list_ascii_app (l k : list Ascii.ascii) :
  String.string_of_list_ascii (l ++ k)
  = String.string_of_list_ascii l +:+ String.string_of_list_ascii k.
Proof. induction l as [|c l IH]; simpl; [done|by rewrite IH]. Qed.

(** X9. The DICOM files of a folder are those whose name ends in [.dcm] in
    any mix of upper and lower case, the name that is nothing but the
    extension among them. *)
Theorem is_dcm_iff (file : string) :
  is_dcm file = true ↔
  ∃ stem ext, file = stem +:+ ext
              ∧ ext ∈ [".dcm"; ".dcM"; ".dCm"; ".dCM";
                       ".Dcm"; ".DcM"; ".DCm"; ".DCM"].
Proof.
  unfold is_dcm, endswith, lower.
  rewrite bool_decide_eq_true, String.list_ascii_of_string_of_list_ascii.
  split.
  - intros [k Hk].
    apply fmap_app_inv in Hk as (l1 & l2 & -> & Hl2 & Hfile).
    destruct l2 as [|a [|b [|c [|d [|]]]]]; try discriminate Hl2.
    injection Hl2 as Ha Hb Hc Hd. symmetry in Ha, Hb, Hc, Hd.
    exists (String.string_of_list_ascii l1), (String.string_of_list_ascii [a; b; c; d]).
    split.
    + by rewrite <- string_of_list_ascii_app, <- Hfile,
        String.string_of_list_ascii_of_string.
    + destruct (ascii_lower_inv a) as (Ha' & _).
      destruct (ascii_lower_inv b) as (_ & Hb' & _).
      destruct (ascii_lower_inv c) as (_ & _ & Hc' & _).
      destruct (ascii_lower_inv d) as (_ & _ & _ & Hd').
      specialize (Ha' (f_equal (λ x, String x "") Ha)).
      specialize (Hb' (f_equal (λ x, String x "") Hb)).
      specialize (Hc' (f_equal (λ x, String x "") Hc)).
      specialize (Hd' (f_equal (λ x, String x "") Hd)).
      injection Ha' as ->.
      destruct Hb' as [[= ->]|[= ->]], Hc' as [[= ->]|[= ->]],
        Hd' as [[= ->]|[= ->]]; simpl; set_solver.
  - intros (stem & ext & -> & Hext).
    exists (ascii_lower <$> String.list_ascii_of_string stem).
    rewrite list_ascii_of_string_app, fmap_app. f_equal.
    repeat (apply elem_of_cons in Hext as [->|Hext]; [reflexivity|]).
    by apply elem_of_nil in Hext.
Qed.

End LicLoad.

Import LicLoad.

(* ===================================================================== *)
(** * A small file system, and the loaders on it                          *)
(* ===================================================================== *)

Module LoadDemo.

(** Paths are joined with a slash; the base name is what follows the last
    one. *)
Definition join (a b : string) : string := a +:+ "/" +:+ b.

Fixpoint basename_from (acc s : string) : string :=
  match s with
  | EmptyString => acc
  | String c rest =>
      if decide (String c "" = "/") then basename_from "" rest
      else basename_from (acc +:+ String c "") rest
  end.

Definition basename (p : string) : string := basename_from "" p.

(** Three patient folders. [p4] has the sequences [t2] (two slices, one
    file that is no DICOM file, and a label map), [dixon], and [notes],
    which has no [dicom] subfolder; [p5] has a [t2] whose [dicom] subfolder
    holds no DICOM file, between a [notes] and a [t1]; [p6] has [dixon]
    and [notes] alone. *)
Definition walk (p : string) : list (string * list string * list string) :=
  if decide (p = "p4") then [("p4", ["t2"; "dixon"; "notes"], ["info.txt"])]
  else if decide (p = "p4/t2/dicom")
  then [("p4/t2/dicom", [], ["2.dcm"; "readme.txt"; "1.DCM"])]
  else if decide (p = "p4/dixon/dicom")
  then [("p4/dixon/dicom", [], ["1.dcm"])]
  else if decide (p = "p5") then [("p5", ["notes"; "t2"; "t1"], [])]
  else if decide (p = "p5/t2/dicom")
  then [("p5/t2/dicom", [], ["readme.txt"])]
  else if decide (p = "p6") then [("p6", ["dixon"; "notes"], [])]
  else if decide (p = "p6/dixon/dicom")
  then [("p6/dixon/dicom", [], ["1.dcm"])]
  else [].

Definition exists_path (p : string) : bool :=
  bool_decide (p ∈ ["p4/t2/dicom"; "p4/dixon/dicom"; "p5/t2/dicom";
                    "p6/dixon/dicom"]).

(** File names without runs of digits, which the natural order sorts as
    the order of strings does. *)
Definition natsorted (files : list string) : list string :=
  merge_sort (λ a b, Is_true (String.leb a b)) files.

(** An array is the list of its slices, a slice the list of its rows. *)
Definition pixels : Type := list (list Z).
Definition data : Type := list (list (list Z)).

Definition slice_of (name : string) : pixels :=
  if decide (name = "p4/t2/dicom/1.DCM") then [[0; 7]; [9; 3]]%Z
  else [[6; 6]; [0; 100]]%Z.

Definition read_file (name : string) : res (@dicom pixels) :=
  Ret {| Rows := Some 2%Z; Columns := Some 2%Z;
         PixelSpacing := Some [f0_5; f0_5];
         SliceThickness := Some f2;
         ImagePositionPatient := Some [f0; f0; f0];
         pixel_array := Ret (slice_of name) |}.

Definition glob (pattern : string) : list string :=
  if decide (pattern = "p4/t2/*_t2_labelmap.nrrd")
  then ["p4/t2/liver_t2_labelmap.nrrd"] else [].

Definition nrrd_read (name : string) : res (data * unit) :=
  Ret ([[[0; 1]; [0; 0]]; [[1; 1]; [0; 0]]]%Z, tt).

Definition transpose_102 (d : data) : res data :=
  Ret ((λ rows, (λ j, (λ r, default 0%Z (r !! j)) <$> rows)
                  <$> seq 0 (length (default [] (head rows)))) <$> d).

Definition np_zeros (shape : Z * Z * Z) (t : unit) : res data :=
  Ret (replicate (Z.to_nat shape.2)
         (replicate (Z.to_nat shape.1.1) (replicate (Z.to_nat shape.1.2) 0%Z))).

Definition set_slice (d : data) (k : nat) (px : pixels) : res data :=
  if decide (k < length d) then Ret (<[k := px]> d) else Exc IndexError.

Definition pixel_dtype (px : pixels) : unit := tt.

Definition cells (d : data) : list Z := concat (concat d).

Definition values (m : gmap string (@object (@header unit) data))
  : list (@object (@header unit) data) := (map_to_list m).*2.

Definition nrrd_prod_spacings (nh : unit) : res float :=
  Exc (KeyError "spacings").

Definition Volume_at (folder_path : string) : res (@Volume (@header unit) data) :=
  Volume_build_from_folder basename join exists_path walk natsorted read_file
    np_zeros set_slice pixel_dtype folder_path.

Definition LabelMap_at (folder_path : string)
  : res (@LabelMap (@header unit) data) :=
  LabelMap_build_from_folder basename join glob nrrd_read transpose_102
    folder_path.

(** The class and the store as the [class] statement leaves them. *)
Definition Patient_cls : Patient_class :=
  (define_Patient (header := @header unit) (data := data) ∅).1.

Definition store0 : gmap loc (gmap string (@object (@header unit) data)) :=
  (define_Patient ∅).2.

Definition Patient_at (folder_path : string) (sequences : option (list string))
  : res (patient_object * gmap loc (gmap string (@object (@header unit) data))) :=
  Patient_build_from_folder basename join exists_path walk natsorted read_file
    glob nrrd_read transpose_102 np_zeros set_slice pixel_dtype
    Patient_cls folder_path sequences store0.

(** The [t2] volume of [p4]: the two DICOM files in their sorted order. *)
Example t2_volume :
  Volume_at "p4/t2"
  = Ret {| volume_id := "t2";
           volume_header := inl {| dimensions := (2, 2, 2)%Z;
                                   spacings := (f0_5, f0_5, f2);
                                   initial_position := (f0, f0, f0) |};
           volume_data := [[[0; 7]; [9; 3]]; [[6; 6]; [0; 100]]]%Z |}.
Proof. vm_compute. reflexivity. Qed.

(** The patient of [p4]: [t2] is loaded with its label map, [dixon] and
    [notes] are passed over. *)
Lemma Patient_build_from_folder_Ret_witness :
  ∃ p h' dirs,
    Patient_at "p4" None = Ret (p, h')
    ∧ subfolders walk "p4" = Ret dirs
    ∧ id (attributes p) = basename "p4"
    ∧ _total_volume p = None
    ∧ store0 !! volumes (attributes p) = None
    ∧ store0 !! labelmaps (attributes p) = None
    ∧ volumes (attributes p) ≠ labelmaps (attributes p)
    ∧ (∀ l d, store0 !! l = Some d → h' !! l = Some d)
    ∧ deref h' (volumes (attributes p)) ≠ ∅
    ∧ (∀ k o, deref h' (volumes (attributes p)) !! k = Some o →
         loaded_volume basename join exists_path walk natsorted read_file
           np_zeros set_slice pixel_dtype "p4" None dirs k o)
    ∧ (∀ k o, deref h' (labelmaps (attributes p)) !! k = Some o →
         loaded_labelmap basename join glob nrrd_read transpose_102
           "p4" None dirs k o
         ∧ is_Some (deref h' (volumes (attributes p)) !! k)).
Proof.
  destruct (Patient_at "p4" None) as [[p h']|e] eqn:Hrun;
    [|vm_compute in Hrun; discriminate].
  exists p, h'.
  destruct (Patient_build_from_folder_Ret basename join exists_path walk
              natsorted read_file glob nrrd_read transpose_102 np_zeros
              set_slice pixel_dtype Patient_cls "p4" None store0 h' p Hrun)
    as (dirs & H).
  exists dirs. split; [reflexivity|exact H].
Defined.

(** The patient of [p5]: the [IndexError] of its [t2] leaves the method. *)
Lemma Patient_build_from_folder_Exc_witness :
  Patient_at "p5" None = Exc IndexError
  ∧ ((IndexError = StopIteration ∧ walk "p5" = [])
     ∨ ∃ dirs,
         subfolders walk "p5" = Ret dirs
         ∧ ((IndexError = AssertionError
               ("No volumes were loaded for patient in folder " +:+ "p5")
             ∧ ∀ dir, dir ∈ dirs → not_requested None dir = false →
                 ∃ e', Volume_at (join "p5" dir) = Exc e'
                       ∧ is_assertion e' = true)
            ∨ (is_assertion IndexError = false
               ∧ ∃ dir, dir ∈ dirs ∧ not_requested None dir = false
                   ∧ (Volume_at (join "p5" dir) = Exc IndexError
                      ∨ (∃ v, Volume_at (join "p5" dir) = Ret v)
                        ∧ LabelMap_at (join "p5" dir) = Exc IndexError)))).
Proof.
  split; [vm_compute; reflexivity|].
  apply (Patient_build_from_folder_Exc basename join exists_path walk
           natsorted read_file glob nrrd_read transpose_102 np_zeros
           set_slice pixel_dtype Patient_cls "p5" None store0 IndexError).
  vm_compute. reflexivity.
Defined.

(** The patient of [p6], which has [dixon] and [notes] alone. *)
Lemma nothing_loadable_no_patient_witness :
  Patient_at "p6" None
  = Exc (AssertionError "No volumes were loaded for patient in folder p6").
Proof.
  apply (nothing_loadable_no_patient basename join exists_path walk natsorted
           read_file glob nrrd_read transpose_102 np_zeros set_slice
           pixel_dtype Patient_cls "p6" None store0 "p6" ["dixon"; "notes"] []
           []).
  - reflexivity.
  - intros dir Hin.
    apply elem_of_cons in Hin as [->|Hin]; [right; left; reflexivity|].
    apply elem_of_cons in Hin as [->|Hin];
      [right; right; right; reflexivity|].
    by apply elem_of_nil in Hin.
Defined.


Example p4_patient :
  match Patient_at "p4" None with
  | Ret (p, h') =>
      id (attributes p) = "p4"
      ∧ (map_to_list (deref h' (volumes (attributes p)))).*1 = ["t2"]
      ∧ (map_to_list (deref h' (labelmaps (attributes p)))).*1 = ["t2"]
  | Exc _ => False
  end.
Proof. vm_compute. auto. Qed.

(** Its label map, each slice transposed. *)
Example t2_labelmap :
  LabelMap_at "p4/t2"
  = Ret {| labelmap_id := "t2"; labelmap_header := inr tt;
           labelmap_data := [[[0; 0]; [1; 0]]; [[1; 0]; [1; 0]]]%Z |}.
Proof. vm_compute. reflexivity. Qed.

(** ** [total_volume] on the [t2] volume *)

Definition t2 : @Volume (@header unit) data := {|
  volume_id := "t2";
  volume_header := inl {| dimensions := (2, 2, 2)%Z;
                          spacings := (f0_5, f0_5, f2);
                          initial_position := (f0, f0, f0) |};
  volume_data := [[[0; 7]; [9; 3]]; [[6; 6]; [0; 100]]]%Z |}.

(** The same array under a header without spacings. *)
Definition t2_bare : @Volume (@header unit) data := {|
  volume_id := "t2"; volume_header := inr tt; volume_data := volume_data t2 |}.

Definition patient0 : patient_object := Patient_new Patient_cls "p4" None None.

Definition total_volume_at (self : patient_object)
    (h : gmap loc (gmap string (@object (@header unit) data)))
  : res (gmap string value) * patient_object :=
  total_volume cells values nrrd_prod_spacings self h.

(** Five cells of [t2] are above 5, and a voxel measures 0.5 x 0.5 x 2.0:
    the total volume is 5 voxels, 2.5 in real units. *)
Example t2_total_volume :
  (total_volume_at patient0 (add_volume (attributes patient0) t2 store0)).1
  = Ret {["voxel" := VInt 5; "real" := VFloat (S754_finite false 5629499534213120 (-51));
          "relative" := VInt 1]}.
Proof. vm_compute. reflexivity. Qed.

(** After a first read that raised, the second returns the count alone. *)
Example total_volume_after_failure :
  let h := add_volume (attributes patient0) t2_bare store0 in
  (total_volume_at patient0 h).1 = Exc (KeyError "spacings")
  ∧ (total_volume_at (total_volume_at patient0 h).2 h).1
    = Ret {["voxel" := VInt 5]}.
Proof. vm_compute. split; reflexivity. Qed.

(** The store once [t2] is added to the patient's volumes. *)
Definition store_t2 : gmap loc (gmap string (@object (@header unit) data)) :=
  add_volume (attributes patient0) t2 store0.

(** A read that found no volume cached nothing, and the next one
    computes; a read that returned is not redone, whatever [volumes] holds
    by then. *)
Example total_volume_stale :
  (total_volume_at patient0 store0).1 = Exc IndexError
  ∧ (total_volume_at (total_volume_at patient0 store0).2 store_t2).1
    = (total_volume_at patient0 store_t2).1
  ∧ (total_volume_at (total_volume_at patient0 store_t2).2 store0).1
    = (total_volume_at patient0 store_t2).1.
Proof. split_and!; vm_compute; reflexivity. Qed.

Lemma total_volume_first_read_witness :
  (deref store_t2 (volumes (attributes patient0)) = ∅ →
   total_volume_at patient0 store_t2 = (Exc IndexError, patient0))
  ∧ (deref store_t2 (volumes (attributes patient0)) ≠ ∅ →
     ∃ k o, deref store_t2 (volumes (attributes patient0)) !! k = Some o
       ∧ let n := Z.of_nat (length (filter (λ c, (5 < c)%Z)
                                           (cells (object_data o)))) in
         match prod_spacings nrrd_prod_spacings (object_header o)
               ≫= int_times_float n with
         | Ret real =>
             ∃ d, total_volume_at patient0 store_t2
                  = (Ret d, {| attributes := attributes patient0;
                               _total_volume := Some d |})
                  ∧ d !! "voxel" = Some (VInt n)
                  ∧ d !! "real" = Some (VFloat real)
                  ∧ d !! "relative" = Some (VInt 1)
                  ∧ dom d = {["voxel"; "real"; "relative"]}
         | Exc e =>
             total_volume_at patient0 store_t2
             = (Exc e, {| attributes := attributes patient0;
                          _total_volume := Some {["voxel" := VInt n]} |})
         end).
Proof.
  apply (total_volume_first_read cells values nrrd_prod_spacings
           (λ m, reflexivity (values m)) patient0 store_t2).
  reflexivity.
Defined.

Lemma total_volume_computed_once_witness :
  ∃ d n,
    _total_volume
      (total_volume_at patient0
         (add_volume (attributes patient0) t2_bare store0)).2 = Some d
    ∧ attributes
        (total_volume_at patient0
           (add_volume (attributes patient0) t2_bare store0)).2
      = attributes patient0
    ∧ d !! "voxel" = Some (VInt n)
    ∧ total_volume_at
        (total_volume_at patient0
           (add_volume (attributes patient0) t2_bare store0)).2 store0
      = (Ret d,
         (total_volume_at patient0
            (add_volume (attributes patient0) t2_bare store0)).2)
    ∧ (∀ e, (total_volume_at patient0
               (add_volume (attributes patient0) t2_bare store0)).1 = Exc e →
         d !! "real" = None ∧ d !! "relative" = None)
    ∧ (∀ d', (total_volume_at patient0
                (add_volume (attributes patient0) t2_bare store0)).1 = Ret d' →
         d' = d ∧ is_Some (d !! "real") ∧ d !! "relative" = Some (VInt 1)).
Proof.
  apply (total_volume_computed_once cells values nrrd_prod_spacings
           (λ m, reflexivity (values m)) patient0
           (add_volume (attributes patient0) t2_bare store0) store0).
  - reflexivity.
  - vm_compute. discriminate.
Defined.

End LoadDemo.
